(** * The spreadsheet reconciliation engine of the BI import tool

    A shallow embedding of [BIIntegratedDataConverter]
    (BI系統整合資料匯入工具.py): the procurement upsert, the name-preferring
    de-duplication of the sales, repair and consignment conversions, the
    chunked table loader, the date normaliser and the column reconcilers
    of the customer and inventory conversions.

    Conventions.  A Python [str] is a [string] holding its UTF-8 bytes.  A
    cell of a pandas frame read from a workbook is a [Py.cell]: the missing
    value, a text or an exact integer (floating-point cells are outside the
    model).  A row is the [Series] that [iterrows] yields, a finite map from
    column labels to cells.  An SQLite table is a record of its declared
    columns, its uniqueness constraints and its rows; a statement that
    names an undeclared column, or that a uniqueness constraint rejects,
    raises, exactly as the binding does. *)

From stdpp Require Import base list strings gmap pretty.
From Stdlib Require Import ZArith Lia Ascii.

Local Open Scope Z_scope.

(** ** Python values and the helpers the tool calls on them *)

Module Py.

Inductive cell :=
  | NaN
  | Txt (s : string)
  | Int (z : Z).

#[global] Instance cell_eq_dec : EqDecision cell.
Proof. solve_decision. Defined.

(** [pd.isna], on the result of [row.get(label)] too ([None] when the
    label is absent). *)
Definition isna (v : option cell) : bool :=
  match v with
  | None | Some NaN => true
  | Some _ => false
  end.

(** Truth value of an object: [None], the empty text and zero are false,
    the float [nan] is true. *)
Definition truthy (v : option cell) : bool :=
  match v with
  | None => false
  | Some NaN => true
  | Some (Txt s) => negb (String.eqb s "")
  | Some (Int z) => negb (z =? 0)
  end.

Definition str (c : cell) : string :=
  match c with
  | NaN => "nan"
  | Txt s => s
  | Int z => pretty z
  end.

(** [str(v or "")] *)
Definition str_or_empty (v : option cell) : string :=
  match v with
  | Some c => if truthy v then str c else ""
  | None => ""
  end.

(** White space as [str.isspace] has it, which [str.strip], [int] and
    the pattern [\s] remove.  The characters of one byte: *)
Definition is_space (a : ascii) : bool :=
  let n := Z.of_nat (nat_of_ascii a) in
  ((9 <=? n) && (n <=? 13)) || ((28 <=? n) && (n <=? 32)).

(** of two bytes in UTF-8, U+0085 and U+00A0: *)
Definition is_space2 (a b : ascii) : bool :=
  let x := Z.of_nat (nat_of_ascii a) in
  let y := Z.of_nat (nat_of_ascii b) in
  (x =? 194) && ((y =? 133) || (y =? 160)).

(** and of three bytes, U+1680, U+2000 to U+200A, U+2028, U+2029, U+202F,
    U+205F and U+3000. *)
Definition is_space3 (a b c : ascii) : bool :=
  let x := Z.of_nat (nat_of_ascii a) in
  let y := Z.of_nat (nat_of_ascii b) in
  let z := Z.of_nat (nat_of_ascii c) in
  ((x =? 225) && (y =? 154) && (z =? 128)) ||
  ((x =? 226) && (y =? 128) &&
   (((128 <=? z) && (z <=? 138)) || (z =? 168) || (z =? 169) || (z =? 175))) ||
  ((x =? 226) && (y =? 129) && (z =? 159)) ||
  ((x =? 227) && (y =? 128) && (z =? 128)).

(** A text that is exactly one white space character. *)
Definition is_space_char (s : string) : bool :=
  match s with
  | String a EmptyString => is_space a
  | String a (String b EmptyString) => is_space2 a b
  | String a (String b (String c EmptyString)) => is_space3 a b c
  | _ => false
  end.

Definition is_digit (a : ascii) : bool :=
  let n := Z.of_nat (nat_of_ascii a) in (48 <=? n) && (n <=? 57).

Definition digit_value (a : ascii) : Z := Z.of_nat (nat_of_ascii a) - 48.

Fixpoint lstrip (s : string) : string :=
  match s with
  | String a s1 =>
      if is_space a then lstrip s1
      else
        match s1 with
        | String b s2 =>
            if is_space2 a b then lstrip s2
            else
              match s2 with
              | String c s3 => if is_space3 a b c then lstrip s3 else s
              | EmptyString => s
              end
        | EmptyString => s
        end
  | EmptyString => EmptyString
  end.

(** From the right: the text without its last white space characters is
    the first byte before what is left of the rest, unless that is itself
    one white space character. *)
Fixpoint rstrip (s : string) : string :=
  match s with
  | String a s' =>
      let r := String a (rstrip s') in
      if is_space_char r then EmptyString else r
  | EmptyString => EmptyString
  end.

Definition strip (s : string) : string := rstrip (lstrip s).

(** [int(text)]: optional sign, then decimal digits, single underscores
    allowed between digits; [None] stands for [ValueError]. *)
Fixpoint int_digits (s : string) (acc : Z) (after_digit : bool) : option Z :=
  match s with
  | EmptyString => if after_digit then Some acc else None
  | String a s' =>
      if is_digit a then int_digits s' (10 * acc + digit_value a) true
      else if Ascii.eqb a "_"%char && after_digit then int_digits s' acc false
      else None
  end.

Definition int_of_text (s : string) : option Z :=
  match strip s with
  | String "-"%char d => Z.opp <$> int_digits d 0 false
  | String "+"%char d => int_digits d 0 false
  | d => int_digits d 0 false
  end.

(** [int(c)] for a cell that is not missing. *)
Definition int (c : cell) : option Z :=
  match c with
  | Int z => Some z
  | Txt s => int_of_text s
  | NaN => None
  end.

(** [.replace("nan", "").replace("None", "")] on one text of a series *)
Definition blank_artifacts (s : string) : string :=
  let s := if String.eqb s "nan" then "" else s in
  if String.eqb s "None" then "" else s.

(** [str.lower] on the ASCII letters. *)
Definition lower_ascii (a : ascii) : ascii :=
  let n := nat_of_ascii a in
  if (65 <=? n)%nat && (n <=? 90)%nat then ascii_of_nat (n + 32) else a.

Fixpoint lower (s : string) : string :=
  match s with
  | String a s' => String (lower_ascii a) (lower s')
  | EmptyString => EmptyString
  end.

(** The first result that is not [None]. *)
Fixpoint first_some {A B : Type} (f : A → option B) (l : list A) : option B :=
  match l with
  | [] => None
  | x :: l' =>
      match f x with
      | Some y => Some y
      | None => first_some f l'
      end
  end.

(** [needle in s] *)
Fixpoint contains (needle s : string) : bool :=
  String.prefix needle s ||
  match s with
  | String _ s' => contains needle s'
  | EmptyString => false
  end.

(** Texts of ASCII characters only.  On these the white space, the
    letters and the digits of the helpers above are exactly Python's. *)
Fixpoint is_ascii (s : string) : bool :=
  match s with
  | String a s' => (nat_of_ascii a <? 128)%nat && is_ascii s'
  | EmptyString => true
  end.

End Py.

(** ** The procurement store *)

Module Sql.

Inductive sqlval :=
  | SNull
  | SText (s : string)
  | SInt (z : Z).

#[global] Instance sqlval_eq_dec : EqDecision sqlval.
Proof. solve_decision. Defined.

Inductive affinity := TEXT | INTEGER.

#[global] Instance affinity_eq_dec : EqDecision affinity.
Proof. solve_decision. Defined.

(** The uniqueness constraints the repository declares on [procure_items]:
    [po_number TEXT UNIQUE] (ProcureTrack/app.py) and
    [UNIQUE(po_number, item_serial_number)] (the import tool and
    ProcureTrack/procure.py). *)
Inductive key_constraint := UniquePo | UniquePoSerial.

#[global] Instance key_constraint_eq_dec : EqDecision key_constraint.
Proof. solve_decision. Defined.

Record table := Table {
  columns : list (string * affinity);
  constraints : list key_constraint;
  rows : list (gmap string sqlval)
}.

Definition column_names (t : table) : list string := (columns t).*1.

Definition has_column (t : table) (c : string) : bool :=
  bool_decide (c ∈ column_names t).

(** The value a row holds in a column; a column the row never received a
    value for reads NULL. *)
Definition field (r : gmap string sqlval) (c : string) : sqlval :=
  default SNull (r !! c).

Definition with_rows (t : table) (rs : list (gmap string sqlval)) : table :=
  Table (columns t) (constraints t) rs.

(** [ALTER TABLE ... ADD COLUMN c ty] *)
Definition add_column (c : string) (ty : affinity) (t : table) : table :=
  Table (columns t ++ [(c, ty)]) (constraints t) (rows t).

(** The affinity the table declares for a column. *)
Definition column_affinity (t : table) (c : string) : option affinity :=
  snd <$> head (filter (λ ca, ca.1 = c) (columns t)).

(** What a column stores for a value bound to a statement: an integer
    bound for a TEXT column is stored as its decimal text (the column
    [warehouse_qty] of a table the import tool has extended is such a
    column).  A text is stored as it is bound: every [CREATE TABLE] and
    [ALTER TABLE] of the repository declares the columns that receive a
    text TEXT. *)
Definition stored_as (a : option affinity) (v : sqlval) : sqlval :=
  match a, v with
  | Some TEXT, SInt z => SText (pretty z)
  | _, _ => v
  end.

Definition stored (t : table) (a : list (string * sqlval)) : list (string * sqlval) :=
  (λ cv, (cv.1, stored_as (column_affinity t cv.1) cv.2)) <$> a.

(** An integer is bound as a signed 64-bit value; for one outside that
    range [sqlite3] raises [OverflowError]. *)
Definition fits_int64 (z : Z) : bool := (- 2 ^ 63 <=? z) && (z <? 2 ^ 63).

End Sql.

(** ** Calendar dates and their text forms *)

Module Cal.

(** Decimal digits of a non-negative number, padded with zeros on the left
    to [w] characters ([%04d], [%02d]). *)
Fixpoint zeros (n : nat) : string :=
  match n with
  | O => EmptyString
  | S n' => String "0"%char (zeros n')
  end.

Definition zpad (w : nat) (z : Z) : string :=
  let d := pretty z in
  zeros (w - String.length d) +:+ d.

(** [date.isoformat()] *)
Definition isoformat (d : Z * Z * Z) : string :=
  let '(y, m, dd) := d in
  zpad 4 y +:+ "-" +:+ zpad 2 m +:+ "-" +:+ zpad 2 dd.

End Cal.

(** ** The procurement upsert: [convert_procuretrack_data] *)

Module Procure.
Import Py Sql.

Definition authoritative_fields : list string :=
  ["product_code"; "product_name"; "quantity"; "warehouse_qty";
   "delivery_date"; "warehouse"; "status"].

Definition operator_fields : list string :=
  ["dispatch_date"; "arrival_date"; "ship_info"; "goods_status"; "remarks"].

(** The columns of [CREATE TABLE IF NOT EXISTS procure_items]. *)
Definition created_columns : list (string * affinity) :=
  [("id", INTEGER); ("po_number", TEXT); ("item_serial_number", TEXT);
   ("product_code", TEXT); ("product_name", TEXT); ("quantity", INTEGER);
   ("warehouse_qty", INTEGER); ("delivery_date", TEXT);
   ("dispatch_date", TEXT); ("warehouse", TEXT); ("arrival_date", TEXT);
   ("ship_info", TEXT); ("status", TEXT); ("goods_status", TEXT)].

(** The store is [None] while no [procure_items] table exists. *)
Definition create_table_if_not_exists (db : option table) : table :=
  match db with
  | Some t => t
  | None => Table created_columns [UniquePoSerial] []
  end.

(** [if c not in cols: ALTER TABLE procure_items ADD COLUMN c TEXT] *)
Definition add_if_missing (cols : list string) (t : table) (c : string) : table :=
  if bool_decide (c ∈ cols) then t else add_column c TEXT t.

Definition evolved_columns : list string :=
  ["item_serial_number"; "goods_status"; "product_code"; "warehouse_qty";
   "warehouse"; "dispatch_date"].

(** The schema check: [cols] is read once from [PRAGMA table_info], then
    each of the six names is added when it is not in [cols]. *)
Definition ensure_columns (t : table) : table :=
  foldl (add_if_missing (column_names t)) t evolved_columns.

Record frame := Frame {
  df_columns : list string;
  df_rows : list (gmap string cell)
}.

(** The values bound to the statements for one import row. *)
Record item := Item {
  po_number : string;
  item_serial_number : string;
  product_code : string;
  product_name : string;
  quantity : Z;
  warehouse_qty : Z;
  delivery_date : string;
  warehouse_name : string;
  status_val : string
}.

Inductive outcome := Inserted | Updated | Skipped | Errored.

#[global] Instance outcome_eq_dec : EqDecision outcome.
Proof. solve_decision. Defined.

Record tally := Tally {
  inserted_count : nat;
  updated_count : nat;
  skipped_count : nat;
  errors_count : nat
}.

Definition count (o : outcome) (c : tally) : tally :=
  match o with
  | Inserted => Tally (S (inserted_count c)) (updated_count c) (skipped_count c) (errors_count c)
  | Updated => Tally (inserted_count c) (S (updated_count c)) (skipped_count c) (errors_count c)
  | Skipped => Tally (inserted_count c) (updated_count c) (S (skipped_count c)) (errors_count c)
  | Errored => Tally (inserted_count c) (updated_count c) (skipped_count c) (S (errors_count c))
  end.

(** [re.sub(r"\([^)]*\)", "", s)]: every parenthesised group is removed;
    an opening parenthesis that is never closed stays. *)
Fixpoint has_close (s : string) : bool :=
  match s with
  | String a s' => Ascii.eqb a ")"%char || has_close s'
  | EmptyString => false
  end.

Fixpoint remove_groups (inside : bool) (s : string) : string :=
  match s with
  | EmptyString => EmptyString
  | String a s' =>
      if inside then remove_groups (negb (Ascii.eqb a ")"%char)) s'
      else if Ascii.eqb a "("%char && has_close s' then remove_groups true s'
      else String a (remove_groups false s')
  end.

(** [int(x) if pd.notna(x) else 0], with [ValueError] and [TypeError]
    turned into 0. *)
Definition to_int (v : option cell) : Z :=
  match v with
  | Some c => if isna v then 0 else default 0 (int c)
  | None => 0
  end.

Section Upsert.

(** [pd.to_datetime(s, errors="coerce")] followed by [.date()]: pandas'
    generic parser, a parameter of the development; [None] is [NaT]. *)
Variable to_datetime : string → option (Z * Z * Z).

Definition _normalize_delivery (val : option cell) : string :=
  match val with
  | Some c =>
      if isna val then ""
      else
        let s := strip (str c) in
        if String.eqb s "" then ""
        else
          let s := strip (remove_groups false s) in
          match to_datetime s with
          | Some d => Cal.isoformat d
          | None => s
          end
  | None => ""
  end.

Definition read_item (row : gmap string cell) : item :=
  {| po_number := strip (str_or_empty (row !! "單據編號"));
     item_serial_number := strip (str_or_empty (row !! "序號"));
     product_code := strip (str_or_empty (row !! "產品代碼"));
     product_name := strip (str_or_empty (row !! "產品名稱"));
     quantity := to_int (row !! "交易數量");
     warehouse_qty := to_int (row !! "倉庫確認數量");
     delivery_date := _normalize_delivery (row !! "交貨日期");
     warehouse_name := strip (str_or_empty (row !! "倉庫"));
     status_val := strip (str_or_empty (row !! "狀態")) |}.

(** [SET] list of the [UPDATE] statement, with the bound values. *)
Definition update_assignments (it : item) : list (string * sqlval) :=
  [("product_code", SText (product_code it));
   ("product_name", SText (product_name it));
   ("quantity", SInt (quantity it));
   ("warehouse_qty", SInt (warehouse_qty it));
   ("delivery_date", SText (delivery_date it));
   ("warehouse", SText (warehouse_name it));
   ("status", SText (status_val it))].

(** Column list of the [INSERT] statement, with the bound values. *)
Definition insert_assignments (it : item) : list (string * sqlval) :=
  [("po_number", SText (po_number it));
   ("item_serial_number", SText (item_serial_number it));
   ("product_code", SText (product_code it));
   ("product_name", SText (product_name it));
   ("quantity", SInt (quantity it));
   ("warehouse_qty", SInt (warehouse_qty it));
   ("delivery_date", SText (delivery_date it));
   ("warehouse", SText (warehouse_name it));
   ("status", SText (status_val it));
   ("dispatch_date", SText "");
   ("arrival_date", SText "");
   ("ship_info", SText "");
   ("goods_status", SText "")].

Definition assign (r : gmap string sqlval) (a : list (string * sqlval)) : gmap string sqlval :=
  foldl (λ r '(c, v), <[c := v]> r) r a.

Definition has_columns (t : table) (cs : list string) : bool :=
  forallb (has_column t) cs.

Definition key_matches (po ser : string) (r : gmap string sqlval) : bool :=
  bool_decide (field r "po_number" = SText po) &&
  bool_decide (field r "item_serial_number" = SText ser).

(** [SELECT id FROM procure_items WHERE po_number = ? AND
    item_serial_number = ?] followed by [fetchone()]. *)
Definition select_id (t : table) (po ser : string) : option sqlval :=
  (λ r, field r "id") <$> head (filter (λ r, key_matches po ser r = true) (rows t)).

Definition id_is (v : sqlval) (r : gmap string sqlval) : bool :=
  bool_decide (v ≠ SNull) && bool_decide (field r "id" = v).

(** [UPDATE procure_items SET ... WHERE id = ?] *)
Definition update_by_id (t : table) (v : sqlval) (a : list (string * sqlval)) : table :=
  with_rows t ((λ r, if id_is v r then assign r (stored t a) else r) <$> rows t).

Definition row_id (r : gmap string sqlval) : Z :=
  match field r "id" with
  | SInt z => z
  | _ => 0
  end.

(** The id an [INTEGER PRIMARY KEY AUTOINCREMENT] column gives a new row. *)
Definition next_id (t : table) : Z :=
  1 + foldr Z.max 0 (row_id <$> rows t).

Definition violates (po ser : string) (rs : list (gmap string sqlval)) (k : key_constraint) : bool :=
  match k with
  | UniquePo => existsb (λ r, bool_decide (field r "po_number" = SText po)) rs
  | UniquePoSerial => existsb (key_matches po ser) rs
  end.

(** The two quantities can be bound to a statement. *)
Definition bindable (it : item) : bool :=
  fits_int64 (quantity it) && fits_int64 (warehouse_qty it).

(** The [INSERT] raises when it names an undeclared column, when a
    uniqueness constraint rejects the new key or when a quantity cannot be
    bound. *)
Definition insert_ok (t : table) (it : item) : bool :=
  has_columns t (insert_assignments it).*1 &&
  negb (existsb (violates (po_number it) (item_serial_number it) (rows t)) (constraints t)) &&
  bindable it.

Definition insert_row (t : table) (it : item) : table :=
  with_rows t (rows t ++ [assign {["id" := SInt (next_id t)]}
                                 (stored t (insert_assignments it))]).

(** Body of the loop over [df.iterrows()], with its [try]/[except]: a
    statement that raises leaves the table as it was and counts the row
    as an error. *)
Definition upsert_row (t : table) (row : gmap string cell) : table * outcome :=
  let it := read_item row in
  if String.eqb (po_number it) "" || String.eqb (item_serial_number it) ""
  then (t, Skipped)
  else if negb (has_columns t ["id"; "po_number"; "item_serial_number"])
  then (t, Errored)
  else
    match select_id t (po_number it) (item_serial_number it) with
    | Some existing_id =>
        if has_columns t ((update_assignments it).*1 ++ ["id"]) && bindable it
        then (update_by_id t existing_id (update_assignments it), Updated)
        else (t, Errored)
    | None =>
        if insert_ok t it then (insert_row t it, Inserted) else (t, Errored)
    end.

Definition upsert_rows (t : table) (rs : list (gmap string cell)) : table * tally :=
  foldl (λ '(t, c) row, let '(t', o) := upsert_row t row in (t', count o c))
        (t, Tally 0 0 0 0) rs.

(** [convert_procuretrack_data]: the workbook is [None] when the file is
    absent.  Returns the function's result, the store and the tally that
    is reported. *)
Definition convert_procuretrack_data (src : option frame) (db : option table)
  : bool * option table * option tally :=
  match src with
  | None => (false, db, None)
  | Some df =>
      if negb (bool_decide ("序號" ∈ df_columns df)) then (false, db, None)
      else
        let t := ensure_columns (create_table_if_not_exists db) in
        let '(t', c) := upsert_rows t (df_rows df) in
        (true, Some t', Some c)
  end.

End Upsert.

End Procure.

(** ** Frames, stable sorting and [drop_duplicates] *)

Module Frames.
Import Py.

(** A frame: its column labels and its rows, each row a map from labels
    to cells; a label a row holds no cell for reads as the missing value
    (what [pd.concat] leaves where a source lacks the column). *)
Record frame := Frame {
  columns : list string;
  data : list (gmap string cell)
}.

Definition value (r : gmap string cell) (c : string) : cell :=
  default NaN (r !! c).

Definition has_col (df : frame) (c : string) : bool :=
  bool_decide (c ∈ columns df).

(** [df[c] = f(row)] for every row: a new label is appended. *)
Definition set_column (c : string) (f : gmap string cell → cell) (df : frame) : frame :=
  Frame (if has_col df c then columns df else columns df ++ [c])
        ((λ r, <[c := f r]> r) <$> data df).

(** [df[list(m.keys())].rename(columns=m)] for a list [m] of (source
    label, new label); with [m] the identity pairs it is [df[labels]]. *)
Definition select_rename (m : list (string * string)) (df : frame) : frame :=
  Frame m.*2 ((λ r, list_to_map ((λ kv, (kv.2, value r kv.1)) <$> m)) <$> data df).

Definition select_columns (cs : list string) (df : frame) : frame :=
  select_rename ((λ c, (c, c)) <$> cs) df.

Section Sorting.
Context {A : Type} (le : A → A → bool).

Fixpoint insert_sorted (x : A) (l : list A) : list A :=
  match l with
  | [] => [x]
  | y :: l' => if le x y then x :: l else y :: insert_sorted x l'
  end.

(** A stable sort: of two rows that compare equal, the one that came
    first stays first. *)
Definition stable_sort (l : list A) : list A := foldr insert_sorted [] l.

End Sorting.

Section DropDuplicates.
Context {A K : Type} `{EqDecision K} (key : A → K).

Fixpoint drop_dups (seen : list K) (l : list A) : list A :=
  match l with
  | [] => []
  | x :: l' =>
      if bool_decide (key x ∈ seen) then drop_dups seen l'
      else x :: drop_dups (key x :: seen) l'
  end.

(** [drop_duplicates(subset=[k], keep="first")] on the rows. *)
Definition drop_duplicate_keys (l : list A) : list A := drop_dups [] l.

End DropDuplicates.

(** The order [sort_values] puts the values of one column in: numbers,
    then texts, then missing values. *)
Definition cell_le (a b : cell) : bool :=
  match a, b with
  | Int x, Int y => x <=? y
  | Int _, _ => true
  | Txt _, Int _ => false
  | Txt s, Txt u => String.leb s u
  | Txt _, NaN => true
  | NaN, NaN => true
  | NaN, _ => false
  end.

End Frames.

(** ** De-duplication of the sales, repair and consignment main tables *)

Module Dedup.
Import Py Frames.

(** [.astype(str).replace("nan", "").replace("None", "").str.strip()] *)
Definition clean_text (c : cell) : cell :=
  Txt (strip (blank_artifacts (str c))).

(** [s.isin(["", "nan", "None"]) | s.isna()] *)
Definition is_blank (c : cell) : bool :=
  match c with
  | NaN => true
  | Txt s => bool_decide (s ∈ ["" ; "nan"; "None"])
  | Int _ => false
  end.

(** [.fillna("")] *)
Definition fillna (c : cell) : cell :=
  match c with
  | NaN => Txt ""
  | _ => c
  end.

(** [.astype(str).str.strip().ne("")] *)
Definition has_name (c : cell) : bool :=
  negb (String.eqb (strip (str c)) "").

(** The name a row of the concatenated sales or repair frame is ranked
    by: its 客戶名稱 as cleaned text, or, where that is blank and the frame
    has a column 客戶, its cleaned 客戶. *)
Definition resolved_name (df : frame) (r : gmap string cell) : cell :=
  let n := clean_text (value r "客戶名稱") in
  if has_col df "客戶"
  then if is_blank n then fillna (clean_text (value r "客戶")) else n
  else n.

Definition clean_column (c : string) (df : frame) : frame :=
  if has_col df c then set_column c (λ r, clean_text (value r c)) df else df.

(** The [if]/[elif] that completes [target] from [source]: copy it when
    [target] is no column, fill the blank cells when both are columns. *)
Definition fill_from (target source : string) (df : frame) : frame :=
  if negb (has_col df target) && has_col df source
  then set_column target (λ r, value r source) df
  else if has_col df target && has_col df source
  then set_column target
         (λ r, if is_blank (value r target) then fillna (value r source)
               else value r target) df
  else df.

(** [sort_values(["單據編號", "__has_name__"], ascending=[True, False])]:
    by document number, and within one document number the rows with a
    name first. *)
Definition named_first (name : string) (r1 r2 : gmap string cell) : bool :=
  let d1 := value r1 "單據編號" in
  let d2 := value r2 "單據編號" in
  if cell_le d1 d2
  then if cell_le d2 d1
       then has_name (value r1 name) || negb (has_name (value r2 name))
       else true
  else false.

Definition sort_named_first (df : frame) : frame :=
  if has_col df "單據編號" && has_col df "客戶名稱"
  then Frame (columns df) (stable_sort (named_first "客戶名稱") (data df))
  else df.

Definition drop_duplicates (df : frame) : frame :=
  Frame (columns df) (drop_duplicate_keys (λ r, value r "單據編號") (data df)).

Definition main_columns : list string :=
  ["單據編號"; "發貨日期"; "客戶名稱"; "送貨地址"; "聯絡電話"; "備註";
   "業務人員名稱"; "客戶代碼"].

(** [convert_sales_data], from the concatenated frame to the frame loaded
    into [sales_main]; [None] when [drop_duplicates] raises [KeyError]
    for want of the column 單據編號. *)
Definition sales_main (df_combined : frame) : option frame :=
  let df := clean_column "客戶名稱" df_combined in
  let df := clean_column "客戶" df in
  let df := fill_from "客戶名稱" "客戶" df in
  let df := sort_named_first df in
  let available_main_columns := filter (λ c, c ∈ columns df) main_columns in
  let df_main := select_columns available_main_columns df in
  if has_col df_main "單據編號" then Some (drop_duplicates df_main) else None.

(** [convert_repair_data], from the concatenated frame to the frame
    loaded into [repair_data]: duplicates are dropped only when both
    columns are there. *)
Definition repair_data (df_combined : frame) : frame :=
  let df := clean_column "客戶名稱" df_combined in
  let df := clean_column "客戶" df in
  let df := fill_from "客戶名稱" "客戶" df in
  if has_col df "單據編號" && has_col df "客戶名稱"
  then drop_duplicates (sort_named_first df)
  else df.

Definition main_columns_mapping : list (string * string) :=
  [("單據編號", "單據編號"); ("單據日期", "單據日期"); ("借貨對象", "客戶代碼");
   ("借貨對象名稱", "客戶名稱"); ("業務人員名稱", "業務人員名稱");
   ("聯絡電話", "聯絡電話"); ("送貨地址", "送貨地址"); ("備註", "備註")].

(** [convert_custody_data], from the concatenated frame to the frame
    that is de-duplicated for [custody_main] (the later clean-up of
    客戶代碼 is left out). *)
Definition custody_main (df0 : frame) : option frame :=
  let available_main_columns :=
    filter (λ kv, kv.1 ∈ columns df0) main_columns_mapping in
  let df := clean_column "客戶名稱" df0 in
  let df := clean_column "寄貨對象名稱" df in
  let df := clean_column "客戶" df in
  let df := fill_from "寄貨對象名稱" "客戶" df in
  let df := fill_from "寄貨對象名稱" "客戶名稱" df in
  let df_main := select_rename available_main_columns df in
  let df_main := sort_named_first df_main in
  if has_col df_main "單據編號" then Some (drop_duplicates df_main) else None.

(** The three conversions side by side: the frame each loads into its
    main table, the name a row is ranked by, and which rows count as
    without and with a name.  For the consignment table the name is the
    cell 借貨對象名稱 as it was read; a row there counts as without a name
    when the cell is a text of white space only, and as with a name when
    the cell is not missing and its text is not blank. *)
Inductive conversion := Sales | Repair | Consignment.

Definition main_table (k : conversion) (df : frame) : option frame :=
  match k with
  | Sales => sales_main df
  | Repair => Some (repair_data df)
  | Consignment => custody_main df
  end.

Definition name_field (k : conversion) : string :=
  match k with
  | Consignment => "借貨對象名稱"
  | _ => "客戶名稱"
  end.

Definition ranked_name (k : conversion) (df : frame) (r : gmap string cell) : cell :=
  match k with
  | Consignment => value r "借貨對象名稱"
  | _ => resolved_name df r
  end.

Definition unnamed (k : conversion) (df : frame) (r : gmap string cell) : Prop :=
  match k with
  | Consignment => ∃ s, value r "借貨對象名稱" = Txt s ∧ strip s = ""
  | _ => has_name (resolved_name df r) = false
  end.

Definition named (k : conversion) (df : frame) (r : gmap string cell) : Prop :=
  match k with
  | Consignment =>
      value r "借貨對象名稱" ≠ NaN ∧ has_name (value r "借貨對象名稱") = true
  | _ => has_name (resolved_name df r) = true
  end.

(** The row [kept] of the main table carries the cells of the source row
    [r] (the name apart, which is the ranked name). *)
Definition carries (k : conversion) (df : frame) (r kept : gmap string cell) : Prop :=
  match k with
  | Sales =>
      ∀ c, c ∈ main_columns → c ∈ columns df → c ≠ "客戶名稱" →
           value kept c = value r c
  | Repair =>
      ∀ c, c ≠ "客戶名稱" → c ≠ "客戶" → value kept c = value r c
  | Consignment =>
      ∀ src dst, (src, dst) ∈ main_columns_mapping → src ∈ columns df →
                 value kept dst = value r src
  end.

End Dedup.

(** ** The batch loader: [insert_data_in_chunks] *)

Module Loader.

Section Loader.
Context {row : Type}.

(** [range(0, n, k)] for a positive step [k]. *)
Definition range_step (n k : nat) : list nat :=
  (λ j, j * k)%nat <$> seq 0 ((n + k - 1) / k)%nat.

(** [df.iloc[i:j]] *)
Definition iloc (df : list row) (i j : nat) : list row :=
  take (j - i) (drop i df).

(** One turn of the loop: the chunk at offset [i] replaces the table when
    [i] is 0 and is appended to it otherwise.  The state is the store (a
    map from table names to rows) and the chunks written so far. *)
Definition write_chunk (df : list row) (table_name : string) (chunk_size : nat)
    (st : gmap string (list row) * list (list row)) (i : nat)
  : gmap string (list row) * list (list row) :=
  let chunk := iloc df i (i + chunk_size) in
  let conn :=
    if (i =? 0)%nat then <[table_name := chunk]> st.1
    else <[table_name := default [] (st.1 !! table_name) ++ chunk]> st.1 in
  (conn, st.2 ++ [chunk]).

(** [insert_data_in_chunks]: [DROP TABLE IF EXISTS], then the loop.  A
    step of 0 makes [range] raise ([None]). *)
Definition insert_data_in_chunks (df : list row) (conn : gmap string (list row))
    (table_name : string) (chunk_size : nat)
  : option (gmap string (list row) * list (list row)) :=
  if (chunk_size =? 0)%nat then None
  else Some (foldl (write_chunk df table_name chunk_size)
                   (delete table_name conn, [])
                   (range_step (length df) chunk_size)).

End Loader.

End Loader.

(** ** The date normaliser: [convert_datetime_optimized] *)

Module Dates.
Import Py.

Record timestamp := Stamp {
  year : Z; month : Z; day : Z; hour : Z; minute : Z; second : Z
}.

#[global] Instance timestamp_eq_dec : EqDecision timestamp.
Proof. solve_decision. Defined.

(** [strftime("%Y-%m-%d %H:%M:%S")] *)
Definition strftime (t : timestamp) : string :=
  Cal.zpad 4 (year t) +:+ "-" +:+ Cal.zpad 2 (month t) +:+ "-" +:+
  Cal.zpad 2 (day t) +:+ " " +:+ Cal.zpad 2 (hour t) +:+ ":" +:+
  Cal.zpad 2 (minute t) +:+ ":" +:+ Cal.zpad 2 (second t).

(** [.dt.strftime] on one value of a series: [NaT] becomes the missing
    value. *)
Definition strftime_or_nan (o : option timestamp) : cell :=
  match o with
  | Some t => Txt (strftime t)
  | None => NaN
  end.

(** The calendar date of a day counted from 1970-01-01, and back. *)
Definition civil_from_days (z : Z) : Z * Z * Z :=
  let z := z + 719468 in
  let era := z / 146097 in
  let doe := z - era * 146097 in
  let yoe := (doe - doe / 1460 + doe / 36524 - doe / 146096) / 365 in
  let doy := doe - (365 * yoe + yoe / 4 - yoe / 100) in
  let mp := (5 * doy + 2) / 153 in
  let d := doy - (153 * mp + 2) / 5 + 1 in
  let m := if mp <? 10 then mp + 3 else mp - 9 in
  (if m <=? 2 then yoe + era * 400 + 1 else yoe + era * 400, m, d).

Definition days_from_civil (y m d : Z) : Z :=
  let y := if m <=? 2 then y - 1 else y in
  let era := y / 400 in
  let yoe := y - era * 400 in
  let mp := if 2 <? m then m - 3 else m + 9 in
  let doy := (153 * mp + 2) / 5 + d - 1 in
  let doe := yoe * 365 + yoe / 4 - yoe / 100 + doy in
  era * 146097 + doe - 719468.

(** Midnights a pandas [Timestamp] (64-bit nanoseconds since 1970) can
    hold: 1677-09-22 to 2262-04-11. *)
Definition day_in_bounds (d : Z) : bool := (-106751 <=? d) && (d <=? 106751).

(** [pd.to_datetime(n, origin="1899-12-30", unit="D", errors="coerce")] on
    one whole number: day 0 is 1899-12-30, which is day -25569 from 1970. *)
Definition serial_to_timestamp (n : Z) : option timestamp :=
  let d := n - 25569 in
  if day_in_bounds d
  then let '(y, m, dd) := civil_from_days d in Some (Stamp y m dd 0 0 0)
  else None.

(** A column by its dtype: typed timestamps ([None] is [NaT]), whole
    numbers (int64, which has no missing value), or objects. *)
Inductive series :=
  | Datetimes (v : list (option timestamp))
  | Integers (v : list Z)
  | Objects (v : list cell).

(** [.notna().sum()] *)
Definition non_null_count (s : series) : nat :=
  match s with
  | Datetimes v => length (filter is_Some v)
  | Integers v => length v
  | Objects v => length (filter (λ c, c ≠ NaN) v)
  end.

(** [.astype(str)] *)
Definition astype_str (s : series) : list cell :=
  match s with
  | Datetimes v => (λ o, match o with
                         | Some t => Txt (strftime t)
                         | None => Txt "NaT"
                         end) <$> v
  | Integers v => (λ n, Txt (pretty n)) <$> v
  | Objects v => (λ c, Txt (str c)) <$> v
  end.

(** The values of a column that is not of timestamps, as cells. *)
Definition cells (s : series) : list cell :=
  match s with
  | Datetimes v => strftime_or_nan <$> v
  | Integers v => Int <$> v
  | Objects v => v
  end.

(** [clean_date_string]: a weekday in parentheses, with the white space
    around it, is removed wherever it stands; then the text is stripped.
    Missing values and the empty text are returned as they are. *)
Definition weekdays : list string := ["一"; "二"; "三"; "四"; "五"; "六"; "日"].

Fixpoint drop_prefix (p s : string) : option string :=
  match p, s with
  | EmptyString, _ => Some s
  | String a p', String b s' => if Ascii.eqb a b then drop_prefix p' s' else None
  | String _ _, EmptyString => None
  end.

Definition weekday_group (s : string) : option string :=
  match drop_prefix "(" (lstrip s) with
  | Some s1 =>
      lstrip <$> first_some (λ w, match drop_prefix w s1 with
                                      | Some s2 => drop_prefix ")" s2
                                      | None => None
                                      end) weekdays
  | None => None
  end.

Fixpoint remove_weekdays (skip : nat) (s : string) : string :=
  match s with
  | EmptyString => EmptyString
  | String a s' =>
      match skip with
      | S k => remove_weekdays k s'
      | O =>
          match weekday_group s with
          | Some rest =>
              remove_weekdays (String.length s' - String.length rest) s'
          | None => String a (remove_weekdays 0 s')
          end
      end
  end.

Definition clean_date_string (c : cell) : cell :=
  match c with
  | NaN => NaN
  | Txt EmptyString => Txt ""
  | _ => Txt (strip (remove_weekdays 0 (str c)))
  end.

Definition formats_to_try : list string :=
  ["%Y/%m/%d"; "%Y-%m-%d"; "%Y/%m/%d %H:%M:%S"; "%Y-%m-%d %H:%M:%S";
   "%m/%d/%Y"; "%d/%m/%Y"; "%Y%m%d"].

(** [.notna().sum()] of a parsed column *)
Definition parsed_count (l : list (option timestamp)) : nat :=
  length (filter is_Some l).

(** One strategy on a column: it wins when it parses at least one value,
    and then every value it does not parse becomes missing. *)
Definition attempt (test_conversion : list (option timestamp)) : option (list cell) :=
  if (0 <? parsed_count test_conversion)%nat
  then Some (strftime_or_nan <$> test_conversion)
  else None.

Definition on_text (p : string → option timestamp) (c : cell) : option timestamp :=
  match c with
  | Txt s => p s
  | _ => None
  end.

Definition in_serial_range (n : Z) : bool := (1 <=? n) && (n <=? 100000).

Section Normaliser.

(** [pd.to_datetime(text, format=fmt, errors="coerce")] and
    [pd.to_datetime(text, errors="coerce")] on one text: pandas' parsers,
    parameters of the development; [None] is [NaT]. *)
Variable to_datetime_format : string → string → option timestamp.
Variable to_datetime_any : string → option timestamp.

Fixpoint try_formats (fmts : list string) (cleaned_data : list cell) : option (list cell) :=
  match fmts with
  | [] => None
  | fmt :: rest =>
      match attempt (on_text (to_datetime_format fmt) <$> cleaned_data) with
      | Some out => Some out
      | None => try_formats rest cleaned_data
      end
  end.

(** Methods 2 and 3 and the final fallback, on the original values. *)
Definition text_strategies (s : series) : list cell :=
  let cleaned_data := clean_date_string <$> cells s in
  match try_formats formats_to_try cleaned_data with
  | Some out => out
  | None =>
      match attempt (on_text to_datetime_any <$> cleaned_data) with
      | Some out => out
      | None => astype_str s
      end
  end.

(** The body of the loop of [convert_datetime_optimized] for one column. *)
Definition convert_datetime_column (s : series) : series :=
  if (non_null_count s =? 0)%nat then s
  else
    match s with
    | Datetimes v => Objects (strftime_or_nan <$> v)
    | Integers v =>
        if existsb in_serial_range v
        then match attempt (serial_to_timestamp <$> v) with
             | Some out => Objects out
             | None => Objects (text_strategies s)
             end
        else Objects (text_strategies s)
    | Objects _ => Objects (text_strategies s)
    end.

Definition convert_datetime_optimized (df : gmap string series)
    (date_columns : list string) : gmap string series :=
  foldl (λ df col, match df !! col with
                   | Some s => <[col := convert_datetime_column s]> df
                   | None => df
                   end) df date_columns.

(** The strategies in the order the code tries them, each as the column
    it would parse: the day serials when some value lies in [1, 100000],
    the seven patterns, the generic parser. *)
Definition strategies (s : series) : list (list (option timestamp)) :=
  let cleaned_data := clean_date_string <$> cells s in
  let textual :=
    ((λ fmt, on_text (to_datetime_format fmt) <$> cleaned_data) <$> formats_to_try)
    ++ [on_text to_datetime_any <$> cleaned_data] in
  match s with
  | Datetimes v => [v]
  | Integers v =>
      (if existsb in_serial_range v then [serial_to_timestamp <$> v] else [])
      ++ textual
  | Objects _ => textual
  end.

End Normaliser.

(** *** Parsing by an explicit pattern, as [strptime] does it *)

Inductive directive :=
  | DYear | DMonth | DDay | DHour | DMinute | DSecond | DLit (a : ascii).

Fixpoint directives (fmt : string) : list directive :=
  match fmt with
  | String "%" (String c rest) =>
      (if Ascii.eqb c "Y" then DYear else if Ascii.eqb c "m" then DMonth
       else if Ascii.eqb c "d" then DDay else if Ascii.eqb c "H" then DHour
       else if Ascii.eqb c "M" then DMinute else if Ascii.eqb c "S" then DSecond
       else DLit c) :: directives rest
  | String a rest => DLit a :: directives rest
  | EmptyString => []
  end.

Definition digit_at (s : string) : option (Z * string) :=
  match s with
  | String a r => if is_digit a then Some (digit_value a, r) else None
  | EmptyString => None
  end.

Definition two_digits (lo hi : Z) (s : string) : list (Z * string) :=
  match digit_at s with
  | Some (a, r) =>
      match digit_at r with
      | Some (b, r') =>
          let v := 10 * a + b in
          if (lo <=? v) && (v <=? hi) then [(v, r')] else []
      | None => []
      end
  | None => []
  end.

Definition one_digit (lo : Z) (s : string) : list (Z * string) :=
  match digit_at s with
  | Some (a, r) => if lo <=? a then [(a, r)] else []
  | None => []
  end.

Definition four_digits (s : string) : list (Z * string) :=
  match digit_at s with
  | Some (a, r1) =>
      match digit_at r1 with
      | Some (b, r2) =>
          match digit_at r2 with
          | Some (c, r3) =>
              match digit_at r3 with
              | Some (d, r4) => [(1000 * a + 100 * b + 10 * c + d, r4)]
              | None => []
              end
          | None => []
          end
      | None => []
      end
  | None => []
  end.

(** The ways a field can be read off the front of a text, in the order
    the pattern of the directive prefers them. *)
Definition candidates (d : directive) (s : string) : list (Z * string) :=
  match d with
  | DYear => four_digits s
  | DMonth => two_digits 1 12 s ++ one_digit 1 s
  | DDay =>
      two_digits 1 31 s ++ one_digit 1 s ++
      match s with
      | String " " r => one_digit 1 r
      | _ => []
      end
  | DHour => two_digits 0 23 s ++ one_digit 0 s
  | DMinute => two_digits 0 59 s ++ one_digit 0 s
  | DSecond => two_digits 0 61 s ++ one_digit 0 s
  | DLit _ => []
  end.

Definition set_field (d : directive) (v : Z) (t : timestamp) : timestamp :=
  match d with
  | DYear => Stamp v (month t) (day t) (hour t) (minute t) (second t)
  | DMonth => Stamp (year t) v (day t) (hour t) (minute t) (second t)
  | DDay => Stamp (year t) (month t) v (hour t) (minute t) (second t)
  | DHour => Stamp (year t) (month t) (day t) v (minute t) (second t)
  | DMinute => Stamp (year t) (month t) (day t) (hour t) v (second t)
  | DSecond => Stamp (year t) (month t) (day t) (hour t) (minute t) v
  | DLit _ => t
  end.

Fixpoint match_directives (ds : list directive) (s : string) (t : timestamp)
  : option timestamp :=
  match ds with
  | [] => if String.eqb s "" then Some t else None
  | DLit a :: ds' =>
      match s with
      | String b s' => if Ascii.eqb a b then match_directives ds' s' t else None
      | EmptyString => None
      end
  | d :: ds' =>
      first_some (λ vr : Z * string,
                       match_directives ds' vr.2 (set_field d vr.1 t))
                    (candidates d s)
  end.

Definition is_leap (y : Z) : bool :=
  ((y mod 4 =? 0) && negb (y mod 100 =? 0)) || (y mod 400 =? 0).

Definition days_in_month (y m : Z) : Z :=
  if m =? 2 then (if is_leap y then 29 else 28)
  else if (m =? 4) || (m =? 6) || (m =? 9) || (m =? 11) then 30
  else 31.

(** The fields are added up to a point in time, so a second of 60 or 61,
    which the pattern of [%S] admits, runs over into the next minute. *)
Definition rolled_over (t : timestamp) : timestamp :=
  if second t <=? 59 then t
  else
    let total := 3600 * hour t + 60 * minute t + second t in
    let '(y, m, d) :=
      civil_from_days
        (days_from_civil (year t) (month t) (day t) + total / 86400) in
    let r := total mod 86400 in
    Stamp y m d (r / 3600) (r mod 3600 / 60) (r mod 60).

(** A parsed date must exist in the calendar and, added up, fit a
    [Timestamp]. *)
Definition valid (t : timestamp) : bool :=
  (day t <=? days_in_month (year t) (month t)) &&
  (let r := rolled_over t in
   day_in_bounds (days_from_civil (year r) (month r) (day r))).

(** [to_datetime(text, format=fmt, errors="coerce")] for the patterns
    above: the whole text must match. *)
Definition strptime (fmt s : string) : option timestamp :=
  match match_directives (directives fmt) s (Stamp 1900 1 1 0 0 0) with
  | Some t => if valid t then Some (rolled_over t) else None
  | None => None
  end.

End Dates.

(** ** The column reconcilers of the customer and inventory conversions *)

Module Reconcile.
Import Py.

(** A frame column by column: the length of its index and its columns
    in order, each a label with its values.  Labels may repeat (as after
    a [rename] that maps two labels to one). *)
Record cframe := CFrame {
  index_length : nat;
  cols : list (string * list cell)
}.

Definition labels (df : cframe) : list string := (cols df).*1.

(** The columns of a frame that carry a label. *)
Definition labelled (c : string) (df : cframe) : list (string * list cell) :=
  filter (λ kv, kv.1 = c) (cols df).

(** [df[c]] for a label that occurs once: [None] when it does not occur. *)
Definition column (df : cframe) (c : string) : option (list cell) :=
  snd <$> head (labelled c df).

(** Replace the values of the column labelled [c], or append it. *)
Fixpoint put (c : string) (vals : list cell) (l : list (string * list cell))
  : list (string * list cell) :=
  match l with
  | [] => [(c, vals)]
  | kv :: l' => if String.eqb kv.1 c then (c, vals) :: l' else kv :: put c vals l'
  end.

(** [df[c] = series]: on a frame whose index is still empty a non-empty
    series brings its index, and the columns that were there are filled
    with the missing value. *)
Definition set_series (c : string) (vals : list cell) (df : cframe) : cframe :=
  let df :=
    if (index_length df =? 0)%nat && negb (length vals =? 0)%nat
    then CFrame (length vals)
                ((λ kv, (kv.1, replicate (length vals) NaN)) <$> cols df)
    else df in
  CFrame (index_length df) (put c vals (cols df)).

(** [df[c] = scalar] *)
Definition set_scalar (c : string) (v : cell) (df : cframe) : cframe :=
  CFrame (index_length df) (put c (replicate (index_length df) v) (cols df)).

(** [df[mask]] *)
Fixpoint mask_values {A : Type} (mask : list bool) (vals : list A) : list A :=
  match mask, vals with
  | b :: mask', v :: vals' =>
      if b then v :: mask_values mask' vals' else mask_values mask' vals'
  | _, _ => []
  end.

Definition select_rows (mask : list bool) (df : cframe) : cframe :=
  CFrame (length (filter (λ b, b = true) mask))
         ((λ kv, (kv.1, mask_values mask kv.2)) <$> cols df).

(** [df.empty] *)
Definition empty (df : cframe) : bool :=
  (index_length df =? 0)%nat || (length (cols df) =? 0)%nat.

(** *** Text clean-up *)

(** [normalize_phone_value] *)
Fixpoint digits_only (s : string) : string :=
  match s with
  | String a s' => if is_digit a then String a (digits_only s') else digits_only s'
  | EmptyString => EmptyString
  end.

Definition normalize_phone_value (value : cell) : cell :=
  match value with
  | NaN => Txt ""
  | _ =>
      let value_str := strip (str value) in
      if bool_decide (lower value_str ∈ ["nan"; "none"]) then Txt ""
      else Txt (digits_only value_str)
  end.

Definition phone_keywords : list string :=
  ["電話"; "手機"; "Phone"; "phone"; "TEL"; "tel"].

(** [normalize_phone_columns] *)
Definition normalize_phone_columns (df : cframe) : cframe :=
  if empty df then df
  else CFrame (index_length df)
         ((λ kv : string * list cell,
             if existsb (λ keyword, contains keyword kv.1) phone_keywords
             then (kv.1, normalize_phone_value <$> kv.2) else kv)
            <$> cols df).

(** [re.sub(r"(?<=\d)-(?=\d)", "", s)]: a hyphen between two digits is
    removed. *)
Definition starts_with_digit (s : string) : bool :=
  match s with
  | String a _ => is_digit a
  | EmptyString => false
  end.

Fixpoint remove_digit_hyphens (after_digit : bool) (s : string) : string :=
  match s with
  | String a s' =>
      if Ascii.eqb a "-" && after_digit && starts_with_digit s'
      then remove_digit_hyphens false s'
      else String a (remove_digit_hyphens (is_digit a) s')
  | EmptyString => EmptyString
  end.

(** [_clean_value] of [normalize_remark_columns] *)
Definition _clean_value (value : cell) : cell :=
  match value with
  | NaN => Txt ""
  | _ =>
      let value_str := strip (str value) in
      if bool_decide (lower value_str ∈ ["nan"; "none"]) then Txt ""
      else Txt (remove_digit_hyphens false value_str)
  end.

(** *** Customer master: [convert_customer_data] *)

Definition column_mapping : list (string * list string) :=
  [("客戶代碼", ["客戶代碼"; "Unnamed: 0"]);
   ("客戶名稱", ["客戶名稱"; "Unnamed: 3"]);
   ("聯絡地址", ["聯絡地址"; "Unnamed: 2"]);
   ("郵遞區號", ["郵遞區號"; "Unnamed: 1"]);
   ("聯絡電話", ["聯絡電話"; "Unnamed: 10"]);
   ("聯絡人", ["聯絡人"; "Unnamed: 9"]);
   ("業務人員名稱", ["業務人員名稱"; "Unnamed: 4"]);
   ("銷售分類碼名稱", ["銷售分類碼名稱"; "Unnamed: 5"]);
   ("預設銷售通路名稱", ["預設銷售通路名稱"; "Unnamed: 6"]);
   ("正航舊編碼", ["正航舊編碼"; "Unnamed: 7"]);
   ("舊編碼", ["舊編碼"; "Unnamed: 8"])].

(** One turn of the loop over [column_mapping]: the first candidate that
    is a column of the source gives the target its values; a target that
    is no column after that is created with the empty text. *)
Definition reconcile_target (df_customer customer_df : cframe)
    (m : string * list string) : cframe :=
  let customer_df :=
    match first_some (column df_customer) m.2 with
    | Some vals =>
        set_series m.1 ((λ c, Txt (blank_artifacts (str c))) <$> vals) customer_df
    | None => customer_df
    end in
  if bool_decide (m.1 ∈ labels customer_df) then customer_df
  else set_scalar m.1 (Txt "") customer_df.

(** The row filter on 客戶代碼. *)
Definition keep_code (c : cell) : bool :=
  bool_decide (c ≠ Txt "") && bool_decide (c ≠ Txt "客戶資料") &&
  bool_decide (c ≠ Txt "代碼") && bool_decide (c ≠ NaN).

(** The frame [convert_customer_data] hands to the loader. *)
Definition customer_frame (df_customer : cframe) : cframe :=
  let customer_df :=
    foldl (reconcile_target df_customer) (CFrame 0 []) column_mapping in
  let mask := keep_code <$> default [] (column customer_df "客戶代碼") in
  normalize_phone_columns (select_rows mask customer_df).

(** *** Inventory: [convert_inventory_inquiry_data] *)

(** The [if]/[elif] chain that names the canonical column of a source
    label. *)
Definition rule (col : string) : option string :=
  if contains "產品名稱" col then Some "product_name"
  else if contains "倉庫名稱" col then Some "warehouse_name"
  else if contains "倉庫往來對象名稱" col || contains "往來對象" col
  then Some "warehouse_partner_name"
  else if contains "存貨屬性" col || contains "庫存屬性" col || String.eqb col "屬性"
  then Some "inventory_type"
  else if contains "產品代碼" col || contains "代碼" col then Some "product_code"
  else if contains "規格" col then Some "specification"
  else if contains "單位" col then Some "unit"
  else if contains "數量" col then Some "quantity"
  else if contains "單價" col then Some "unit_price"
  else if contains "總金額" col || contains "金額" col then Some "total_amount"
  else if contains "更新日期" col || contains "日期" col then Some "last_update_date"
  else if contains "備註" col then Some "remark"
  else None.

(** The label a source column bears after [df.rename(columns=column_mapping)]. *)
Definition rename_label (col : string) : string := default col (rule col).

Definition required_columns : list string :=
  ["product_name"; "warehouse_name"; "warehouse_partner_name";
   "inventory_type"; "product_code"; "specification"; "unit"; "quantity";
   "unit_price"; "total_amount"; "last_update_date"; "remark"].

(** [df_final]: the renamed frame, completed with the required columns it
    lacks and cut down to the required columns. *)
Definition inventory_final (df : cframe) : cframe :=
  let df_mapped :=
    CFrame (index_length df) ((λ kv, (rename_label kv.1, kv.2)) <$> cols df) in
  let df_mapped :=
    foldl (λ d col, if bool_decide (col ∈ labels d) then d
                    else set_scalar col (Txt "") d)
          df_mapped required_columns in
  CFrame (index_length df)
         (concat ((λ c, labelled c df_mapped) <$> required_columns)).

(** A function applied to the values of the column labelled [c]; where
    the label repeats, [df[c]] is a frame and the call raises ([None]). *)
Definition apply_column (c : string) (f : cell → cell) (df : cframe) : option cframe :=
  match labelled c df with
  | [] => Some df
  | [_] => Some (CFrame (index_length df)
                   ((λ kv : string * list cell,
                       if String.eqb kv.1 c then (kv.1, f <$> kv.2) else kv)
                      <$> cols df))
  | _ => None
  end.

Definition inventory_labels : list (string * string) :=
  [("自有庫存", "世磊"); ("借入庫存", "寄倉"); ("借出庫存", "借出");
   ("自有", "世磊"); ("借入", "寄倉"); ("借出", "借出")].

(** [.fillna("").astype(str).str.strip()] followed by [.replace(mapping)] *)
Definition display_type (c : cell) : cell :=
  let inv := strip (str (match c with NaN => Txt "" | _ => c end)) in
  Txt (default inv (snd <$> head (filter (λ kv, kv.1 = inv) inventory_labels))).

(** The columns of [CREATE TABLE inventory_data]. *)
Definition created_columns : list string :=
  ["id"; "product_name"; "warehouse_name"; "warehouse_partner_name";
   "inventory_type"; "product_code"; "specification"; "unit"; "quantity";
   "unit_price"; "total_amount"; "last_update_date"; "remark";
   "created_at"; "updated_at"].

(** The table [inventory_data] after the conversion: the created, empty
    table when the workbook has no row, else [df_final] after the remark
    and type clean-up; [None] when a step raises because a label repeats
    (the conversion then returns [False]). *)
Definition inventory_table (df : cframe) : option cframe :=
  if (index_length df =? 0)%nat
  then Some (CFrame 0 ((λ c, (c, [])) <$> created_columns))
  else
    match apply_column "remark" _clean_value (inventory_final df) with
    | Some df_final =>
        match apply_column "inventory_type" display_type df_final with
        | Some df_final =>
            if bool_decide (NoDup (labels df_final)) then Some df_final else None
        | None => None
        end
    | None => None
    end.

End Reconcile.

(** ** The operator's side: ProcureTrack/procure.py *)

Module App.
Import Py Sql Procure.

Definition STATUS_OPTIONS : list string :=
  ["生產中"; "空運運送中"; "海運運送中"; "已抵港"; "已報關"; "貨運中"; "延誤";
   "結案"].

Definition ALLOWED_DEPARTMENTS : list string := ["國貿部暨商品部"; "總經理室"].

Definition allowed_fields : list string :=
  ["arrival_date"; "dispatch_date"; "ship_info"; "goods_status"; "remarks"].

(** [len] of a text: the number of its characters, which are the bytes
    that do not continue a UTF-8 sequence. *)
Definition is_continuation (a : ascii) : bool :=
  let n := nat_of_ascii a in (128 <=? n)%nat && (n <? 192)%nat.

Fixpoint len (s : string) : nat :=
  match s with
  | String a s' => ((if is_continuation a then 0 else 1) + len s')%nat
  | EmptyString => 0%nat
  end.

(** The columns [ensure_db] adds where [PRAGMA table_info] does not list
    them, in the order of its tests.  The names are compared as the code
    compares them, letter for letter. *)
Definition added_columns : list (string * affinity) :=
  [("product_code", TEXT); ("warehouse_qty", INTEGER); ("warehouse", TEXT);
   ("dispatch_date", TEXT); ("item_serial_number", TEXT);
   ("goods_status", TEXT); ("remarks", TEXT)].

Definition add_missing (cols : list string) (t : table) (c : string * affinity)
  : table :=
  if bool_decide (c.1 ∈ cols) then t else add_column c.1 c.2 t.

(** [ensure_db]: the table is created as the import tool creates it, then
    completed. *)
Definition ensure_db (db : option table) : table :=
  let t := create_table_if_not_exists db in
  foldl (add_missing (column_names t)) t added_columns.

(** A request to [/api/update]: whether the session is logged in, its
    department, and the members [id], [field] and [value] of the JSON
    payload ([None] where a member is absent or null).  The page sends the
    id as a number and the value as a text; other JSON values are outside
    the model. *)
Record request := Request {
  logged_in : bool;
  department : option string;
  payload_id : option Z;
  payload_field : option string;
  payload_value : option string
}.

Inductive response :=
  | Redirect | Forbidden | BadRequest | NotFound | ServerError | Success.

#[global] Instance response_eq_dec : EqDecision response.
Proof. solve_decision. Defined.

Definition to_sql (v : option string) : sqlval :=
  match v with
  | Some s => SText s
  | None => SNull
  end.

(** [UPDATE procure_items SET field = ? WHERE id = ?] *)
Definition update_field (t : table) (row_id : Z) (fld : string) (v : sqlval)
  : table :=
  with_rows t ((λ r, if id_is (SInt row_id) r then <[fld := v]> r else r)
                 <$> rows t).

(** [api_update] behind [login_required]: the response and the store
    afterwards.  A statement that names an undeclared column raises, which
    the framework answers with a server error. *)
Definition api_update (req : request) (db : option table)
  : response * option table :=
  if negb (logged_in req) then (Redirect, db)
  else if negb (bool_decide (default "" (department req) ∈ ALLOWED_DEPARTMENTS))
  then (Forbidden, db)
  else
    match payload_id req, payload_field req with
    | Some row_id, Some fld =>
        if String.eqb fld "" then (BadRequest, db)
        else if negb (bool_decide (fld ∈ allowed_fields)) then (BadRequest, db)
        else if String.eqb fld "goods_status" &&
                negb (bool_decide (payload_value req ∈ Some <$> STATUS_OPTIONS))
        then (BadRequest, db)
        else if String.eqb fld "remarks" &&
                match payload_value req with
                | Some s => negb (String.eqb s "") && (300 <? len s)%nat
                | None => false
                end
        then (BadRequest, db)
        else
          let t := ensure_db db in
          if negb (has_column t "id") then (ServerError, Some t)
          else if negb (existsb (id_is (SInt row_id)) (rows t))
          then (NotFound, Some t)
          else if negb (has_column t fld) then (ServerError, Some t)
          else (Success,
                Some (update_field t row_id fld (to_sql (payload_value req))))
    | _, _ => (BadRequest, db)
    end.

End App.

(** * Properties *)

(** ** The procurement upsert *)

Module ProcureFacts.
Import Py Sql Procure.

(** Two rows agree outside a list of columns. *)
Definition agree_outside (cs : list string) (r r' : gmap string sqlval) : Prop :=
  ∀ c, c ∉ cs → r' !! c = r !! c.

(** Every row of [t] is still there in [t'], at the same position, changed
    at most in the columns [cs]. *)
Definition kept_outside (cs : list string) (t t' : table) : Prop :=
  ∀ i r, rows t !! i = Some r →
    ∃ r', rows t' !! i = Some r' ∧ agree_outside cs r r'.

(** Membership in a list that is written out. *)
Ltac in_list := simpl; repeat first [by left | right].

Lemma agree_outside_refl cs r : agree_outside cs r r.
Proof. by intros c _. Qed.

Lemma kept_outside_refl cs t : kept_outside cs t t.
Proof. intros i r Hr. exists r. split; [done | apply agree_outside_refl]. Qed.

Lemma kept_outside_trans cs t1 t2 t3 :
  kept_outside cs t1 t2 → kept_outside cs t2 t3 → kept_outside cs t1 t3.
Proof.
  intros H12 H23 i r Hr.
  destruct (H12 i r Hr) as (r2 & Hr2 & Ha).
  destruct (H23 i r2 Hr2) as (r3 & Hr3 & Hb).
  exists r3. split; [done |].
  intros c Hc. rewrite (Hb c Hc). by apply Ha.
Qed.

Lemma assign_lookup_other (a : list (string * sqlval)) r c :
  c ∉ a.*1 → assign r a !! c = r !! c.
Proof.
  unfold assign. revert r.
  induction a as [| [c' v] a IH]; intros r Hc; [done |].
  simpl. rewrite IH.
  - apply lookup_insert_ne. intros ->. apply Hc. simpl. left.
  - intros Hin. apply Hc. simpl. by right.
Qed.

Lemma stored_labels t (a : list (string * sqlval)) : (stored t a).*1 = a.*1.
Proof.
  unfold stored. rewrite <- list_fmap_compose. by apply list_fmap_ext.
Qed.

Lemma stored_as_text a s : stored_as a (SText s) = SText s.
Proof. by destruct a as [[] |]. Qed.

Lemma update_by_id_kept t v a : kept_outside a.*1 t (update_by_id t v a).
Proof.
  intros i r Hr. unfold update_by_id, with_rows. simpl.
  rewrite list_lookup_fmap, Hr. simpl.
  eexists. split; [done |].
  destruct (id_is v r); [| apply agree_outside_refl].
  intros c Hc. apply assign_lookup_other. by rewrite stored_labels.
Qed.

Lemma update_by_id_other t v a i r :
  rows t !! i = Some r → id_is v r = false →
  rows (update_by_id t v a) !! i = Some r.
Proof.
  intros Hr Hid. unfold update_by_id, with_rows. simpl.
  by rewrite list_lookup_fmap, Hr; simpl; rewrite Hid.
Qed.

Lemma insert_row_kept cs t it : kept_outside cs t (insert_row t it).
Proof.
  intros i r Hr. exists r. split; [| apply agree_outside_refl].
  unfold insert_row, with_rows. simpl.
  rewrite lookup_app_l; [done |]. by eapply lookup_lt_Some.
Qed.

Lemma update_columns_are_authoritative it :
  (update_assignments it).*1 = authoritative_fields.
Proof. reflexivity. Qed.

Section Facts.
Variable to_datetime : string → option (Z * Z * Z).

Abbreviation upsert_row := (upsert_row to_datetime).
Abbreviation upsert_rows := (upsert_rows to_datetime).
Abbreviation read_item := (read_item to_datetime).
Abbreviation convert_procuretrack_data := (convert_procuretrack_data to_datetime).

(** The possible results of one loop iteration. *)
Lemma upsert_row_cases t row :
  let it := read_item row in
  upsert_row t row = (t, Skipped) ∨ upsert_row t row = (t, Errored) ∨
  (∃ v, select_id t (po_number it) (item_serial_number it) = Some v ∧
        upsert_row t row = (update_by_id t v (update_assignments it), Updated)) ∨
  (select_id t (po_number it) (item_serial_number it) = None ∧
   insert_ok t it = true ∧
   upsert_row t row = (insert_row t it, Inserted)).
Proof.
  intros it. unfold upsert_row. fold it.
  destruct (_ || _); [by left |].
  destruct (negb _); [by right; left |].
  destruct (select_id _ _ _) as [v |] eqn:Hsel.
  - destruct (has_columns _ _ && bindable it); [| by right; left].
    right; right; left. by exists v.
  - destruct (insert_ok t it) eqn:Hok; [| by right; left].
    by right; right; right.
Qed.

Lemma upsert_row_kept t row :
  kept_outside authoritative_fields t (upsert_row t row).1.
Proof.
  destruct (upsert_row_cases t row) as [-> | [-> | [(v & _ & ->) | (_ & _ & ->)]]];
    simpl; try apply kept_outside_refl.
  - rewrite <- (update_columns_are_authoritative (read_item row)).
    apply update_by_id_kept.
  - apply insert_row_kept.
Qed.

Lemma upsert_row_columns t row :
  columns (upsert_row t row).1 = columns t ∧
  constraints (upsert_row t row).1 = constraints t.
Proof.
  by destruct (upsert_row_cases t row) as [-> | [-> | [(v & _ & ->) | (_ & _ & ->)]]].
Qed.

Lemma upsert_rows_snoc t rs row :
  upsert_rows t (rs ++ [row]) =
  (let '(t1, c) := upsert_rows t rs in
   let '(t', o) := upsert_row t1 row in (t', count o c)).
Proof.
  unfold Procure.upsert_rows. rewrite foldl_app. simpl.
  by destruct (foldl _ _ rs).
Qed.

(** The table after the loop, as a fold of the row step alone. *)
Lemma upsert_rows_table t rs :
  (upsert_rows t rs).1 = foldl (λ t row, (upsert_row t row).1) t rs.
Proof.
  induction rs as [| row rs IH] using rev_ind; [done |].
  rewrite upsert_rows_snoc, foldl_app. simpl. rewrite <- IH.
  destruct (upsert_rows t rs) as [t1 c]. simpl.
  by destruct (upsert_row t1 row).
Qed.

Lemma upsert_rows_kept t rs :
  kept_outside authoritative_fields t (upsert_rows t rs).1.
Proof.
  rewrite upsert_rows_table. revert t.
  induction rs as [| row rs IH]; intros t; simpl; [apply kept_outside_refl |].
  eapply kept_outside_trans; [apply upsert_row_kept | apply IH].
Qed.

Lemma upsert_rows_columns t rs :
  columns (upsert_rows t rs).1 = columns t ∧
  constraints (upsert_rows t rs).1 = constraints t.
Proof.
  rewrite upsert_rows_table. revert t.
  induction rs as [| row rs IH]; intros t; simpl; [done |].
  destruct (IH (upsert_row t row).1) as [-> ->]. apply upsert_row_columns.
Qed.

(** *** Schema evolution *)

Lemma add_missing_columns cols l t :
  columns (foldl (add_if_missing cols) t l) =
    columns t ++ ((λ c, (c, TEXT)) <$> filter (λ c, c ∉ cols) l) ∧
  constraints (foldl (add_if_missing cols) t l) = constraints t ∧
  rows (foldl (add_if_missing cols) t l) = rows t.
Proof.
  revert t. induction l as [| c l IH]; intros t; simpl.
  - by rewrite app_nil_r.
  - destruct (IH (add_if_missing cols t c)) as (-> & -> & ->).
    unfold add_if_missing. rewrite filter_cons.
    case_bool_decide; destruct (decide _); try done; simpl.
    by rewrite <- app_assoc.
Qed.

Lemma ensure_columns_rows t : rows (ensure_columns t) = rows t.
Proof. apply add_missing_columns. Qed.

Lemma ensure_columns_id t :
  evolved_columns ⊆ column_names t → ensure_columns t = t.
Proof.
  intros Hsub. unfold ensure_columns.
  assert (Hgen : ∀ l, l ⊆ column_names t →
            foldl (add_if_missing (column_names t)) t l = t).
  { induction l as [| c l IH]; intros Hl; [done |]. simpl.
    unfold add_if_missing at 2. rewrite bool_decide_eq_true_2.
    - apply IH. intros x Hx. apply Hl. by right.
    - apply Hl. by left. }
  by apply Hgen.
Qed.


(** *** Keys, and when a row is inserted *)

Lemma assign_lookup_in (a : list (string * sqlval)) r c v :
  NoDup a.*1 → (c, v) ∈ a → assign r a !! c = Some v.
Proof.
  unfold assign. revert r.
  induction a as [| [c' v'] a IH]; intros r Hnd Hin.
  - by apply elem_of_nil in Hin.
  - simpl in *. apply NoDup_cons in Hnd as [Hc' Hnd].
    apply elem_of_cons in Hin as [[= -> ->] | Hin].
    + fold (assign (<[c':=v']> r) a).
      rewrite assign_lookup_other by done. apply lookup_insert_eq.
    + by apply IH.
Qed.

Lemma insert_columns_nodup it : NoDup (insert_assignments it).*1.
Proof. apply (bool_decide_unpack _). by vm_compute. Qed.

Lemma stored_lookup t r (a : list (string * sqlval)) c v :
  NoDup a.*1 → (c, v) ∈ a →
  assign r (stored t a) !! c = Some (stored_as (column_affinity t c) v).
Proof.
  intros Hnd Hin. apply assign_lookup_in; [by rewrite stored_labels |].
  unfold stored. apply list_elem_of_fmap. by exists (c, v).
Qed.

Lemma inserted_row_lookup t r it c v :
  (c, v) ∈ insert_assignments it →
  assign r (stored t (insert_assignments it)) !! c =
    Some (stored_as (column_affinity t c) v).
Proof. apply stored_lookup, insert_columns_nodup. Qed.

Definition key_of (r : gmap string sqlval) : sqlval * sqlval :=
  (field r "po_number", field r "item_serial_number").

Definition keys (t : table) : list (sqlval * sqlval) := key_of <$> rows t.

Lemma key_matches_key_of po ser r :
  key_matches po ser r = true ↔ key_of r = (SText po, SText ser).
Proof.
  unfold key_matches, key_of.
  rewrite andb_true_iff, !bool_decide_eq_true. split.
  - by intros [-> ->].
  - by intros [= -> ->].
Qed.

Lemma select_id_None t po ser :
  select_id t po ser = None ↔ (SText po, SText ser) ∉ keys t.
Proof.
  unfold select_id, keys. rewrite fmap_None, head_None. split.
  - intros Hf Hin. apply list_elem_of_fmap in Hin as (r & Hk & Hr).
    assert (r ∈ filter (λ r, key_matches po ser r = true) (rows t)) as Hin.
    { apply list_elem_of_filter. split; [| done]. by apply key_matches_key_of. }
    rewrite Hf in Hin. by apply elem_of_nil in Hin.
  - intros Hnot. destruct (filter _ _) as [| r l] eqn:Hf; [done |].
    exfalso. apply Hnot.
    assert (r ∈ filter (λ r, key_matches po ser r = true) (rows t)) as Hin
      by (rewrite Hf; left).
    apply list_elem_of_filter in Hin as [Hk Hr].
    apply list_elem_of_fmap. exists r. split; [| done].
    symmetry. by apply key_matches_key_of.
Qed.

Lemma violates_keys po ser rs k :
  violates po ser rs k = true ↔
  match k with
  | UniquePo => SText po ∈ (key_of <$> rs).*1
  | UniquePoSerial => (SText po, SText ser) ∈ key_of <$> rs
  end.
Proof.
  destruct k; simpl; rewrite existsb_exists.
  - split.
    + intros (r & Hr & Hb). apply bool_decide_eq_true in Hb.
      apply list_elem_of_fmap. exists (key_of r). split; [by rewrite <- Hb |].
      apply list_elem_of_fmap. exists r. split; [done |].
      by apply list_elem_of_In.
    + intros Hin. apply list_elem_of_fmap in Hin as ([a b] & Ha & Hin).
      apply list_elem_of_fmap in Hin as (r & Hk & Hr).
      exists r. split; [by apply list_elem_of_In |].
      apply bool_decide_eq_true. simpl in Ha.
      unfold key_of in Hk. by inversion Hk; subst.
  - split.
    + intros (r & Hr & Hb). apply key_matches_key_of in Hb.
      apply list_elem_of_fmap. exists r. split; [done |].
      by apply list_elem_of_In.
    + intros Hin. apply list_elem_of_fmap in Hin as (r & Hk & Hr).
      exists r. split; [by apply list_elem_of_In |].
      by apply key_matches_key_of.
Qed.

(** [t'] has the constraints of [t], no column beyond those of [t] except
    possibly [remarks], and the keys of [t] followed by further ones. *)
Definition key_stable (t t' : table) : Prop :=
  constraints t' = constraints t ∧
  (∀ c, c ∈ column_names t' → c ∈ column_names t ∨ c = "remarks") ∧
  ∃ rest, keys t' = keys t ++ rest.

Lemma key_stable_refl t : key_stable t t.
Proof.
  split; [done |]. split; [by left |]. exists []. by rewrite app_nil_r.
Qed.

Lemma key_stable_trans t1 t2 t3 :
  key_stable t1 t2 → key_stable t2 t3 → key_stable t1 t3.
Proof.
  intros (Hc1 & Hn1 & k1 & Hk1) (Hc2 & Hn2 & k2 & Hk2).
  split; [congruence |]. split.
  - intros c Hc. destruct (Hn2 c Hc) as [H2 | ->]; [by apply Hn1 | by right].
  - exists (k1 ++ k2). by rewrite Hk2, Hk1, app_assoc.
Qed.


(** Whether the loop body inserts a record for [row] into [t]. *)
Definition would_insert (t : table) (row : gmap string cell) : bool :=
  let it := read_item row in
  negb (String.eqb (po_number it) "" || String.eqb (item_serial_number it) "") &&
  has_columns t ["id"; "po_number"; "item_serial_number"] &&
  bool_decide (select_id t (po_number it) (item_serial_number it) = None) &&
  insert_ok t it.

Lemma upsert_row_inserts t row :
  would_insert t row = true →
  upsert_row t row = (insert_row t (read_item row), Inserted).
Proof.
  unfold would_insert, Procure.upsert_row.
  rewrite !andb_true_iff, negb_true_iff, bool_decide_eq_true.
  intros [[[-> ->] ->] ->]. done.
Qed.

Lemma upsert_row_quiet t row :
  would_insert t row = false → rows (upsert_row t row).1 = rows t ∨
  ∃ v, upsert_row t row =
         (update_by_id t v (update_assignments (read_item row)), Updated).
Proof.
  unfold would_insert, Procure.upsert_row. intros Hw.
  destruct (String.eqb _ _ || String.eqb _ _); [by left |].
  destruct (has_columns t ["id"; "po_number"; "item_serial_number"]);
    [| by left].
  simpl in Hw. simpl negb. cbv iota.
  destruct (select_id t _ _) as [v |] eqn:Hsel.
  - destruct (has_columns t _ && bindable _); [right; by exists v | by left].
  - rewrite bool_decide_eq_true_2 in Hw by done. simpl in Hw.
    rewrite Hw. by left.
Qed.

Lemma upsert_row_quiet_length t row :
  would_insert t row = false →
  length (rows (upsert_row t row).1) = length (rows t).
Proof.
  intros Hw. destruct (upsert_row_quiet t row Hw) as [-> | [v ->]]; [done |].
  simpl. apply length_fmap.
Qed.

Lemma has_columns_spec t cs :
  has_columns t cs = true ↔ ∀ c, c ∈ cs → c ∈ column_names t.
Proof.
  unfold has_columns, has_column. rewrite forallb_forall. split.
  - intros H c Hc. apply list_elem_of_In in Hc.
    specialize (H c Hc). by apply bool_decide_eq_true in H.
  - intros H c Hc. apply bool_decide_eq_true_2, H. by apply list_elem_of_In.
Qed.

Lemma has_columns_stable t t' cs :
  key_stable t t' → "remarks" ∉ cs →
  has_columns t' cs = true → has_columns t cs = true.
Proof.
  intros (_ & Hn & _) Hrem. rewrite !has_columns_spec. intros H c Hc.
  destruct (Hn c (H c Hc)) as [? | ->]; [done | by destruct Hrem].
Qed.

Lemma would_insert_stable t t' row :
  key_stable t t' → would_insert t row = false → would_insert t' row = false.
Proof.
  intros Hst Hw. destruct (would_insert t' row) eqn:Hw'; [| done].
  rewrite <- Hw. symmetry. revert Hw'. clear Hw. unfold would_insert, insert_ok.
  rewrite !andb_true_iff, !negb_true_iff, !bool_decide_eq_true.
  intros [[[Hkey Hcols] Hsel] [[Hic Hv] Hbind]].
  destruct Hst as (Hcons & Hn & rest & Hk).
  assert (Hst : key_stable t t') by (split; [done |]; split; [done | by exists rest]).
  repeat split; try done.
  - eapply has_columns_stable; [done | | done].
    apply (bool_decide_unpack _). by vm_compute.
  - apply select_id_None. apply select_id_None in Hsel.
    intros Hin. apply Hsel. rewrite Hk. apply elem_of_app. by left.
  - eapply has_columns_stable; [done | | done].
    apply (bool_decide_unpack _). by vm_compute.
  - rewrite <- Hcons.
    destruct (existsb (violates _ _ (rows t)) (constraints t')) eqn:Hex; [| done].
    apply existsb_exists in Hex as (k & Hkin & Hviol).
    rewrite <- Hv. symmetry.
    apply existsb_exists. exists k. split; [done |].
    apply violates_keys. apply violates_keys in Hviol.
    fold (keys t) in Hviol. fold (keys t'). rewrite Hk.
    destruct k.
    + rewrite fmap_app. apply elem_of_app. by left.
    + apply elem_of_app. by left.
Qed.

Lemma update_by_id_keys t v it :
  keys (update_by_id t v (update_assignments it)) = keys t.
Proof.
  unfold keys, update_by_id, with_rows. cbn [rows].
  rewrite <- list_fmap_compose. apply list_fmap_ext. intros i r _.
  unfold compose. destruct (id_is v r); [| done].
  unfold key_of, field. by rewrite !assign_lookup_other
    by (rewrite stored_labels; apply (bool_decide_unpack _); by vm_compute).
Qed.

Lemma inserted_row_key t r it :
  key_of (assign r (stored t (insert_assignments it))) =
  (SText (po_number it), SText (item_serial_number it)).
Proof.
  unfold key_of, field.
  rewrite (inserted_row_lookup t r it "po_number" (SText (po_number it)))
    by in_list.
  rewrite (inserted_row_lookup t r it "item_serial_number"
             (SText (item_serial_number it))) by in_list.
  by rewrite !stored_as_text.
Qed.

Lemma upsert_row_key_stable t row : key_stable t (upsert_row t row).1.
Proof.
  destruct (upsert_row_cases t row) as [-> | [-> | [(v & _ & ->) | (_ & _ & ->)]]];
    simpl; try apply key_stable_refl.
  - split; [done |]. split; [by left |].
    exists []. by rewrite update_by_id_keys, app_nil_r.
  - split; [done |]. split; [by left |].
    eexists. unfold keys, insert_row, with_rows. simpl. by rewrite fmap_app.
Qed.

Lemma upsert_row_settles t row : would_insert (upsert_row t row).1 row = false.
Proof.
  destruct (would_insert t row) eqn:Hw.
  - rewrite (upsert_row_inserts _ _ Hw). cbn [fst].
    unfold would_insert.
    rewrite (bool_decide_eq_false_2 (select_id _ _ _ = None)).
    + by rewrite andb_false_r.
    + rewrite select_id_None. intros Hnot. apply Hnot.
      unfold keys, insert_row, with_rows. cbn [rows].
      rewrite fmap_app. apply elem_of_app. right.
      rewrite list_fmap_singleton, inserted_row_key. by left.
  - eapply would_insert_stable; [apply upsert_row_key_stable | done].
Qed.

Lemma upsert_rows_key_stable t rs : key_stable t (upsert_rows t rs).1.
Proof.
  rewrite upsert_rows_table. revert t.
  induction rs as [| row rs IH]; intros t; simpl; [apply key_stable_refl |].
  eapply key_stable_trans; [apply upsert_row_key_stable | apply IH].
Qed.

(** After the loop, no row of the import would be inserted again. *)
Lemma upsert_rows_settle t rs row :
  row ∈ rs → would_insert (upsert_rows t rs).1 row = false.
Proof.
  rewrite upsert_rows_table. revert t.
  induction rs as [| r rs IH]; intros t Hin; [by apply elem_of_nil in Hin |].
  simpl. apply elem_of_cons in Hin as [-> | Hin]; [| by apply IH].
  eapply would_insert_stable; [| apply upsert_row_settles].
  rewrite <- upsert_rows_table. apply upsert_rows_key_stable.
Qed.

(** A loop over rows none of which would be inserted adds no record. *)
Lemma upsert_rows_quiet t rs :
  (∀ row, row ∈ rs → would_insert t row = false) →
  length (rows (upsert_rows t rs).1) = length (rows t).
Proof.
  rewrite upsert_rows_table. revert t.
  induction rs as [| r rs IH]; intros t Hall; [done |].
  simpl. rewrite IH.
  - apply upsert_row_quiet_length, Hall. by left.
  - intros row Hrow. eapply would_insert_stable; [apply upsert_row_key_stable |].
    apply Hall. by right.
Qed.


Lemma operator_not_authoritative c :
  c ∈ operator_fields → c ∉ authoritative_fields.
Proof.
  assert (Forall (λ c, c ∉ authoritative_fields) operator_fields) as H
    by (apply (bool_decide_unpack _); by vm_compute).
  rewrite Forall_forall in H. apply H.
Qed.

Lemma ensure_columns_has t c :
  c ∈ evolved_columns → c ∈ column_names (ensure_columns t).
Proof.
  intros Hc. unfold column_names, ensure_columns.
  destruct (add_missing_columns (column_names t) evolved_columns t) as (-> & _ & _).
  rewrite fmap_app. apply elem_of_app.
  destruct (decide (c ∈ column_names t)) as [Hin | Hnot]; [by left | right].
  rewrite <- list_fmap_compose. apply list_elem_of_fmap. exists c.
  split; [done |]. by apply list_elem_of_filter.
Qed.

(** What the operator's side (ProcureTrack/procure.py) does to the table
    between two imports: [ensure_db] may add the [remarks] column, and
    [update_field] writes operator fields only. *)
Definition operator_edit (t t' : table) : Prop :=
  constraints t' = constraints t ∧
  (columns t' = columns t ∨ columns t' = columns t ++ [("remarks", TEXT)]) ∧
  Forall2 (λ r r', ∀ c, c ∉ operator_fields → field r' c = field r c)
          (rows t) (rows t').

Lemma operator_edit_columns t t' c :
  operator_edit t t' → c ∈ column_names t → c ∈ column_names t'.
Proof.
  intros (_ & [Hc | Hc] & _); unfold column_names; rewrite Hc; [done |].
  rewrite fmap_app. intros H. apply elem_of_app. by left.
Qed.

Lemma operator_edit_key_stable t t' : operator_edit t t' → key_stable t t'.
Proof.
  intros (Hcons & Hcols & Hrows). split; [done |]. split.
  - intros c. unfold column_names.
    destruct Hcols as [-> | ->]; [by left |].
    rewrite fmap_app. intros [H | H]%elem_of_app; [by left | right].
    simpl in H. by apply list_elem_of_singleton in H.
  - exists []. rewrite app_nil_r. unfold keys.
    induction Hrows as [| r r' l l' Hr _ IH]; [done |].
    rewrite !fmap_cons, IH. f_equal. unfold key_of.
    rewrite !Hr; [done | |]; apply (bool_decide_unpack _); by vm_compute.
Qed.

(** *** A key that is not in the table *)




(** *** The claims *)

(** C1.  When the key of an import row is already in the table, the
    [UPDATE] statement names authoritative columns only, so no operator
    field is in it; the step changes no column of any record other than
    the authoritative ones, touches no record with another id and adds
    none; and after a whole run of [convert_procuretrack_data], on any
    workbook, every operator field stored before the run holds the value
    it held. *)
Theorem update_leaves_operator_fields t row v src i r c :
  select_id t (po_number (read_item row)) (item_serial_number (read_item row))
    = Some v →
  rows t !! i = Some r →
  c ∈ operator_fields →
  (update_assignments (read_item row)).*1 = authoritative_fields ∧
  (c ∉ (update_assignments (read_item row)).*1) ∧
  length (rows (upsert_row t row).1) = length (rows t) ∧
  (∃ r', rows (upsert_row t row).1 !! i = Some r' ∧
         r' !! c = r !! c ∧
         (∀ c', c' ∉ authoritative_fields → r' !! c' = r !! c') ∧
         (id_is v r = false → r' = r)) ∧
  (∃ t' r', (convert_procuretrack_data src (Some t)).1.2 = Some t' ∧
            rows t' !! i = Some r' ∧ r' !! c = r !! c).
Proof.
  intros Hsel Hr Hc.
  assert (Hca : c ∉ authoritative_fields) by by apply operator_not_authoritative.
  split; [done |]. split; [done |]. split; [| split].
  - destruct (upsert_row_cases t row)
      as [-> | [-> | [(v' & _ & ->) | (Hnone & _)]]]; try done.
    + simpl. apply length_fmap.
    + by rewrite Hnone in Hsel.
  - destruct (upsert_row_cases t row)
      as [-> | [-> | [(v' & Hv' & ->) | (Hnone & _)]]]; simpl.
    + by exists r.
    + by exists r.
    + rewrite Hsel in Hv'. injection Hv' as <-.
      destruct (update_by_id_kept t v (update_assignments (read_item row)) i r Hr)
        as (r' & Hr' & Hagree).
      exists r'. split; [done |]. split; [by apply Hagree |].
      split; [done |]. intros Hid.
      rewrite (update_by_id_other _ _ _ _ _ Hr Hid) in Hr'. congruence.
    + by rewrite Hnone in Hsel.
  - unfold Procure.convert_procuretrack_data.
    destruct src as [df |]; [| by exists t, r].
    destruct (negb _); [by exists t, r |]. simpl.
    destruct (Procure.upsert_rows _ _ _) as [t' tl] eqn:Hrun. simpl.
    assert (Hkept : kept_outside authoritative_fields (ensure_columns t) t').
    { replace t' with (upsert_rows (ensure_columns t) (df_rows df)).1
        by by rewrite Hrun.
      apply upsert_rows_kept. }
    destruct (Hkept i r) as (r' & Hr' & Hagree).
    { by rewrite ensure_columns_rows. }
    exists t', r'. split; [done |]. split; [done |]. by apply Hagree.
Qed.



(** C3.  Let a run of [convert_procuretrack_data] leave the table [t1],
    and let the operator's side then change operator fields (and possibly
    add the [remarks] column), giving [t1'].  A second run on the same
    workbook adds no record, and every operator field holds after it the
    value it held before it. *)
Theorem second_run_is_idempotent src db t1 t1' :
  (convert_procuretrack_data src db).1.2 = Some t1 →
  operator_edit t1 t1' →
  ∃ t2, (convert_procuretrack_data src (Some t1')).1.2 = Some t2 ∧
        length (rows t2) = length (rows t1') ∧
        ∀ i r c, rows t1' !! i = Some r → c ∈ operator_fields →
          ∃ r2, rows t2 !! i = Some r2 ∧ r2 !! c = r !! c.
Proof.
  unfold Procure.convert_procuretrack_data. intros Hfirst Hedit.
  destruct src as [df |]; [| exists t1'; split; [done |]; split; [done |];
                              intros i r c Hr _; by exists r].
  destruct (negb _); [exists t1'; split; [done |]; split; [done |];
                      intros i r c Hr _; by exists r |].
  simpl in *.
  set (t0 := ensure_columns (create_table_if_not_exists db)) in *.
  destruct (Procure.upsert_rows _ t0 _) as [t1a c1] eqn:Hrun1.
  simpl in Hfirst. injection Hfirst as ->.
  assert (Ht1 : t1 = (upsert_rows t0 (df_rows df)).1) by by rewrite Hrun1.
  assert (Hid : ensure_columns t1' = t1').
  { apply ensure_columns_id. intros c Hc.
    apply (operator_edit_columns t1); [done |].
    unfold column_names. rewrite Ht1.
    destruct (upsert_rows_columns t0 (df_rows df)) as [-> _].
    by apply ensure_columns_has. }
  rewrite Hid.
  destruct (Procure.upsert_rows _ t1' _) as [t2 c2] eqn:Hrun2.
  assert (Ht2 : t2 = (upsert_rows t1' (df_rows df)).1) by by rewrite Hrun2.
  exists t2. split; [done |]. split.
  - rewrite Ht2. apply upsert_rows_quiet. intros row Hrow.
    eapply would_insert_stable; [by apply operator_edit_key_stable |].
    rewrite Ht1. by apply upsert_rows_settle.
  - intros i r c Hr Hc.
    destruct (upsert_rows_kept t1' (df_rows df) i r Hr) as (r2 & Hr2 & Hagree).
    exists r2. rewrite Ht2. split; [done |].
    by apply Hagree, operator_not_authoritative.
Qed.

(** C8 (amended).  Before any import row is processed, the table is
    created if it is absent and then extended by exactly those of
    [item_serial_number], [goods_status], [product_code], [warehouse_qty],
    [warehouse] and [dispatch_date] that it lacks, each as a text column
    appended after the existing ones; existing columns keep their names,
    types and order, the rows are untouched, and no other column is
    added. *)
Theorem schema_evolution_adds_six_columns df db :
  "序號" ∈ df_columns df →
  let t0 := create_table_if_not_exists db in
  let added := filter (λ c, c ∉ column_names t0) evolved_columns in
  ∃ t' c, convert_procuretrack_data (Some df) db = (true, Some t', Some c) ∧
    (t', c) = upsert_rows (ensure_columns t0) (df_rows df) ∧
    rows (ensure_columns t0) = rows t0 ∧
    columns (ensure_columns t0) = columns t0 ++ ((λ c, (c, TEXT)) <$> added) ∧
    columns t' = columns (ensure_columns t0) ∧
    (∀ c, c ∈ evolved_columns → c ∈ column_names t') ∧
    (∀ c, c ∈ column_names t' → c ∈ column_names t0 ∨ c ∈ evolved_columns).
Proof.
  intros Hcol t0 added. unfold Procure.convert_procuretrack_data.
  rewrite bool_decide_eq_true_2 by done. simpl. fold t0.
  destruct (Procure.upsert_rows _ _ _) as [t' c] eqn:Hrun.
  exists t', c. split; [done |]. split; [done |].
  assert (Hc' : columns t' = columns (ensure_columns t0)).
  { replace t' with (upsert_rows (ensure_columns t0) (df_rows df)).1
      by by rewrite Hrun.
    apply upsert_rows_columns. }
  destruct (add_missing_columns (column_names t0) evolved_columns t0)
    as (Hcols & _ & Hrows).
  fold (ensure_columns t0) in Hcols, Hrows.
  split; [done |]. split; [done |]. split; [done |]. split.
  - intros x Hx. unfold column_names. rewrite Hc'. by apply ensure_columns_has.
  - intros x. unfold column_names. rewrite Hc', Hcols, fmap_app.
    intros [Hx | Hx]%elem_of_app; [by left | right].
    rewrite <- list_fmap_compose in Hx.
    apply list_elem_of_fmap in Hx as (y & -> & Hy).
    by apply list_elem_of_filter in Hy as [_ Hy].
Qed.

(** C10.  A workbook without the column 序號 makes
    [convert_procuretrack_data] return [False] with the store exactly as
    it was (absent if it was absent) and without any tally. *)
Theorem missing_serial_column_aborts df db :
  "序號" ∉ df_columns df →
  convert_procuretrack_data (Some df) db = (false, db, None).
Proof.
  intros Hcol. unfold Procure.convert_procuretrack_data.
  by rewrite bool_decide_eq_false_2.
Qed.

End Facts.

(** *** Concrete runs *)

(** A parser instance that recognises no text; the rows below carry no
    delivery date, so it is never consulted. *)
Definition no_date : string → option (Z * Z * Z) := λ _, None.

(** [UPDATE procure_items SET field = ? WHERE id = ?] of
    ProcureTrack/procure.py [api_update]. *)
Definition set_field (t : table) (row_id : sqlval) (fld : string) (v : sqlval) : table :=
  with_rows t ((λ r, if id_is row_id r then <[fld := v]> r else r) <$> rows t).

Lemma set_field_operator_edit t row_id fld v :
  fld ∈ operator_fields → operator_edit t (set_field t row_id fld v).
Proof.
  intros Hf. split; [done |]. split; [by left |].
  unfold set_field, with_rows. cbn [rows].
  apply Forall2_fmap_r, Forall_Forall2_diag, Forall_forall.
  intros r _ c Hc. destruct (id_is row_id r); [| done].
  unfold field. rewrite lookup_insert_ne; [done |]. by intros ->.
Qed.

(** The table of ProcureTrack/app.py [ensure_db], holding one order. *)
Definition legacy_table : table :=
  Table [("id", INTEGER); ("po_number", TEXT); ("product_name", TEXT);
         ("quantity", INTEGER); ("delivery_date", TEXT);
         ("arrival_date", TEXT); ("ship_info", TEXT); ("status", TEXT)]
        [UniquePo]
        [{["id" := SInt 1; "po_number" := SText "PO1";
           "product_name" := SText "pump"; "quantity" := SInt 10]}].

Definition row_po1 (qty : Z) (status : string) : gmap string cell :=
  {["單據編號" := Txt "PO1"; "序號" := Int 1; "交易數量" := Int qty;
    "狀態" := Txt status]}.

Definition workbook (rs : list (gmap string cell)) : frame :=
  Frame ["單據編號"; "序號"; "交易數量"; "狀態"] rs.

(** The store after a first import of PO1/1 into an empty store, and
    after the operator wrote a remark on the record. *)
Definition after_first_import : table :=
  (upsert_rows no_date (ensure_columns (create_table_if_not_exists None))
     [row_po1 10 "生產中"]).1.

Definition with_remark : table :=
  set_field after_first_import (SInt 1) "remarks" (SText "call vendor").

Ltac by_computation := apply (bool_decide_unpack _); vm_compute; exact I.

Lemma lookup_default_lt {A} (l : list A) (i : nat) (d : A) :
  (i < length l)%nat → l !! i = Some (default d (l !! i)).
Proof. intros [x Hx]%lookup_lt_is_Some. by rewrite Hx. Qed.

(** C1 at work: PO1/1 is imported again with a changed quantity and status
    after the operator wrote a remark; the remark is still there. *)
Lemma update_leaves_operator_fields_on_po1 :
  ∃ t' r',
    (convert_procuretrack_data no_date (Some (workbook [row_po1 12 "已報關"]))
       (Some with_remark)).1.2 = Some t' ∧
    rows t' !! 0%nat = Some r' ∧
    r' !! "remarks" = Some (SText "call vendor").
Proof.
  destruct (update_leaves_operator_fields no_date with_remark
              (row_po1 12 "已報關") (SInt 1)
              (Some (workbook [row_po1 12 "已報關"])) 0%nat
              (default ∅ (rows with_remark !! 0%nat)) "remarks")
    as (_ & _ & _ & _ & t' & r' & Ht' & Hr' & Hc);
    [by vm_compute | apply lookup_default_lt; vm_compute; lia
    | by_computation |].
  exists t', r'. split; [exact Ht' |]. split; [exact Hr' |].
  rewrite Hc. by vm_compute.
Defined.

Definition row_po2 : gmap string cell :=
  {["單據編號" := Txt "PO2"; "序號" := Int 1; "交易數量" := Int 10;
    "狀態" := Txt "生產中"]}.




(** C3 at work: first import into an empty store, a remark by the
    operator, second import of the same workbook. *)
Lemma second_run_is_idempotent_on_po1 :
  ∃ t2,
    (convert_procuretrack_data no_date (Some (workbook [row_po1 10 "生產中"]))
       (Some with_remark)).1.2 = Some t2 ∧
    length (rows t2) = 1%nat ∧
    ∀ r, rows with_remark !! 0%nat = Some r →
      ∃ r2, rows t2 !! 0%nat = Some r2 ∧ r2 !! "remarks" = r !! "remarks".
Proof.
  destruct (second_run_is_idempotent no_date
              (Some (workbook [row_po1 10 "生產中"])) None
              after_first_import with_remark)
    as (t2 & Ht2 & Hlen & Hop);
    [by vm_compute | apply set_field_operator_edit; by_computation |].
  exists t2. split; [exact Ht2 |]. split; [exact Hlen |].
  intros r Hr. apply (Hop 0%nat r "remarks" Hr). by_computation.
Defined.

(** C8 at work on the table of ProcureTrack/app.py. *)
Lemma schema_evolution_on_legacy_table :
  ∃ t' c,
    convert_procuretrack_data no_date (Some (workbook [])) (Some legacy_table)
      = (true, Some t', Some c) ∧
    columns t' = columns legacy_table ++
      [("item_serial_number", TEXT); ("goods_status", TEXT);
       ("product_code", TEXT); ("warehouse_qty", TEXT); ("warehouse", TEXT);
       ("dispatch_date", TEXT)].
Proof.
  destruct (schema_evolution_adds_six_columns no_date (workbook [])
              (Some legacy_table))
    as (t' & c & Hrun & _ & _ & Hcols & Hsame & _); [by_computation |].
  exists t', c. split; [exact Hrun |]. rewrite Hsame, Hcols. by vm_compute.
Defined.

(** C8 as stated fails: [remarks] is one of the operator columns, the
    table of ProcureTrack/app.py lacks it, and so does the table the tool
    itself creates; after the schema check both still lack it. *)
Lemma remarks_column_is_not_added :
  bool_decide ("remarks" ∈ operator_fields) = true ∧
  has_column legacy_table "remarks" = false ∧
  has_column (ensure_columns legacy_table) "remarks" = false ∧
  has_column (ensure_columns (create_table_if_not_exists None)) "remarks" = false ∧
  ∃ t', convert_procuretrack_data no_date (Some (workbook [])) (Some legacy_table)
          = (true, Some t', Some (Tally 0 0 0 0)) ∧
        has_column t' "remarks" = false.
Proof. repeat split; try by vm_compute. eexists. split; by vm_compute. Qed.

(** C10 at work: a workbook with order numbers but no 序號 column, and no
    store yet. *)
Lemma missing_serial_column_aborts_without_store :
  convert_procuretrack_data no_date
    (Some (Frame ["單據編號"; "交易數量"] [{["單據編號" := Txt "PO1"]}])) None
  = (false, None, None).
Proof. apply missing_serial_column_aborts. by_computation. Defined.

End ProcureFacts.

(** ** Stable sorting and [drop_duplicates] *)

Module FramesFacts.
Import Py Frames.

Section SortFacts.
Context {A : Type} (le : A → A → bool).
Hypothesis le_total : ∀ x y, le x y = true ∨ le y x = true.
Hypothesis le_trans : ∀ x y z, le x y = true → le y z = true → le x z = true.

Fixpoint sorted (l : list A) : Prop :=
  match l with
  | [] => True
  | x :: l' => Forall (λ y, le x y = true) l' ∧ sorted l'
  end.

Lemma insert_sorted_Forall (P : A → Prop) x l :
  P x → Forall P l → Forall P (insert_sorted le x l).
Proof.
  intros Hx Hl. induction Hl as [| y l Hy Hl IH]; simpl.
  - by constructor.
  - destruct (le x y); repeat constructor; done.
Qed.

Lemma insert_sorted_below x l :
  Forall (λ y, le x y = true) l → insert_sorted le x l = x :: l.
Proof. intros Hl. destruct Hl as [| y l Hy _]; simpl; [done | by rewrite Hy]. Qed.

Lemma insert_sorted_sorted x l : sorted l → sorted (insert_sorted le x l).
Proof.
  induction l as [| y l IH]; simpl; [done |]. intros [Hy Hl].
  destruct (le x y) eqn:Hxy; simpl.
  - split; [| done]. constructor; [done |].
    eapply Forall_impl; [exact Hy |]. intros z Hz. by eapply le_trans.
  - split; [| by apply IH].
    apply insert_sorted_Forall; [| done].
    destruct (le_total x y) as [H | H]; [congruence | done].
Qed.

Lemma stable_sort_sorted l : sorted (stable_sort le l).
Proof.
  induction l as [| x l IH]; simpl; [done |]. by apply insert_sorted_sorted.
Qed.

Lemma filter_insert_sorted (P : A → Prop) `{∀ x, Decision (P x)} x l :
  sorted l →
  filter P (insert_sorted le x l) =
  if decide (P x) then insert_sorted le x (filter P l) else filter P l.
Proof.
  induction l as [| y l IH]; simpl.
  - intros _. rewrite filter_cons, filter_nil. by destruct (decide (P x)).
  - intros [Hy Hl]. destruct (le x y) eqn:Hxy.
    + rewrite (filter_cons _ x). destruct (decide (P x)) as [Hx | Hx]; [| done].
      rewrite (filter_cons _ y). destruct (decide (P y)) as [HPy | HPy].
      * simpl. by rewrite Hxy.
      * rewrite insert_sorted_below; [done |].
        apply Forall_forall. intros z [_ Hz]%list_elem_of_filter.
        rewrite Forall_forall in Hy. eapply le_trans; [done | by apply Hy].
    + rewrite !(filter_cons _ y), IH by done.
      destruct (decide (P y)), (decide (P x)); simpl; try done.
      by rewrite Hxy.
Qed.

(** Filtering commutes with the stable sort. *)
Lemma filter_stable_sort (P : A → Prop) `{∀ x, Decision (P x)} l :
  filter P (stable_sort le l) = stable_sort le (filter P l).
Proof.
  induction l as [| x l IH]; simpl; [done |].
  rewrite filter_insert_sorted by apply stable_sort_sorted.
  rewrite filter_cons, IH. by destruct (decide (P x)).
Qed.

End SortFacts.

Section DropFacts.
Context {A K : Type} `{EqDecision K} (key : A → K).

Lemma filter_drop_dups d seen l :
  filter (λ x, key x = d) (drop_dups key seen l) =
  if bool_decide (d ∈ seen) then [] else take 1 (filter (λ x, key x = d) l).
Proof.
  revert seen. induction l as [| x l IH]; intros seen; simpl.
  - by destruct (bool_decide _).
  - rewrite (filter_cons _ x l).
    destruct (bool_decide (key x ∈ seen)) eqn:Hseen.
    + rewrite IH. apply bool_decide_eq_true in Hseen.
      destruct (decide (key x = d)) as [<- | Hne]; [| done].
      by rewrite bool_decide_eq_true_2.
    + apply bool_decide_eq_false in Hseen.
      rewrite filter_cons, IH.
      destruct (decide (key x = d)) as [<- | Hne].
      * rewrite bool_decide_eq_true_2 by left.
        by rewrite bool_decide_eq_false_2.
      * destruct (bool_decide (d ∈ seen)) eqn:Hd.
        -- apply bool_decide_eq_true in Hd.
           rewrite bool_decide_eq_true_2; [done | by right].
        -- apply bool_decide_eq_false in Hd.
           rewrite bool_decide_eq_false_2; [done |].
           intros [? | ?]%elem_of_cons; congruence.
Qed.

(** Of the rows with one key, [drop_duplicates] keeps the first. *)
Lemma filter_drop_duplicate_keys d l :
  filter (λ x, key x = d) (drop_duplicate_keys key l) =
  take 1 (filter (λ x, key x = d) l).
Proof. unfold drop_duplicate_keys. by rewrite filter_drop_dups. Qed.

Lemma filter_key_fmap {B} (key' : B → K) (f : A → B) d (l : list A) :
  (∀ x, key' (f x) = key x) →
  filter (λ y, key' y = d) (f <$> l) = f <$> filter (λ x, key x = d) l.
Proof.
  intros Hk. induction l as [| x l IH]; [done |].
  rewrite fmap_cons, !filter_cons, Hk, IH. by destruct (decide (key x = d)).
Qed.

End DropFacts.

(** The order on cells is a total preorder. *)
Lemma string_compare_le_trans s1 s2 s3 :
  String.compare s1 s2 ≠ Gt → String.compare s2 s3 ≠ Gt →
  String.compare s1 s3 ≠ Gt.
Proof.
  revert s2 s3. induction s1 as [| a1 s1 IH]; intros [| a2 s2] [| a3 s3];
    simpl; try done.
  unfold Ascii.compare.
  destruct (N.compare_spec (N_of_ascii a1) (N_of_ascii a2)) as [E12 | L12 | G12];
    destruct (N.compare_spec (N_of_ascii a2) (N_of_ascii a3)) as [E23 | L23 | G23];
    try done; intros H12 H23.
  - rewrite E12, E23, N.compare_refl. by eapply IH.
  - rewrite E12. by apply N.compare_lt_iff in L23 as ->.
  - rewrite <- E23. by apply N.compare_lt_iff in L12 as ->.
  - assert (N_of_ascii a1 < N_of_ascii a3)%N as ->%N.compare_lt_iff by lia.
    done.
Qed.

Lemma string_leb_trans s1 s2 s3 :
  String.leb s1 s2 = true → String.leb s2 s3 = true → String.leb s1 s3 = true.
Proof.
  unfold String.leb. intros H12 H23.
  pose proof (string_compare_le_trans s1 s2 s3) as H.
  destruct (String.compare s1 s2), (String.compare s2 s3),
    (String.compare s1 s3); try done; by exfalso; apply H.
Qed.

Lemma cell_le_total a b : cell_le a b = true ∨ cell_le b a = true.
Proof.
  destruct a as [| s | x], b as [| u | y]; simpl; auto.
  - apply String.leb_total.
  - destruct (Z.leb_spec x y); [by left | right]. apply Z.leb_le. lia.
Qed.

Lemma cell_le_trans a b c :
  cell_le a b = true → cell_le b c = true → cell_le a c = true.
Proof.
  destruct a as [| s | x], b as [| u | y], c as [| v | z]; simpl; try done.
  - apply string_leb_trans.
  - rewrite !Z.leb_le. lia.
Qed.

End FramesFacts.

(** ** De-duplication of the main tables *)

Module DedupFacts.
Import Py Frames Dedup FramesFacts.

Lemma named_first_total name r1 r2 :
  named_first name r1 r2 = true ∨ named_first name r2 r1 = true.
Proof.
  unfold named_first.
  destruct (cell_le (value r1 "單據編號") (value r2 "單據編號")) eqn:H12,
    (cell_le (value r2 "單據編號") (value r1 "單據編號")) eqn:H21;
    destruct (has_name (value r1 name)), (has_name (value r2 name));
    simpl; auto.
  all: destruct (cell_le_total (value r1 "單據編號") (value r2 "單據編號"));
    congruence.
Qed.

Lemma named_first_trans name r1 r2 r3 :
  named_first name r1 r2 = true → named_first name r2 r3 = true →
  named_first name r1 r3 = true.
Proof.
  unfold named_first.
  set (d1 := value r1 "單據編號"). set (d2 := value r2 "單據編號").
  set (d3 := value r3 "單據編號").
  destruct (cell_le d1 d2) eqn:H12; [| done].
  destruct (cell_le d2 d3) eqn:H23; [| by destruct (cell_le d2 d1)].
  rewrite (cell_le_trans _ _ _ H12 H23).
  destruct (cell_le d3 d1) eqn:H31; [| done].
  rewrite (cell_le_trans _ _ _ H23 H31), (cell_le_trans _ _ _ H31 H12).
  destruct (has_name (value r1 name)), (has_name (value r2 name)),
    (has_name (value r3 name)); done.
Qed.

Lemma cell_le_refl a : cell_le a a = true.
Proof. by destruct (cell_le_total a a). Qed.

(** Two rows with one document number, in either order, come out of the
    sort with the named one first. *)
Lemma sort_pair_named_first name a b :
  value a "單據編號" = value b "單據編號" →
  has_name (value a name) = false → has_name (value b name) = true →
  stable_sort (named_first name) [a; b] = [b; a] ∧
  stable_sort (named_first name) [b; a] = [b; a].
Proof.
  intros Hd Ha Hb. unfold stable_sort, named_first. simpl.
  by rewrite Hd, cell_le_refl, Ha, Hb.
Qed.

(** What sorting and dropping duplicates keep of the rows of one
    document number: the first of them that has a name, else the first. *)
Lemma kept_of_document name d (l : list (gmap string cell)) :
  filter (λ r, value r "單據編號" = d)
    (drop_duplicate_keys (λ r, value r "單據編號")
       (stable_sort (named_first name) l)) =
  take 1 (stable_sort (named_first name)
            (filter (λ r, value r "單據編號" = d) l)).
Proof.
  rewrite filter_drop_duplicate_keys. f_equal.
  apply filter_stable_sort;
    [apply named_first_total | apply named_first_trans].
Qed.

Lemma kept_of_pair name d l a b :
  filter (λ r, value r "單據編號" = d) l = [a; b] ∨
  filter (λ r, value r "單據編號" = d) l = [b; a] →
  value a "單據編號" = value b "單據編號" →
  has_name (value a name) = false → has_name (value b name) = true →
  filter (λ r, value r "單據編號" = d)
    (drop_duplicate_keys (λ r, value r "單據編號")
       (stable_sort (named_first name) l)) = [b].
Proof.
  intros Hl Hd Ha Hb. rewrite kept_of_document.
  destruct (sort_pair_named_first name a b Hd Ha Hb) as [H1 H2].
  by destruct Hl as [-> | ->]; [rewrite H1 | rewrite H2].
Qed.

Lemma sorted_pair name d l a b :
  filter (λ r, value r "單據編號" = d) l = [a; b] ∨
  filter (λ r, value r "單據編號" = d) l = [b; a] →
  value a "單據編號" = value b "單據編號" →
  has_name (value a name) = false → has_name (value b name) = true →
  filter (λ r, value r "單據編號" = d) (stable_sort (named_first name) l)
  = [b; a].
Proof.
  intros Hl Hd Ha Hb.
  rewrite filter_stable_sort
    by (apply named_first_total || apply named_first_trans).
  destruct (sort_pair_named_first name a b Hd Ha Hb) as [H1 H2].
  by destruct Hl as [-> | ->].
Qed.

Lemma value_insert r c v : value (<[c := v]> r) c = v.
Proof. unfold value. by rewrite lookup_insert_eq. Qed.

Lemma value_insert_ne r c c' v : c ≠ c' → value (<[c := v]> r) c' = value r c'.
Proof. intros H. unfold value. by rewrite lookup_insert_ne. Qed.

Lemma set_column_existing c f df :
  has_col df c = true → columns (set_column c f df) = columns df.
Proof. intros H. unfold set_column. by rewrite H. Qed.

Lemma has_col_same df df' c :
  columns df' = columns df → has_col df' c = has_col df c.
Proof. unfold has_col. by intros ->. Qed.

Lemma clean_column_columns c df : columns (clean_column c df) = columns df.
Proof.
  unfold clean_column. destruct (has_col df c) eqn:H; [| done].
  by apply set_column_existing.
Qed.

(** The three steps that clean 客戶名稱 and 客戶 and complete the former
    from the latter, row by row. *)
Lemma prepare_names df :
  has_col df "客戶名稱" = true →
  let df' := fill_from "客戶名稱" "客戶"
               (clean_column "客戶" (clean_column "客戶名稱" df)) in
  columns df' = columns df ∧
  ∃ T, data df' = T <$> data df ∧
       ∀ r, value (T r) "客戶名稱" = resolved_name df r ∧
            ∀ c, c ≠ "客戶名稱" → c ≠ "客戶" → value (T r) c = value r c.
Proof.
  intros Hn df'. subst df'.
  set (df1 := clean_column "客戶名稱" df).
  set (df2 := clean_column "客戶" df1).
  assert (Hc1 : columns df1 = columns df) by apply clean_column_columns.
  assert (Hc2 : columns df2 = columns df)
    by (unfold df2; by rewrite clean_column_columns).
  assert (Hd1 : data df1 =
            (λ r, <["客戶名稱" := clean_text (value r "客戶名稱")]> r) <$> data df).
  { unfold df1, clean_column. by rewrite Hn. }
  unfold fill_from. rewrite !(has_col_same df df2) by done.
  rewrite Hn. unfold resolved_name.
  destruct (has_col df "客戶") eqn:Hc; simpl.
  - assert (Hd2 : data df2 =
              (λ r, <["客戶" := clean_text (value r "客戶")]> r) <$> data df1).
    { unfold df2, clean_column. by rewrite (has_col_same df df1), Hc. }
    split; [by rewrite (has_col_same df df2), Hn |].
    eexists. split.
    + rewrite Hd2, Hd1, <- !list_fmap_compose. reflexivity.
    + intros r. unfold compose. split.
      * rewrite value_insert.
        rewrite !(value_insert_ne _ "客戶" "客戶名稱") by done.
        rewrite !value_insert.
        by rewrite (value_insert_ne _ "客戶名稱" "客戶") by done.
      * intros c Hcn Hcc. by rewrite !value_insert_ne.
  - assert (Hd2 : data df2 = data df1).
    { unfold df2, clean_column. by rewrite (has_col_same df df1), Hc. }
    split; [done |]. eexists. split.
    + rewrite Hd2, Hd1. reflexivity.
    + intros r. split; [by rewrite value_insert |].
      intros c Hcn _. by rewrite value_insert_ne.
Qed.

Lemma value_select_rename (m : list (string * string)) r src dst :
  NoDup m.*2 → (src, dst) ∈ m →
  value (list_to_map ((λ kv, (kv.2, value r kv.1)) <$> m)) dst = value r src.
Proof.
  intros Hnd Hin. unfold value at 1.
  rewrite (elem_of_list_to_map_1 _ dst (value r src)); [done | |].
  - by rewrite <- list_fmap_compose.
  - apply list_elem_of_fmap. by exists (src, dst).
Qed.

Lemma value_select_columns cs r c :
  NoDup cs → c ∈ cs →
  value (list_to_map ((λ kv, (kv.2, value r kv.1)) <$> ((λ c, (c, c)) <$> cs))) c
  = value r c.
Proof.
  intros Hnd Hin. apply value_select_rename.
  - rewrite <- list_fmap_compose. by rewrite list_fmap_id.
  - apply list_elem_of_fmap. by exists c.
Qed.

Lemma main_columns_nodup : NoDup main_columns.
Proof. apply (bool_decide_unpack _). by vm_compute. Qed.

Lemma mapping_targets_nodup : NoDup main_columns_mapping.*2.
Proof. apply (bool_decide_unpack _). by vm_compute. Qed.

Lemma same_document d (l : list (gmap string cell)) a b :
  filter (λ r, value r "單據編號" = d) l = [a; b] ∨
  filter (λ r, value r "單據編號" = d) l = [b; a] →
  value a "單據編號" = value b "單據編號".
Proof.
  intros Hl.
  assert (a ∈ filter (λ r, value r "單據編號" = d) l) as Hia
    by (destruct Hl as [-> | ->]; [left | right; left]).
  assert (b ∈ filter (λ r, value r "單據編號" = d) l) as Hib
    by (destruct Hl as [-> | ->]; [right; left | left]).
  apply list_elem_of_filter in Hia as [-> _].
  by apply list_elem_of_filter in Hib as [-> _].
Qed.

(** *** Sales *)

Lemma sales_keeps_named_row df d a b :
  has_col df "單據編號" = true → has_col df "客戶名稱" = true →
  filter (λ r, value r "單據編號" = d) (data df) = [a; b] ∨
  filter (λ r, value r "單據編號" = d) (data df) = [b; a] →
  has_name (resolved_name df a) = false →
  has_name (resolved_name df b) = true →
  ∃ main kept,
    sales_main df = Some main ∧
    filter (λ r, value r "單據編號" = d) (data main) = [kept] ∧
    value kept "客戶名稱" = resolved_name df b ∧
    carries Sales df b kept.
Proof.
  intros Hdoc Hname Hl Ha Hb.
  destruct (prepare_names df Hname) as (Hcols & T & HT & HTv).
  unfold sales_main.
  set (prep := fill_from "客戶名稱" "客戶" _) in *.
  unfold sort_named_first.
  rewrite !(has_col_same df prep) by done. rewrite Hdoc, Hname. cbn [andb columns].
  set (avail := filter (λ c, c ∈ columns prep) main_columns).
  assert (Hnd : NoDup avail) by apply NoDup_filter, main_columns_nodup.
  assert (Havail : ∀ c, c ∈ avail ↔ c ∈ columns df ∧ c ∈ main_columns).
  { intros c. unfold avail. by rewrite list_elem_of_filter, Hcols. }
  assert (Hd_in : "單據編號" ∈ avail).
  { apply Havail. split; [by apply bool_decide_eq_true in Hdoc |].
    apply (bool_decide_unpack _). by vm_compute. }
  assert (Hn_in : "客戶名稱" ∈ avail).
  { apply Havail. split; [by apply bool_decide_eq_true in Hname |].
    apply (bool_decide_unpack _). by vm_compute. }
  unfold select_columns, select_rename, has_col. cbn [columns data].
  rewrite <- list_fmap_compose, list_fmap_id.
  rewrite bool_decide_eq_true_2 by done.
  eexists _, _. split; [reflexivity |].
  unfold drop_duplicates. cbn [data].
  set (P := λ r : gmap string cell, list_to_map (M := gmap string cell) _).
  assert (HP : ∀ r c, c ∈ avail → value (P r) c = value r c).
  { intros r c Hc. by apply value_select_columns. }
  assert (HTd : ∀ r, value (T r) "單據編號" = value r "單據編號").
  { intros r. by apply HTv. }
  rewrite filter_drop_duplicate_keys.
  rewrite (filter_key_fmap (λ r, value r "單據編號") (λ r, value r "單據編號") P)
    by (intros r; by apply HP).
  rewrite HT.
  rewrite (sorted_pair "客戶名稱" d _ (T a) (T b)).
  - split; [reflexivity |]. split.
    + etrans; [exact (HP (T b) _ Hn_in) | apply HTv].
    + intros c Hc1 Hc2 Hc3.
      etrans; [apply (HP (T b) c); by apply Havail |].
      apply HTv; [done |]. intros ->. revert Hc1.
      apply (bool_decide_unpack _). by vm_compute.
  - rewrite (filter_key_fmap (λ r, value r "單據編號") (λ r, value r "單據編號") T)
      by done.
    by destruct Hl as [-> | ->]; [left | right].
  - rewrite !HTd. by apply (same_document d (data df)).
  - by rewrite (proj1 (HTv a)).
  - by rewrite (proj1 (HTv b)).
Qed.

(** *** Repair *)

Lemma repair_keeps_named_row df d a b :
  has_col df "單據編號" = true → has_col df "客戶名稱" = true →
  filter (λ r, value r "單據編號" = d) (data df) = [a; b] ∨
  filter (λ r, value r "單據編號" = d) (data df) = [b; a] →
  has_name (resolved_name df a) = false →
  has_name (resolved_name df b) = true →
  ∃ kept,
    filter (λ r, value r "單據編號" = d) (data (repair_data df)) = [kept] ∧
    value kept "客戶名稱" = resolved_name df b ∧
    carries Repair df b kept.
Proof.
  intros Hdoc Hname Hl Ha Hb.
  destruct (prepare_names df Hname) as (Hcols & T & HT & HTv).
  unfold repair_data.
  set (prep := fill_from "客戶名稱" "客戶" _) in *.
  unfold sort_named_first.
  rewrite !(has_col_same df prep) by done. rewrite Hdoc, Hname. cbn [andb].
  unfold drop_duplicates. cbn [data].
  assert (HTd : ∀ r, value (T r) "單據編號" = value r "單據編號").
  { intros r. by apply HTv. }
  exists (T b). rewrite filter_drop_duplicate_keys, HT.
  rewrite (sorted_pair "客戶名稱" d _ (T a) (T b)).
  - split; [done |]. split; [apply HTv |]. intros c. apply HTv.
  - rewrite (filter_key_fmap (λ r, value r "單據編號") (λ r, value r "單據編號") T)
      by done.
    by destruct Hl as [-> | ->]; [left | right].
  - rewrite !HTd. by apply (same_document d (data df)).
  - by rewrite (proj1 (HTv a)).
  - by rewrite (proj1 (HTv b)).
Qed.

(** *** Consignment *)

(** [df'] holds the rows of [df], changed at most in the columns [cs]. *)
Definition rewrites (cs : list string) (df df' : frame) : Prop :=
  ∃ T, data df' = T <$> data df ∧
       ∀ r c, c ∉ cs → value (T r) c = value r c.

Lemma rewrites_refl cs df : rewrites cs df df.
Proof. exists id. by rewrite list_fmap_id. Qed.

Lemma rewrites_trans cs df1 df2 df3 :
  rewrites cs df1 df2 → rewrites cs df2 df3 → rewrites cs df1 df3.
Proof.
  intros (T1 & H1 & Hv1) (T2 & H2 & Hv2). exists (T2 ∘ T1). split.
  - by rewrite H2, H1, <- list_fmap_compose.
  - intros r c Hc. unfold compose. by rewrite Hv2, Hv1.
Qed.

Lemma rewrites_set_column cs c f df :
  c ∈ cs → rewrites cs df (set_column c f df).
Proof.
  intros Hc. eexists. split; [reflexivity |].
  intros r c' Hc'. apply value_insert_ne. by intros ->.
Qed.

Lemma rewrites_clean_column cs c df :
  c ∈ cs → rewrites cs df (clean_column c df).
Proof.
  intros Hc. unfold clean_column.
  destruct (has_col df c); [by apply rewrites_set_column | apply rewrites_refl].
Qed.

Lemma rewrites_fill_from cs c c' df :
  c ∈ cs → rewrites cs df (fill_from c c' df).
Proof.
  intros Hc. unfold fill_from.
  destruct (negb _ && _); [by apply rewrites_set_column |].
  destruct (_ && _); [by apply rewrites_set_column | apply rewrites_refl].
Qed.

Lemma custody_keeps_named_row df d a b s :
  has_col df "單據編號" = true → has_col df "借貨對象名稱" = true →
  filter (λ r, value r "單據編號" = d) (data df) = [a; b] ∨
  filter (λ r, value r "單據編號" = d) (data df) = [b; a] →
  value a "借貨對象名稱" = Txt s → strip s = "" →
  has_name (value b "借貨對象名稱") = true →
  ∃ main kept,
    custody_main df = Some main ∧
    filter (λ r, value r "單據編號" = d) (data main) = [kept] ∧
    value kept "客戶名稱" = value b "借貨對象名稱" ∧
    carries Consignment df b kept.
Proof.
  intros Hdoc Hname Hl Ha Hs Hb.
  apply bool_decide_eq_true in Hdoc, Hname.
  unfold custody_main.
  set (avail := filter (λ kv, kv.1 ∈ columns df) main_columns_mapping).
  set (block := fill_from "寄貨對象名稱" "客戶名稱" _).
  assert (Hblock : rewrites ["客戶名稱"; "寄貨對象名稱"; "客戶"] df block).
  { unfold block.
    repeat (eapply rewrites_trans;
            [| apply rewrites_fill_from; apply (bool_decide_unpack _); by vm_compute]).
    repeat (eapply rewrites_trans;
            [| apply rewrites_clean_column; apply (bool_decide_unpack _); by vm_compute]).
    apply rewrites_refl. }
  destruct Hblock as (T & HT & HTv).
  assert (Hnd : NoDup avail.*2).
  { eapply sublist_NoDup; [apply mapping_targets_nodup |].
    apply fmap_sublist, sublist_filter. }
  assert (Havail : ∀ src dst, (src, dst) ∈ avail ↔
            (src, dst) ∈ main_columns_mapping ∧ src ∈ columns df).
  { intros src dst. unfold avail. rewrite list_elem_of_filter. simpl. tauto. }
  assert (Hsrc : ∀ src dst r, (src, dst) ∈ avail → value (T r) src = value r src).
  { intros src dst r [Hin _]%Havail. apply HTv. revert src dst Hin.
    assert (Forall (λ kv, kv.1 ∉ ["客戶名稱"; "寄貨對象名稱"; "客戶"])
              main_columns_mapping) as HF
      by (apply (bool_decide_unpack _); by vm_compute).
    rewrite Forall_forall in HF. intros src dst Hin. by apply (HF (src, dst)). }
  assert (Hd_in : ("單據編號", "單據編號") ∈ avail).
  { apply Havail. split; [| done]. apply (bool_decide_unpack _). by vm_compute. }
  assert (Hn_in : ("借貨對象名稱", "客戶名稱") ∈ avail).
  { apply Havail. split; [| done]. apply (bool_decide_unpack _). by vm_compute. }
  unfold sort_named_first, select_rename, has_col. cbn [columns data].
  assert (Hd2 : "單據編號" ∈ avail.*2)
    by (apply list_elem_of_fmap; by exists ("單據編號", "單據編號")).
  assert (Hn2 : "客戶名稱" ∈ avail.*2)
    by (apply list_elem_of_fmap; by exists ("借貨對象名稱", "客戶名稱")).
  rewrite (bool_decide_eq_true_2 ("單據編號" ∈ avail.*2)) by done.
  rewrite (bool_decide_eq_true_2 ("客戶名稱" ∈ avail.*2)) by done.
  cbn [andb columns data].
  rewrite (bool_decide_eq_true_2 ("單據編號" ∈ avail.*2)) by done.
  eexists _, _. split; [reflexivity |].
  unfold drop_duplicates. cbn [data].
  set (R := λ r : gmap string cell, list_to_map (M := gmap string cell) _).
  assert (HR : ∀ r src dst, (src, dst) ∈ avail → value (R r) dst = value r src).
  { intros r src dst Hin. by apply value_select_rename. }
  rewrite filter_drop_duplicate_keys, HT, <- list_fmap_compose.
  assert (Hkey : ∀ r, value ((R ∘ T) r) "單據編號" = value r "單據編號").
  { intros r. etrans; [exact (HR (T r) _ _ Hd_in) | by eapply Hsrc]. }
  assert (Hnm : ∀ r, value ((R ∘ T) r) "客戶名稱" = value r "借貨對象名稱").
  { intros r. etrans; [exact (HR (T r) _ _ Hn_in) | by eapply Hsrc]. }
  rewrite (sorted_pair "客戶名稱" d _ ((R ∘ T) a) ((R ∘ T) b)).
  - split; [reflexivity |]. split; [apply Hnm |].
    intros src dst Hin Hcol.
    assert ((src, dst) ∈ avail) as Hin' by by apply Havail.
    etrans; [exact (HR (T b) _ _ Hin') | by eapply Hsrc].
  - rewrite (filter_key_fmap (λ r, value r "單據編號") (λ r, value r "單據編號")
               (R ∘ T)) by done.
    by destruct Hl as [-> | ->]; [left | right].
  - rewrite !Hkey. by apply (same_document d (data df)).
  - rewrite Hnm, Ha. unfold has_name. simpl. by rewrite Hs.
  - by rewrite Hnm.
Qed.

(** *** The claim *)

(** C4 (amended).  In each of the three conversions, let the concatenated
    frame have the columns 單據編號 and the conversion's name column, and
    let exactly two of its rows carry a document number: one without a
    name, one with a name, concatenated in either order.  Then the main
    table holds exactly one row for that document number, and it is the
    row with the name: its 客戶名稱 is the name that row was ranked by and
    its other cells are those of that row.  For sales and repair the name
    a row is ranked by is its 客戶名稱 as cleaned text, replaced by its
    客戶 where that is blank and the frame has such a column; for
    consignment it is the cell 借貨對象名稱, blank when it is a text of
    white space only. *)
Theorem named_row_is_retained k df d a b :
  has_col df "單據編號" = true →
  has_col df (name_field k) = true →
  filter (λ r, value r "單據編號" = d) (data df) = [a; b] ∨
  filter (λ r, value r "單據編號" = d) (data df) = [b; a] →
  unnamed k df a →
  named k df b →
  ∃ main kept,
    main_table k df = Some main ∧
    filter (λ r, value r "單據編號" = d) (data main) = [kept] ∧
    value kept "客戶名稱" = ranked_name k df b ∧
    has_name (value kept "客戶名稱") = true ∧
    carries k df b kept.
Proof.
  intros Hdoc Hname Hl Ha Hb. destruct k; simpl in *.
  - destruct (sales_keeps_named_row df d a b) as (main & kept & H1 & H2 & H3 & H4);
      try done.
    exists main, kept. by rewrite H3.
  - destruct (repair_keeps_named_row df d a b) as (kept & H2 & H3 & H4);
      try done.
    exists (repair_data df), kept. by rewrite H3.
  - destruct Ha as (s & Ha & Hs). destruct Hb as [_ Hb].
    destruct (custody_keeps_named_row df d a b s)
      as (main & kept & H1 & H2 & H3 & H4); try done.
    exists main, kept. by rewrite H3.
Qed.

Definition doc_a_without_name : gmap string cell :=
  {["單據編號" := Txt "A"; "客戶名稱" := Txt ""]}.

Definition doc_a_bob : gmap string cell :=
  {["單據編號" := Txt "A"; "客戶名稱" := Txt "Bob"]}.

Definition doc_b_ann : gmap string cell :=
  {["單據編號" := Txt "B"; "客戶名稱" := Txt "Ann"]}.

(** Filters a list of concrete rows, deciding the test row by row. *)
Ltac filter_rows :=
  cbn [data];
  repeat first [ rewrite filter_cons_True by by vm_compute
               | rewrite filter_cons_False by by vm_compute ];
  rewrite ?filter_nil.

(** C4 at work on the rows doc A without a name and doc A of Bob, in both
    orders, with a row of another document between or after them. *)
Lemma bob_is_retained_in_either_order :
  (∃ main kept,
     sales_main (Frame ["單據編號"; "客戶名稱"]
                   [doc_a_without_name; doc_b_ann; doc_a_bob]) = Some main ∧
     filter (λ r, value r "單據編號" = Txt "A") (data main) = [kept] ∧
     value kept "客戶名稱" = Txt "Bob") ∧
  (∃ main kept,
     sales_main (Frame ["單據編號"; "客戶名稱"]
                   [doc_a_bob; doc_a_without_name; doc_b_ann]) = Some main ∧
     filter (λ r, value r "單據編號" = Txt "A") (data main) = [kept] ∧
     value kept "客戶名稱" = Txt "Bob").
Proof.
  split.
  - destruct (named_row_is_retained Sales
                (Frame ["單據編號"; "客戶名稱"]
                   [doc_a_without_name; doc_b_ann; doc_a_bob])
                (Txt "A") doc_a_without_name doc_a_bob)
      as (main & kept & H1 & H2 & H3 & _);
      [by vm_compute | by vm_compute | left; by filter_rows
      | by vm_compute | by vm_compute |].
    exists main, kept. split; [exact H1 |]. split; [exact H2 | exact H3].
  - destruct (named_row_is_retained Sales
                (Frame ["單據編號"; "客戶名稱"]
                   [doc_a_bob; doc_a_without_name; doc_b_ann])
                (Txt "A") doc_a_without_name doc_a_bob)
      as (main & kept & H1 & H2 & H3 & _);
      [by vm_compute | by vm_compute | right; by filter_rows
      | by vm_compute | by vm_compute |].
    exists main, kept. split; [exact H1 |]. split; [exact H2 | exact H3].
Defined.

(** C4 as stated fails where the frame has a column 客戶: the row whose
    客戶名稱 is empty takes its customer code for a name, then counts as
    named, and being first it is the one retained; the row of Bob is
    dropped.  Sales and repair alike. *)
Lemma customer_code_outranks_later_name :
  let a : gmap string cell :=
    {["單據編號" := Txt "A"; "客戶名稱" := Txt ""; "客戶" := Txt "C01"]} in
  let b : gmap string cell :=
    {["單據編號" := Txt "A"; "客戶名稱" := Txt "Bob"; "客戶" := Txt ""]} in
  let df := Frame ["單據編號"; "客戶名稱"; "客戶"] [a; b] in
  value a "客戶名稱" = Txt "" ∧
  value b "客戶名稱" = Txt "Bob" ∧
  sales_main df =
    Some (Frame ["單據編號"; "客戶名稱"]
            [{["單據編號" := Txt "A"; "客戶名稱" := Txt "C01"]}]) ∧
  data (repair_data df) =
    [{["單據編號" := Txt "A"; "客戶名稱" := Txt "C01"; "客戶" := Txt "C01"]}].
Proof. intros a b df. repeat split; reflexivity. Qed.

(** In the consignment conversion a missing 借貨對象名稱 (an empty cell of
    the workbook) reads "nan" as text and so ranks as a name: placed
    first, the row without a name is the one retained. *)
Example custody_missing_name_ranks_as_name :
  custody_main (Frame ["單據編號"; "借貨對象名稱"]
                  [{["單據編號" := Txt "A"; "借貨對象名稱" := NaN]};
                   {["單據編號" := Txt "A"; "借貨對象名稱" := Txt "Bob"]}]) =
  Some (Frame ["單據編號"; "客戶名稱"]
          [{["單據編號" := Txt "A"; "客戶名稱" := NaN]}]).
Proof. reflexivity. Qed.

End DedupFacts.

(** ** The batch loader *)

Module LoaderFacts.
Import Loader.

Section Facts.
Context {row : Type}.
Implicit Types (df : list row) (conn : gmap string (list row)).

Lemma iloc_chunk df i k : iloc df i (i + k) = take k (drop i df).
Proof. unfold iloc. f_equal. lia. Qed.

(** The state after the first [m] turns of the loop. *)
Lemma loop_state df conn name k m :
  (0 < k)%nat →
  foldl (write_chunk df name k) (delete name conn, [])
        ((λ j, j * k)%nat <$> seq 0 m) =
  (match m with
   | O => delete name conn
   | S _ => <[name := take (m * k) df]> (delete name conn)
   end,
   (λ j, take k (drop (j * k) df))%nat <$> seq 0 m).
Proof.
  intros Hk. induction m as [| m IH]; [done |].
  rewrite seq_S, !fmap_app, foldl_app, IH. simpl.
  unfold write_chunk. cbn [fst snd]. rewrite iloc_chunk. f_equal.
  destruct m as [| m'].
  - simpl. by rewrite Nat.add_0_r.
  - replace (S m' * k =? 0)%nat with false
      by (symmetry; apply Nat.eqb_neq; lia).
    rewrite lookup_insert_eq. simpl default.
    rewrite take_take_drop, insert_insert_eq. do 2 f_equal. lia.
Qed.

Lemma concat_chunks df k m :
  concat ((λ j, take k (drop (j * k) df))%nat <$> seq 0 m) = take (m * k) df.
Proof.
  induction m as [| m IH]; [done |].
  rewrite seq_S, fmap_app, concat_app, IH. simpl.
  rewrite app_nil_r, take_take_drop. f_equal. lia.
Qed.

Lemma turns_cover n k :
  (0 < k)%nat → (n ≤ (n + k - 1) / k * k)%nat.
Proof.
  intros Hk. pose proof (Nat.div_mod_eq (n + k - 1) k) as Hd.
  pose proof (Nat.mod_upper_bound (n + k - 1) k). nia.
Qed.

Lemma turns_tight n k j :
  (0 < k)%nat → (j < (n + k - 1) / k)%nat → (j * k < n)%nat.
Proof.
  intros Hk Hj. pose proof (Nat.div_mod_eq (n + k - 1) k) as Hd.
  pose proof (Nat.mod_upper_bound (n + k - 1) k). nia.
Qed.

(** C5 (amended).  For a positive chunk size the loader returns; the
    chunks it writes are, in order, the rows of the frame cut every
    [chunk_size] rows, so each holds at most [chunk_size] rows and
    together they are the frame; the other tables of the store are
    untouched; and when the frame has at least one row the target table
    holds exactly the rows of the frame afterwards, whatever it held
    before. *)
Theorem loader_writes_every_row df conn name k :
  (0 < k)%nat →
  df ≠ [] →
  ∃ conn' chunks,
    insert_data_in_chunks df conn name k = Some (conn', chunks) ∧
    conn' !! name = Some df ∧
    (∀ other, other ≠ name → conn' !! other = conn !! other) ∧
    concat chunks = df ∧
    length chunks = ((length df + k - 1) / k)%nat ∧
    ∀ j chunk, chunks !! j = Some chunk →
      chunk = take k (drop (j * k) df) ∧
      (1 ≤ length chunk ≤ k)%nat.
Proof.
  intros Hk Hne. unfold insert_data_in_chunks, range_step.
  replace (k =? 0)%nat with false by (symmetry; apply Nat.eqb_neq; lia).
  rewrite loop_state by done.
  set (m := ((length df + k - 1) / k)%nat).
  assert (Hcover : (length df ≤ m * k)%nat) by by apply turns_cover.
  assert (Hm : (0 < m)%nat).
  { destruct df; [done |]. simpl in Hcover. destruct m; [simpl in *|]; lia. }
  eexists _, _. split; [reflexivity |].
  destruct m as [| m'] eqn:Em; [lia |]. rewrite <- Em in *.
  split; [| split; [| split; [| split]]].
  - rewrite lookup_insert_eq. by rewrite take_ge.
  - intros other Hother. by rewrite lookup_insert_ne, lookup_delete_ne.
  - rewrite concat_chunks. by rewrite take_ge.
  - by rewrite length_fmap, length_seq.
  - intros j chunk Hj. rewrite list_lookup_fmap in Hj.
    destruct (seq 0 m !! j) as [j' |] eqn:Hseq; [| done].
    apply lookup_seq in Hseq as [-> Hlt]. simpl in Hj. injection Hj as <-.
    split; [done |].
    pose proof (turns_tight (length df) k j Hk Hlt).
    rewrite length_take, length_drop. lia.
Qed.

(** With no row the loop does not run: the table is dropped and none is
    created. *)
Lemma loader_of_empty_frame conn name k :
  (0 < k)%nat →
  insert_data_in_chunks (@nil row) conn name k = Some (delete name conn, []).
Proof.
  intros Hk. unfold insert_data_in_chunks, range_step.
  replace (k =? 0)%nat with false by (symmetry; apply Nat.eqb_neq; lia).
  simpl. by rewrite Nat.div_small by lia.
Qed.

End Facts.

(** C5 at work: 2500 rows in chunks of 1000 are written as 1000, 1000
    and 500 rows, and 7 rows as one chunk of 7. *)
Lemma loader_2500_rows_in_three_chunks :
  ∃ conn' chunks,
    insert_data_in_chunks (seq 0 2500) {["sales_main" := [7; 8; 9]%nat]}
      "sales_main" 1000 = Some (conn', chunks) ∧
    conn' !! "sales_main" = Some (seq 0 2500) ∧
    length <$> chunks = [1000; 1000; 500]%nat.
Proof.
  destruct (loader_writes_every_row (seq 0 2500)
              {["sales_main" := [7; 8; 9]%nat]} "sales_main" 1000)
    as (conn' & chunks & Hrun & Htable & _ & _ & Hlen & Hchunks);
    [lia | done |].
  exists conn', chunks. split; [exact Hrun |]. split; [exact Htable |].
  change ((length (seq 0 2500) + 1000 - 1) / 1000)%nat with 3%nat in Hlen.
  destruct chunks as [| c0 [| c1 [| c2 [| ? ?]]]]; try done.
  destruct (Hchunks 0%nat c0 eq_refl) as [-> _].
  destruct (Hchunks 1%nat c1 eq_refl) as [-> _].
  destruct (Hchunks 2%nat c2 eq_refl) as [-> _].
  by vm_compute.
Defined.

(** C5 as stated fails for a frame without rows: the table that was there
    is dropped and the loader returns without creating one, so afterwards
    the store has no such table (not a table of 0 rows). *)
Lemma loader_leaves_no_table_for_empty_frame :
  insert_data_in_chunks (@nil nat) {["customer_basic" := [1; 2]%nat]}
    "customer_basic" 1000 = Some (∅, []) ∧
  (∅ : gmap string (list nat)) !! "customer_basic" = None.
Proof. by vm_compute. Qed.

End LoaderFacts.

(** ** The date normaliser *)

Module DatesFacts.
Import Py Dates.

Lemma attempt_Some test out :
  attempt test = Some out →
  (0 < parsed_count test)%nat ∧ out = strftime_or_nan <$> test.
Proof.
  unfold attempt. destruct (0 <? parsed_count test)%nat eqn:H; [| done].
  intros [= <-]. split; [by apply Nat.ltb_lt | done].
Qed.

Lemma attempt_None test : attempt test = None → parsed_count test = 0%nat.
Proof.
  unfold attempt. destruct (0 <? parsed_count test)%nat eqn:H; [done |].
  intros _. apply Nat.ltb_ge in H. lia.
Qed.

Lemma first_some_Some {A B} (f : A → option B) l y :
  first_some f l = Some y → ∃ x, x ∈ l ∧ f x = Some y.
Proof.
  induction l as [| x l IH]; [done |]. simpl.
  destruct (f x) as [y' |] eqn:Hx.
  - intros [= <-]. exists x. split; [left | done].
  - intros (x' & Hin & Hfx)%IH. exists x'. split; [by right | done].
Qed.

Lemma first_some_None {A B} (f : A → option B) l :
  first_some f l = None → Forall (λ x, f x = None) l.
Proof.
  induction l as [| x l IH]; [by constructor |]. simpl.
  destruct (f x) eqn:Hx; [done |]. intros H. constructor; [done | by apply IH].
Qed.

Lemma first_some_app {A B} (f : A → option B) l1 l2 :
  first_some f (l1 ++ l2) =
  match first_some f l1 with
  | Some y => Some y
  | None => first_some f l2
  end.
Proof.
  induction l1 as [| x l1 IH]; [done |]. simpl. by destruct (f x).
Qed.

Lemma serial_in_range n :
  1 ≤ n ≤ 100000 →
  serial_to_timestamp n =
  Some (let '(y, m, d) := civil_from_days (n - 25569) in Stamp y m d 0 0 0).
Proof.
  intros Hn. unfold serial_to_timestamp, day_in_bounds.
  replace ((-106751 <=? n - 25569) && (n - 25569 <=? 106751)) with true
    by (symmetry; apply andb_true_iff; split; apply Z.leb_le; lia).
  by destruct (civil_from_days _) as [[y m] d].
Qed.

Lemma parsed_count_pos (p : Z → option timestamp) v n :
  n ∈ v → is_Some (p n) → (0 < parsed_count (p <$> v))%nat.
Proof.
  intros Hin Hsome. unfold parsed_count.
  assert (p n ∈ filter is_Some (p <$> v)) as Hx.
  { apply list_elem_of_filter. split; [done |].
    apply list_elem_of_fmap. by exists n. }
  destruct (filter _ _); [by apply elem_of_nil in Hx | simpl; lia].
Qed.

Section Facts.
Variable to_datetime_format : string → string → option timestamp.
Variable to_datetime_any : string → option timestamp.

Abbreviation try_formats := (Dates.try_formats to_datetime_format).
Abbreviation text_strategies :=
  (Dates.text_strategies to_datetime_format to_datetime_any).
Abbreviation convert_datetime_column :=
  (Dates.convert_datetime_column to_datetime_format to_datetime_any).
Abbreviation strategies :=
  (Dates.strategies to_datetime_format to_datetime_any).

Lemma try_formats_first fmts cleaned :
  try_formats fmts cleaned =
  first_some attempt
    ((λ fmt, on_text (to_datetime_format fmt) <$> cleaned) <$> fmts).
Proof.
  induction fmts as [| fmt fmts IH]; [done |]. simpl. by rewrite IH.
Qed.

(** The textual part of the cascade is "first strategy that parses a
    value wins, else the original as text". *)
Lemma text_strategies_first s :
  text_strategies s =
  default (astype_str s)
    (first_some attempt
       (((λ fmt, on_text (to_datetime_format fmt)
                   <$> (clean_date_string <$> cells s)) <$> formats_to_try)
        ++ [on_text to_datetime_any <$> (clean_date_string <$> cells s)])).
Proof.
  unfold Dates.text_strategies. rewrite first_some_app, try_formats_first.
  destruct (first_some attempt _); [done |]. simpl.
  by destruct (attempt _).
Qed.

(** C7 (amended).  [convert_datetime_column] is total: it returns for
    every column.  A column without any non-missing value is returned as
    it is.  Otherwise the strategies are tried in order on the whole
    column (typed timestamps; day serials when some value lies in
    [1, 100000]; the seven explicit patterns; the generic parser), and the
    first strategy that parses at least one value decides every value of
    the column: a value it parses becomes its canonical text and a value
    it does not parse becomes missing.  Only when no strategy parses any
    value is every value the original coerced to text. *)
Theorem normaliser_takes_first_strategy s :
  convert_datetime_column s =
    (if (non_null_count s =? 0)%nat then s
     else Objects (default (astype_str s)
                     (first_some attempt (strategies s)))) ∧
  (∀ out, first_some attempt (strategies s) = Some out →
     ∃ test, test ∈ strategies s ∧ (0 < parsed_count test)%nat ∧
             out = strftime_or_nan <$> test ∧
             ∀ i o, out !! i = Some o →
               o = NaN ∨ ∃ t, test !! i = Some (Some t) ∧ o = Txt (strftime t)) ∧
  (first_some attempt (strategies s) = None →
     Forall (λ test, parsed_count test = 0%nat) (strategies s)).
Proof.
  split; [| split].
  - unfold Dates.convert_datetime_column.
    destruct (non_null_count s =? 0)%nat eqn:Hnn; [done |].
    apply Nat.eqb_neq in Hnn.
    destruct s as [v | v | v]; simpl strategies.
    + simpl. unfold attempt. simpl in Hnn. unfold parsed_count.
      replace (0 <? length (filter is_Some v))%nat with true
        by (symmetry; apply Nat.ltb_lt; lia).
      done.
    + destruct (existsb in_serial_range v).
      * rewrite first_some_app. simpl.
        destruct (attempt (serial_to_timestamp <$> v)); [done |].
        by rewrite text_strategies_first.
      * simpl. by rewrite text_strategies_first.
    + by rewrite text_strategies_first.
  - intros out (test & Hin & Hatt)%first_some_Some.
    apply attempt_Some in Hatt as [Hpos ->].
    exists test. repeat split; try done.
    intros i o Ho. rewrite list_lookup_fmap in Ho.
    destruct (test !! i) as [[t |] |] eqn:Ht; simpl in Ho; try done.
    + injection Ho as <-. right. by exists t.
    + injection Ho as <-. by left.
  - intros Hnone%first_some_None.
    eapply Forall_impl; [exact Hnone |]. intros test. apply attempt_None.
Qed.

(** C6 (amended).  On a column of whole numbers the day-serial step is
    taken when at least one value of the column lies in [1, 100000]; it
    then converts every value of the column, those outside [1, 100000]
    too: a value [n] becomes the canonical text of the date [n] days after
    1899-12-30, or missing when that date does not fit a timestamp.  When
    no value lies in [1, 100000] the step is not taken and the column
    goes to the textual strategies; if none of them parses a value, every
    value ends as its text. *)
Theorem day_serial_step v :
  v ≠ [] →
  convert_datetime_column (Integers v) =
    (if existsb in_serial_range v
     then Objects ((λ n, strftime_or_nan (serial_to_timestamp n)) <$> v)
     else Objects (text_strategies (Integers v))) ∧
  (∀ n, 1 ≤ n ≤ 100000 →
     serial_to_timestamp n =
     Some (let '(y, m, d) := civil_from_days (n - 25569) in Stamp y m d 0 0 0)) ∧
  serial_to_timestamp 0 = Some (Stamp 1899 12 30 0 0 0) ∧
  (Forall (λ test, parsed_count test = 0%nat) (strategies (Integers v)) →
   convert_datetime_column (Integers v) = Objects ((λ n, Txt (pretty n)) <$> v)).
Proof.
  intros Hne.
  assert (Hnn : (non_null_count (Integers v) =? 0)%nat = false).
  { apply Nat.eqb_neq. simpl. by destruct v. }
  assert (Hfirst : convert_datetime_column (Integers v) =
            (if existsb in_serial_range v
             then Objects ((λ n, strftime_or_nan (serial_to_timestamp n)) <$> v)
             else Objects (text_strategies (Integers v)))).
  { unfold Dates.convert_datetime_column. rewrite Hnn.
    destruct (existsb in_serial_range v) eqn:Hex; [| done].
    apply existsb_exists in Hex as (n & Hin & Hn).
    apply list_elem_of_In in Hin.
    unfold in_serial_range in Hn.
    apply andb_true_iff in Hn as [H1%Z.leb_le H2%Z.leb_le].
    unfold attempt.
    replace (0 <? parsed_count (serial_to_timestamp <$> v))%nat with true.
    - by rewrite <- list_fmap_compose.
    - symmetry. apply Nat.ltb_lt. apply (parsed_count_pos _ _ n); [done |].
      by rewrite serial_in_range. }
  split; [done |]. split; [apply serial_in_range |]. split; [done |].
  intros Hall.
  destruct (normaliser_takes_first_strategy (Integers v)) as (-> & _ & _).
  rewrite Hnn.
  destruct (first_some attempt (strategies (Integers v))) as [out |] eqn:Hf;
    [| done].
  apply first_some_Some in Hf as (test & Hin & Hatt).
  apply attempt_Some in Hatt as [Hpos _].
  rewrite Forall_forall in Hall. specialize (Hall test Hin). lia.
Qed.

End Facts.

(** C6 at work: day serials of one chunk, none outside the range. *)
Lemma day_serial_step_on_two_serials :
  convert_datetime_column strptime (λ _, None) (Integers [45000; 1]) =
  Objects [Txt "2023-03-15 00:00:00"; Txt "1899-12-31 00:00:00"].
Proof.
  destruct (day_serial_step strptime (λ _, None) [45000; 1]) as (-> & _);
    [done |].
  by vm_compute.
Defined.

(** C6 as stated fails: 0 lies outside [1, 100000], yet beside the serial
    45000 it is not rejected but converted by this step, to the epoch
    itself. *)
Lemma out_of_range_serial_is_converted :
  in_serial_range 0 = false ∧
  convert_datetime_column strptime (λ _, None) (Integers [45000; 0]) =
  Objects [Txt "2023-03-15 00:00:00"; Txt "1899-12-30 00:00:00"].
Proof. by vm_compute. Qed.

(** C7 at work: a column of two dates in the first pattern. *)
Lemma normaliser_on_slash_dates :
  convert_datetime_column strptime (λ _, None)
    (Objects [Txt "2020/01/16 (四)"; Txt "2021/2/3"]) =
  Objects [Txt "2020-01-16 00:00:00"; Txt "2021-02-03 00:00:00"].
Proof.
  destruct (normaliser_takes_first_strategy strptime (λ _, None)
              (Objects [Txt "2020/01/16 (四)"; Txt "2021/2/3"])) as (-> & _).
  by vm_compute.
Defined.

(** C7 as stated fails: "garbage" matches none of the seven patterns, but
    its column holds a date in the first pattern, so the column is
    converted by that pattern and "garbage" becomes missing: neither a
    canonical text nor the original as text. *)
Lemma unparsed_value_becomes_missing :
  Forall (λ fmt, strptime fmt "garbage" = None) formats_to_try ∧
  convert_datetime_column strptime (λ _, None)
    (Objects [Txt "2020/01/16"; Txt "garbage"]) =
  Objects [Txt "2020-01-16 00:00:00"; NaN].
Proof. split; [| by vm_compute]. repeat constructor. Qed.

End DatesFacts.

(** ** The column reconcilers *)

Module ReconcileFacts.
Import Py Reconcile.

Lemma put_fresh c vals l : c ∉ l.*1 → put c vals l = l ++ [(c, vals)].
Proof.
  induction l as [| kv l IH]; [done |]. simpl. intros Hc.
  destruct (String.eqb_spec kv.1 c) as [Heq | Hne].
  - exfalso. apply Hc. rewrite Heq. left.
  - rewrite IH; [done |]. intros H. apply Hc. by right.
Qed.

Lemma label_appended n (l : list (string * list cell)) c v :
  c ∈ labels (CFrame n (l ++ [(c, v)])).
Proof.
  unfold labels. cbn [cols]. rewrite fmap_app. apply elem_of_app. right. left.
Qed.

Lemma labelled_unique (l : list (string * list cell)) n c v :
  NoDup l.*1 → (c, v) ∈ l → labelled c (CFrame n l) = [(c, v)].
Proof.
  unfold labelled. simpl. induction l as [| kv l IH]; intros Hnd Hin.
  - by apply elem_of_nil in Hin.
  - simpl in Hnd. apply NoDup_cons in Hnd as [Hkv Hnd].
    rewrite filter_cons. apply elem_of_cons in Hin as [<- | Hin].
    + simpl. rewrite decide_True by done. f_equal.
      destruct (filter _ l) as [| kv' l'] eqn:Hf; [done |].
      assert (kv' ∈ filter (λ kv, kv.1 = c) l) as Hin' by (rewrite Hf; left).
      apply list_elem_of_filter in Hin' as [Hk Hin'].
      exfalso. apply Hkv. simpl. rewrite <- Hk.
      apply list_elem_of_fmap. by exists kv'.
    + destruct (decide (kv.1 = c)) as [Heq | Hne]; [| by apply IH].
      exfalso. apply Hkv. rewrite Heq.
      apply list_elem_of_fmap. by exists (c, v).
Qed.

Lemma labelled_none (l : list (string * list cell)) n c :
  c ∉ l.*1 → labelled c (CFrame n l) = [].
Proof.
  unfold labelled. simpl. intros Hc.
  destruct (filter _ l) as [| kv' l'] eqn:Hf; [done |].
  assert (kv' ∈ filter (λ kv, kv.1 = c) l) as Hin' by (rewrite Hf; left).
  apply list_elem_of_filter in Hin' as [Hk Hin'].
  exfalso. apply Hc. rewrite <- Hk. apply list_elem_of_fmap. by exists kv'.
Qed.

Lemma column_none df c : c ∉ labels df → column df c = None.
Proof.
  intros Hc. unfold column. destruct df as [n l].
  by rewrite labelled_none.
Qed.

Lemma labelled_fmap (h : string * list cell → string * list cell) c n n' l :
  (∀ kv, (h kv).1 = kv.1) →
  labelled c (CFrame n (h <$> l)) = h <$> labelled c (CFrame n' l).
Proof.
  intros Hh. unfold labelled. simpl.
  induction l as [| kv l IH]; [done |].
  rewrite fmap_cons, !filter_cons, Hh, IH. by destruct (decide (kv.1 = c)).
Qed.

Lemma mask_values_none {A} n (vals : list A) :
  mask_values (replicate n false) vals = [].
Proof.
  revert vals. induction n as [| n IH]; intros [| v vals]; simpl; auto.
Qed.

Lemma filter_replicate_false n :
  filter (λ b : bool, b = true) (replicate n false) = [].
Proof. induction n as [| n IH]; [done |]. simpl. by rewrite filter_cons, IH. Qed.

(** A mask as long as a constant column keeps one value for each [True]. *)
Lemma mask_values_replicate {A} mask k (v : A) :
  length mask = k →
  mask_values mask (replicate k v)
  = replicate (length (filter (λ b : bool, b = true) mask)) v.
Proof.
  revert k. induction mask as [| b mask IH]; intros [| k] Hlen; try done.
  injection Hlen as Hlen. cbn [replicate mask_values]. rewrite filter_cons.
  destruct b.
  - rewrite decide_True by done. cbn [length replicate]. f_equal. by apply IH.
  - rewrite decide_False by done. by apply IH.
Qed.

Lemma mask_count {A} (p : A → bool) (l : list A) :
  length (filter (λ b : bool, b = true) (p <$> l))
  = length (filter (λ x, p x = true) l).
Proof.
  induction l as [| x l IH]; [done |]. rewrite fmap_cons, !filter_cons.
  destruct (p x) eqn:Hx.
  - rewrite !decide_True by done. cbn [length]. by rewrite IH.
  - rewrite !decide_False by (by rewrite ?Hx). exact IH.
Qed.

Lemma phone_of_empty : normalize_phone_value (Txt "") = Txt "".
Proof. reflexivity. Qed.

Lemma clean_of_empty : _clean_value (Txt "") = Txt "".
Proof. reflexivity. Qed.

Lemma display_of_empty : display_type (Txt "") = Txt "".
Proof. reflexivity. Qed.

(** *** Customer master *)

(** No candidate of the target is a column of the source. *)
Definition unmatched (df_customer : cframe) (m : string * list string) : Prop :=
  ∀ x, x ∈ m.2 → x ∉ labels df_customer.

Lemma unmatched_first_some df_customer m :
  unmatched df_customer m → first_some (column df_customer) m.2 = None.
Proof.
  unfold unmatched. induction m.2 as [| x l IH]; [done |]. intros H. simpl.
  rewrite column_none by (apply H; left). apply IH. intros y Hy. apply H.
  by right.
Qed.

(** The values a target receives from the source: those of its first
    candidate that is a column of the source, cleaned; none when no
    candidate is. *)
Definition cleaned (df_customer : cframe) (m : string * list string) : list cell :=
  (λ c, Txt (blank_artifacts (str c)))
    <$> default [] (first_some (column df_customer) m.2).

(** The state of [customer_df] after the targets [P]: its labels are the
    targets seen, and the column of the first target is as long as the
    index.  Either that column holds the values it received and every
    unmatched target seen is a column of empty texts; or the first target
    received no value, a later series brought the index, and the column of
    the first target holds the missing value throughout. *)
Definition reconciled (df_customer : cframe) (P : list (string * list string))
    (F : cframe) : Prop :=
  match P with
  | [] => F = CFrame 0 []
  | m0 :: _ =>
      labels F = P.*1 ∧
      ∃ codes,
        (m0.1, codes) ∈ cols F ∧ length codes = index_length F ∧
        ((codes = cleaned df_customer m0 ∧
          ∀ m, m ∈ P → unmatched df_customer m →
               (m.1, replicate (index_length F) (Txt "")) ∈ cols F) ∨
         (cleaned df_customer m0 = [] ∧ (0 < index_length F)%nat ∧
          codes = replicate (index_length F) NaN))
  end.

Lemma unmatched_cleaned df_customer m :
  unmatched df_customer m → cleaned df_customer m = [].
Proof. intros Hun. unfold cleaned. by rewrite unmatched_first_some. Qed.

(** The first turn of the loop, on the empty frame. *)
Lemma first_target df_customer m :
  reconcile_target df_customer (CFrame 0 []) m
  = CFrame (length (cleaned df_customer m)) [(m.1, cleaned df_customer m)].
Proof.
  unfold reconcile_target, cleaned.
  destruct (first_some (column df_customer) m.2) as [vals |].
  - change (default [] (Some vals)) with vals.
    destruct ((λ c, Txt (blank_artifacts (str c))) <$> vals) as [| v vs];
      unfold set_series; cbn [index_length cols length Nat.eqb andb negb fmap
                              list_fmap put];
      by rewrite bool_decide_eq_true_2 by (unfold labels; cbn; left).
  - change (default [] None) with (@nil cell). cbn [fmap list_fmap length].
    rewrite bool_decide_eq_false_2 by (unfold labels; cbn; apply not_elem_of_nil).
    reflexivity.
Qed.

Lemma reconcile_target_step df_customer P F m :
  reconciled df_customer P F → m.1 ∉ P.*1 →
  reconciled df_customer (P ++ [m]) (reconcile_target df_customer F m).
Proof.
  intros Hinv Hfresh. destruct P as [| m0 rest].
  { (* the first target *)
    cbn [reconciled] in Hinv. subst F. rewrite first_target.
    cbn [app reconciled]. split; [done |].
    exists (cleaned df_customer m). split; [left |]. split; [done |].
    left. split; [done |]. intros m' ->%list_elem_of_singleton Hun.
    rewrite unmatched_cleaned by done. left. }
  destruct Hinv as (Hlab & codes & Hcodes & Hlen & Hcase).
  change ((m0 :: rest) ++ [m]) with (m0 :: (rest ++ [m])).
  assert (Hfresh' : m.1 ∉ (cols F).*1) by (fold (labels F); by rewrite Hlab).
  assert (Hlabs : (m0 :: rest ++ [m]).*1 = (m0 :: rest).*1 ++ [m.1])
    by by rewrite (fmap_app _ (m0 :: rest) [m]).
  unfold reconcile_target.
  destruct (first_some (column df_customer) m.2) as [vals |] eqn:Hfirst.
  - (* a candidate is a column of the source *)
    set (vals' := (λ c, Txt (blank_artifacts (str c))) <$> vals).
    assert (Hfound : ¬ unmatched df_customer m).
    { intros Hun. by rewrite unmatched_first_some in Hfirst. }
    unfold set_series.
    destruct ((index_length F =? 0)%nat && negb (length vals' =? 0)%nat) eqn:Hre.
    + (* the series brings the index *)
      apply andb_true_iff in Hre as [Hzero Hnew].
      apply Nat.eqb_eq in Hzero.
      apply negb_true_iff, Nat.eqb_neq in Hnew. cbn [index_length cols].
      set (filled := (λ kv : string * list cell,
                        (kv.1, replicate (length vals') NaN)) <$> cols F).
      assert (Hfl : filled.*1 = (cols F).*1).
      { unfold filled. rewrite <- list_fmap_compose. by apply list_fmap_ext. }
      rewrite put_fresh by by rewrite Hfl.
      rewrite bool_decide_eq_true_2 by apply label_appended.
      cbn [reconciled]. split.
      * unfold labels. cbn [cols]. rewrite !fmap_app, Hfl. fold (labels F).
        by rewrite Hlab, Hlabs.
      * cbn [index_length cols]. exists (replicate (length vals') NaN).
        split; [| split; [apply length_replicate |]].
        -- apply elem_of_app. left. unfold filled.
           apply list_elem_of_fmap. by exists (m0.1, codes).
        -- right. split; [| split; [lia | done]].
           destruct Hcase as [[<- _] | (_ & Hpos & _)]; [| lia].
           rewrite Hzero in Hlen. by destruct codes.
    + (* the index stays *)
      rewrite put_fresh by done.
      rewrite bool_decide_eq_true_2 by apply label_appended.
      cbn [reconciled]. split.
      * unfold labels. cbn [cols]. rewrite !fmap_app. fold (labels F).
        by rewrite Hlab, Hlabs.
      * cbn [index_length cols]. exists codes.
        split; [apply elem_of_app; by left |]. split; [done |].
        destruct Hcase as [[Heq Hall] | Hnan]; [left | by right].
        split; [done |].
        intros m' [-> | Hm']%elem_of_cons Hun.
        -- apply elem_of_app. left. apply Hall; [left | done].
        -- apply elem_of_app in Hm' as [Hm' | ->%list_elem_of_singleton];
             [| done].
           apply elem_of_app. left. apply Hall; [by right | done].
  - (* no candidate is a column: the target is created with the empty text *)
    rewrite bool_decide_eq_false_2 by by rewrite Hlab.
    unfold set_scalar. rewrite put_fresh by done. cbn [reconciled]. split.
    + unfold labels. cbn [cols]. rewrite !fmap_app. fold (labels F).
      by rewrite Hlab, Hlabs.
    + cbn [index_length cols]. exists codes.
      split; [apply elem_of_app; by left |]. split; [done |].
      destruct Hcase as [[Heq Hall] | Hnan]; [left | by right].
      split; [done |].
      intros m' [-> | Hm']%elem_of_cons Hun.
      * apply elem_of_app. left. apply Hall; [left | done].
      * apply elem_of_app in Hm' as [Hm' | ->%list_elem_of_singleton].
        -- apply elem_of_app. left. apply Hall; [by right | done].
        -- apply elem_of_app. right. left.
Qed.

Lemma reconcile_targets df_customer rest P F :
  reconciled df_customer P F → NoDup (P ++ rest).*1 →
  reconciled df_customer (P ++ rest)
    (foldl (reconcile_target df_customer) F rest).
Proof.
  revert P F. induction rest as [| m rest IH]; intros P F Hinv Hnd.
  - by rewrite app_nil_r.
  - simpl. replace (P ++ m :: rest) with ((P ++ [m]) ++ rest)
      by by rewrite <- app_assoc.
    apply IH.
    + apply reconcile_target_step; [done |].
      rewrite fmap_app, fmap_cons in Hnd.
      apply NoDup_app in Hnd as (_ & Hdisj & _).
      intros Hin. apply (Hdisj _ Hin). left.
    + by rewrite <- app_assoc.
Qed.

Lemma column_mapping_nodup : NoDup column_mapping.*1.
Proof. apply (bool_decide_unpack _). by vm_compute. Qed.

Lemma customer_reconciled df_customer :
  reconciled df_customer column_mapping
    (foldl (reconcile_target df_customer) (CFrame 0 []) column_mapping).
Proof.
  apply (reconcile_targets df_customer column_mapping [] (CFrame 0 []));
    [done | apply column_mapping_nodup].
Qed.

Lemma reconciled_labels df_customer m0 rest F :
  reconciled df_customer (m0 :: rest) F → labels F = (m0 :: rest).*1.
Proof. by intros [? _]. Qed.

Lemma normalize_phone_columns_index df :
  index_length (normalize_phone_columns df) = index_length df.
Proof. unfold normalize_phone_columns. by destruct (empty df). Qed.

Lemma normalize_phone_columns_replicate df c n :
  labelled c df = [(c, replicate n (Txt ""))] →
  labelled c (normalize_phone_columns df) = [(c, replicate n (Txt ""))].
Proof.
  intros Hl. unfold normalize_phone_columns.
  destruct (empty df); [done |].
  destruct df as [k l]. cbn [cols index_length].
  match goal with |- context [?f <$> l] => set (h := f) end.
  assert (Hh : ∀ kv, (h kv).1 = kv.1).
  { intros kv. unfold h. by destruct (existsb _ phone_keywords). }
  rewrite (labelled_fmap h c k k l Hh), Hl. cbn [fmap list_fmap].
  unfold h. cbn [fst snd]. destruct (existsb _ _); [| done].
  by rewrite fmap_replicate, phone_of_empty.
Qed.

(** The row filter and the phone clean-up on a reconciled frame. *)
Lemma filtered_unmatched_is_empty df_customer m0 rest F m :
  reconciled df_customer (m0 :: rest) F →
  NoDup (m0 :: rest).*1 →
  m ∈ m0 :: rest → unmatched df_customer m →
  let out :=
    normalize_phone_columns
      (select_rows (keep_code <$> default [] (column F m0.1)) F) in
  labelled m.1 out = [(m.1, replicate (index_length out) (Txt ""))] ∧
  index_length out
  = length (filter (λ v, keep_code v = true) (cleaned df_customer m0)).
Proof.
  intros (Hlab & codes & Hcodes & Hlen & Hcase) HndP Hm Hun out.
  assert (Hnd : NoDup (cols F).*1).
  { change ((cols F).*1) with (labels F). by rewrite Hlab. }
  destruct F as [k l]. cbn [cols index_length] in *.
  assert (Hcol : column (CFrame k l) m0.1 = Some codes).
  { unfold column. by rewrite (labelled_unique l k _ _ Hnd Hcodes). }
  subst out. rewrite Hcol. change (default [] (Some codes)) with codes.
  set (mask := keep_code <$> codes).
  assert (Hidx : index_length (normalize_phone_columns (select_rows mask (CFrame k l)))
                 = length (filter (λ b : bool, b = true) mask))
    by by rewrite normalize_phone_columns_index.
  assert (Hsel : ∀ v, (m.1, v) ∈ l →
            labelled m.1 (select_rows mask (CFrame k l))
            = [(m.1, mask_values mask v)]).
  { intros v Hv. unfold select_rows. cbn [cols].
    rewrite (labelled_fmap _ m.1 _ k) by done.
    by rewrite (labelled_unique l k m.1 v). }
  rewrite Hidx.
  destruct Hcase as [[Heq Hall] | (Hnil & Hpos & Hnan)].
  - split.
    + apply normalize_phone_columns_replicate.
      rewrite (Hsel _ (Hall m Hm Hun)).
      rewrite mask_values_replicate; [done |].
      unfold mask. by rewrite length_fmap.
    + unfold mask. rewrite Heq. apply mask_count.
  - assert (Hmask : mask = replicate k false).
    { unfold mask. rewrite Hnan, fmap_replicate. done. }
    rewrite Hmask, filter_replicate_false, Hnil. split; [| done].
    apply normalize_phone_columns_replicate.
    assert (m.1 ∈ l.*1) as Hin.
    { change (l.*1) with (labels (CFrame k l)). rewrite Hlab.
      apply list_elem_of_fmap. by exists m. }
    apply list_elem_of_fmap in Hin as ([c v] & Hc & Hin). simpl in Hc. subst c.
    rewrite <- Hmask, (Hsel v Hin), Hmask. by rewrite mask_values_none.
Qed.

Lemma customer_unmatched_is_empty df_customer m :
  m ∈ column_mapping → unmatched df_customer m →
  labelled m.1 (customer_frame df_customer)
  = [(m.1, replicate (index_length (customer_frame df_customer)) (Txt ""))] ∧
  index_length (customer_frame df_customer)
  = length (filter (λ v, keep_code v = true)
              ((λ v, Txt (blank_artifacts (str v)))
                 <$> default [] (first_some (column df_customer)
                                   ["客戶代碼"; "Unnamed: 0"]))).
Proof.
  intros Hm Hun. unfold customer_frame. cbv zeta.
  pose proof (customer_reconciled df_customer) as Hinv. revert Hinv.
  generalize (foldl (reconcile_target df_customer) (CFrame 0 []) column_mapping).
  intros F Hinv.
  exact (filtered_unmatched_is_empty df_customer _ _ F m Hinv
           column_mapping_nodup Hm Hun).
Qed.

(** *** Inventory *)

Definition add_missing (d : cframe) (col : string) : cframe :=
  if bool_decide (col ∈ labels d) then d else set_scalar col (Txt "") d.

Lemma add_missing_index d col : index_length (add_missing d col) = index_length d.
Proof. unfold add_missing. by destruct (bool_decide _). Qed.

Lemma add_missing_other d col c :
  c ≠ col → labelled c (add_missing d col) = labelled c d.
Proof.
  intros Hne. unfold add_missing. destruct (bool_decide _) eqn:Hin; [done |].
  apply bool_decide_eq_false in Hin. unfold set_scalar, labelled. cbn [cols].
  rewrite put_fresh by done. rewrite filter_app, filter_cons, filter_nil.
  simpl. rewrite decide_False by done. by rewrite app_nil_r.
Qed.

Lemma add_missing_fresh d c :
  c ∉ labels d →
  labelled c (add_missing d c) = [(c, replicate (index_length d) (Txt ""))].
Proof.
  intros Hc. unfold add_missing. rewrite bool_decide_eq_false_2 by done.
  unfold set_scalar, labelled. cbn [cols].
  rewrite put_fresh by done. rewrite filter_app, filter_cons, filter_nil.
  simpl. rewrite decide_True by done.
  destruct d as [n l]. cbn [cols index_length].
  pose proof (labelled_none l n c Hc) as Hn. unfold labelled in Hn.
  cbn [cols] in Hn. by rewrite Hn.
Qed.

Lemma add_all_missing_index req d :
  index_length (foldl add_missing d req) = index_length d.
Proof.
  revert d. induction req as [| x req IH]; intros d; [done |]. simpl.
  by rewrite IH, add_missing_index.
Qed.

Lemma add_all_missing_other req d c :
  c ∉ req → labelled c (foldl add_missing d req) = labelled c d.
Proof.
  revert d. induction req as [| x req IH]; intros d Hc; [done |]. simpl.
  rewrite IH by (intros H; apply Hc; by right).
  apply add_missing_other. intros ->. apply Hc. left.
Qed.

Lemma add_all_missing_fresh req d c :
  NoDup req → c ∈ req → c ∉ labels d →
  labelled c (foldl add_missing d req)
  = [(c, replicate (index_length d) (Txt ""))].
Proof.
  revert d. induction req as [| x req IH]; intros d Hnd Hin Hc.
  - by apply elem_of_nil in Hin.
  - apply NoDup_cons in Hnd as [Hx Hnd]. simpl.
    apply elem_of_cons in Hin as [-> | Hin].
    + rewrite add_all_missing_other by done. by apply add_missing_fresh.
    + rewrite IH; [by rewrite add_missing_index | done | done |].
      assert (c ≠ x) as Hne by (intros ->; done).
      intros Hl. apply Hc.
      pose proof (add_missing_other d x c Hne) as Hsame.
      destruct (add_missing d x) as [n l] eqn:Ha. destruct d as [n0 l0].
      unfold labels in *. cbn [cols] in *.
      apply list_elem_of_fmap in Hl as ([c' v] & Hc' & Hv). simpl in Hc'. subst c'.
      assert ((c, v) ∈ labelled c (CFrame n l)) as Hin'
        by (apply list_elem_of_filter; by split).
      rewrite Hsame in Hin'. apply list_elem_of_filter in Hin' as [_ Hin'].
      apply list_elem_of_fmap. by exists (c, v).
Qed.

Lemma labelled_of_selection (d : cframe) n req c :
  NoDup req → c ∈ req →
  labelled c (CFrame n (concat ((λ c', labelled c' d) <$> req))) = labelled c d.
Proof.
  unfold labelled at 1. cbn [cols].
  induction req as [| x req IH]; intros Hnd Hin.
  - by apply elem_of_nil in Hin.
  - apply NoDup_cons in Hnd as [Hx Hnd]. rewrite fmap_cons. cbn [concat].
    rewrite filter_app.
    assert (Hkeep : ∀ y, filter (λ kv : string * list cell, kv.1 = c) (labelled y d)
                     = if decide (y = c) then labelled y d else []).
    { intros y. unfold labelled. induction (cols d) as [| kv l IHl]; simpl.
      - by destruct (decide (y = c)).
      - rewrite (filter_cons _ kv l).
        destruct (decide (kv.1 = y)) as [Hy | Hy].
        + rewrite filter_cons, IHl.
          destruct (decide (y = c)) as [-> | Hyc].
          * by rewrite decide_True.
          * by rewrite decide_False by congruence.
        + by rewrite IHl. }
    rewrite Hkeep.
    apply elem_of_cons in Hin as [-> | Hin].
    + rewrite decide_True by done.
      assert (filter (λ kv : string * list cell, kv.1 = x)
                (concat ((λ c', labelled c' d) <$> req)) = []) as ->;
        [| by rewrite app_nil_r].
      clear IH Hnd. induction req as [| y req IHr]; [done |].
      rewrite fmap_cons. cbn [concat].
      rewrite filter_app, Hkeep, decide_False
        by (intros ->; apply Hx; left).
      apply IHr. intros H. apply Hx. by right.
    + rewrite decide_False by (intros ->; done). by apply IH.
Qed.

Lemma required_columns_nodup : NoDup required_columns.
Proof. apply (bool_decide_unpack _). by vm_compute. Qed.

(** A required column that no source label is renamed to (or bears) is
    in [df_final], once, filled with the empty text. *)
Lemma inventory_final_unmatched df c :
  c ∈ required_columns → c ∉ rename_label <$> labels df →
  labelled c (inventory_final df)
  = [(c, replicate (index_length df) (Txt ""))].
Proof.
  intros Hreq Hc. unfold inventory_final.
  rewrite labelled_of_selection by (apply required_columns_nodup || done).
  change (foldl _ ?d required_columns) with (foldl add_missing d required_columns).
  rewrite add_all_missing_fresh; [done | apply required_columns_nodup | done |].
  unfold labels in *. cbn [cols]. rewrite <- list_fmap_compose in Hc.
  rewrite <- list_fmap_compose. exact Hc.
Qed.

Lemma apply_column_replicate c' f df df' c n :
  apply_column c' f df = Some df' →
  f (Txt "") = Txt "" →
  labelled c df = [(c, replicate n (Txt ""))] →
  labelled c df' = [(c, replicate n (Txt ""))] ∧
  index_length df' = index_length df.
Proof.
  unfold apply_column. intros Happ Hf Hl.
  destruct (labelled c' df) as [| kv [| ? ?]]; try done.
  - by injection Happ as <-.
  - injection Happ as <-. split; [| done].
    destruct df as [k l]. cbn [cols index_length].
    rewrite (labelled_fmap _ c _ k); [| intros kv'; by destruct (String.eqb _ _)].
    rewrite Hl. cbn [fmap list_fmap fst snd].
    destruct (String.eqb c c'); [| done].
    by rewrite fmap_replicate, Hf.
Qed.

Lemma created_table_columns :
  Forall (λ c, labelled c (CFrame 0 ((λ c, (c, [])) <$> created_columns))
               = [(c, [])]) required_columns.
Proof. repeat constructor. Qed.

Lemma inventory_final_index df :
  index_length (inventory_final df) = index_length df.
Proof. reflexivity. Qed.

Lemma inventory_table_unmatched df c out :
  c ∈ required_columns → c ∉ rename_label <$> labels df →
  inventory_table df = Some out →
  labelled c out = [(c, replicate (index_length df) (Txt ""))] ∧
  index_length out = index_length df.
Proof.
  intros Hreq Hc. unfold inventory_table.
  destruct (index_length df =? 0)%nat eqn:Hzero.
  - apply Nat.eqb_eq in Hzero. rewrite Hzero. intros [= <-]. split; [| done].
    pose proof created_table_columns as H. rewrite Forall_forall in H.
    by apply H.
  - destruct (apply_column "remark" _ _) as [d1 |] eqn:H1; [| done].
    destruct (apply_column "inventory_type" _ _) as [d2 |] eqn:H2; [| done].
    destruct (bool_decide _); [| done]. intros [= <-].
    destruct (apply_column_replicate _ _ _ _ c _ H1 clean_of_empty
                (inventory_final_unmatched df c Hreq Hc)) as [Hl1 Hi1].
    destruct (apply_column_replicate _ _ _ _ c _ H2 display_of_empty Hl1)
      as [Hl2 Hi2].
    split; [done |]. by rewrite Hi2, Hi1, inventory_final_index.
Qed.

(** *** The claim *)

(** C9.  A target of the customer mapping none of whose candidates (its
    own name and its positional placeholder) is a column of the source is
    a column of the frame handed to the loader, once, and it holds the
    empty text in every row of that frame; the rows of that frame are
    those of the source whose cleaned customer code passes the row filter.
    A required column of the inventory conversion that no source column
    bears or is renamed to is a column of [df_final], once, holding the
    empty text in every row of the source, and it is so in the table
    whenever the conversion produces one.  Neither conversion has a lookup
    that can fail for such a column: both are total functions of the
    source frame. *)
Theorem unmatched_canonical_column_is_empty df_customer m df_inventory c :
  m ∈ column_mapping →
  (∀ x, x ∈ m.2 → x ∉ labels df_customer) →
  c ∈ required_columns →
  c ∉ rename_label <$> labels df_inventory →
  (labelled m.1 (customer_frame df_customer)
   = [(m.1, replicate (index_length (customer_frame df_customer)) (Txt ""))] ∧
   index_length (customer_frame df_customer)
   = length (filter (λ v, keep_code v = true)
               ((λ v, Txt (blank_artifacts (str v)))
                  <$> default [] (first_some (column df_customer)
                                    ["客戶代碼"; "Unnamed: 0"])))) ∧
  labelled c (inventory_final df_inventory)
    = [(c, replicate (index_length df_inventory) (Txt ""))] ∧
  (∀ out, inventory_table df_inventory = Some out →
     labelled c out = [(c, replicate (index_length df_inventory) (Txt ""))] ∧
     index_length out = index_length df_inventory).
Proof.
  intros Hm Hun Hc Hno. split; [| split].
  - by apply customer_unmatched_is_empty.
  - by apply inventory_final_unmatched.
  - intros out. by apply inventory_table_unmatched.
Qed.

(** C9 at work: a customer workbook of three rows, one of them the header
    text, without address columns; and an inventory workbook without a
    remark column. *)
Lemma unmatched_columns_of_two_workbooks :
  labelled "聯絡地址"
    (customer_frame
       (CFrame 3 [("客戶代碼", [Txt "代碼"; Txt "C1"; Txt "C2"]);
                  ("Unnamed: 3", [Txt "名稱"; Txt "Ann"; NaN])]))
  = [("聯絡地址", [Txt ""; Txt ""])] ∧
  labelled "remark"
    (inventory_final
       (CFrame 2 [("產品名稱", [Txt "pump"; Txt "valve"]);
                  ("數量", [Int 3; Int 4])]))
  = [("remark", [Txt ""; Txt ""])].
Proof.
  destruct (unmatched_canonical_column_is_empty
              (CFrame 3 [("客戶代碼", [Txt "代碼"; Txt "C1"; Txt "C2"]);
                         ("Unnamed: 3", [Txt "名稱"; Txt "Ann"; NaN])])
              ("聯絡地址", ["聯絡地址"; "Unnamed: 2"])
              (CFrame 2 [("產品名稱", [Txt "pump"; Txt "valve"]);
                         ("數量", [Int 3; Int 4])])
              "remark") as ((H1 & Hrows) & H2 & _).
  - apply (bool_decide_unpack _). by vm_compute.
  - apply Forall_forall, (bool_decide_unpack _). by vm_compute.
  - apply (bool_decide_unpack _). by vm_compute.
  - apply (bool_decide_unpack _). by vm_compute.
  - split; [| exact H2]. rewrite Hrows in H1. exact H1.
Defined.

End ReconcileFacts.

(** ** The procurement run as a whole *)

Module ProcureRun.
Import Py Sql Procure ProcureFacts.

(** The number of rows the report line accounts for. *)
Definition total (c : tally) : nat :=
  (inserted_count c + updated_count c + skipped_count c + errors_count c)%nat.

(** A row whose order number or serial number reads empty. *)
Definition blank_key (row : gmap string cell) : Prop :=
  strip (str_or_empty (row !! "單據編號")) = "" ∨
  strip (str_or_empty (row !! "序號")) = "".

#[global] Instance blank_key_dec row : Decision (blank_key row).
Proof. unfold blank_key. apply _. Defined.

(** A row one of whose quantities does not fit 64 bits. *)
Definition too_large (row : gmap string cell) : Prop :=
  fits_int64 (to_int (row !! "交易數量")) &&
  fits_int64 (to_int (row !! "倉庫確認數量")) = false.

#[global] Instance too_large_dec row : Decision (too_large row).
Proof. unfold too_large. apply _. Defined.

(** A text in which an opening parenthesis is followed, somewhere, by a
    closing one. *)
Fixpoint has_group (s : string) : bool :=
  match s with
  | String a s' => (Ascii.eqb a "("%char && has_close s') || has_group s'
  | EmptyString => false
  end.


Lemma has_close_remove_groups b s :
  has_close (remove_groups b s) = true → has_close s = true.
Proof.
  revert b. induction s as [| a s IH]; intros b; [by destruct b |].
  destruct b; simpl.
  - intros H%IH. rewrite H. apply orb_true_r.
  - destruct (Ascii.eqb a "(" && has_close s) eqn:Hopen.
    + intros H%IH. rewrite H. apply orb_true_r.
    + simpl. intros [H | H%IH]%orb_true_iff; rewrite H; [done |].
      apply orb_true_r.
Qed.

Section Run.
Variable to_datetime : string → option (Z * Z * Z).

Abbreviation upsert_row := (upsert_row to_datetime).
Abbreviation upsert_rows := (upsert_rows to_datetime).
Abbreviation read_item := (read_item to_datetime).
Abbreviation convert_procuretrack_data := (convert_procuretrack_data to_datetime).


Lemma upsert_row_growth t row :
  length (rows (upsert_row t row).1) =
  (length (rows t) + match (upsert_row t row).2 with Inserted => 1 | _ => 0 end)%nat.
Proof.
  destruct (upsert_row_cases to_datetime t row)
    as [-> | [-> | [(v & _ & ->) | (_ & _ & ->)]]]; simpl; try lia.
  - rewrite length_fmap. lia.
  - by rewrite length_app.
Qed.

Lemma upsert_rows_growth t rs :
  length (rows (upsert_rows t rs).1) =
  (length (rows t) + inserted_count (upsert_rows t rs).2)%nat.
Proof.
  induction rs as [| row rs IH] using rev_ind; [simpl; lia |].
  rewrite upsert_rows_snoc.
  destruct (upsert_rows t rs) as [t1 c]. pose proof (upsert_row_growth t1 row) as H.
  destruct (upsert_row t1 row) as [t2 o]. simpl in *. rewrite H, IH.
  destruct o; simpl; lia.
Qed.

Lemma upsert_row_keys_nodup t row :
  NoDup (keys t) → NoDup (keys (upsert_row t row).1).
Proof.
  intros Hnd.
  destruct (upsert_row_cases to_datetime t row)
    as [-> | [-> | [(v & _ & ->) | (Hnone & _ & ->)]]]; simpl; try done.
  - by rewrite update_by_id_keys.
  - unfold keys, insert_row, with_rows. cbn [rows].
    rewrite fmap_app, list_fmap_singleton, inserted_row_key.
    apply NoDup_app. split; [done |]. split; [| apply NoDup_singleton].
    intros k Hk ->%list_elem_of_singleton. by apply select_id_None in Hnone.
Qed.

Lemma upsert_rows_keys_nodup t rs :
  NoDup (keys t) → NoDup (keys (upsert_rows t rs).1).
Proof.
  rewrite upsert_rows_table. revert t.
  induction rs as [| row rs IH]; intros t Hnd; [done |].
  simpl. by apply IH, upsert_row_keys_nodup.
Qed.









(** X2.  A run never removes a record: afterwards the table holds the
    records it held (or none, if it was absent) and one more for each row
    counted as inserted. *)
Theorem table_grows_by_inserted_count df db t' c :
  convert_procuretrack_data (Some df) db = (true, Some t', Some c) →
  length (rows t') =
  (length (rows (create_table_if_not_exists db)) + inserted_count c)%nat.
Proof.
  unfold Procure.convert_procuretrack_data. destruct (negb _); [done |].
  destruct (Procure.upsert_rows _ _ _) as [t1 c1] eqn:Hrun.
  intros [= <- <-].
  pose proof (upsert_rows_growth
    (ensure_columns (create_table_if_not_exists db)) (df_rows df)) as H.
  rewrite Hrun, ensure_columns_rows in H. exact H.
Qed.

(** X3.  A run creates no duplicate key, whether or not the table declares
    the uniqueness of (po_number, item_serial_number): if no two records
    share their key before the run, none do after it. *)
Theorem run_creates_no_duplicate_key src db t' :
  NoDup (keys (create_table_if_not_exists db)) →
  (convert_procuretrack_data src db).1.2 = Some t' →
  NoDup (keys t').
Proof.
  intros Hnd. unfold Procure.convert_procuretrack_data.
  destruct src as [df |]; [| simpl; by intros ->].
  destruct (negb _); [simpl; by intros -> |].
  destruct (Procure.upsert_rows _ _ _) as [t1 c1] eqn:Hrun.
  simpl. intros [= <-].
  replace t1 with (upsert_rows
    (ensure_columns (create_table_if_not_exists db)) (df_rows df)).1
    by by rewrite Hrun.
  apply upsert_rows_keys_nodup. unfold keys. by rewrite ensure_columns_rows.
Qed.

(** X4.  The schema check is idempotent and touches neither the records
    nor the constraints: checking a checked table adds nothing. *)
Theorem schema_check_is_idempotent t :
  ensure_columns (ensure_columns t) = ensure_columns t ∧
  rows (ensure_columns t) = rows t ∧
  constraints (ensure_columns t) = constraints t.
Proof.
  split; [| split].
  - apply ensure_columns_id. intros c Hc. by apply ensure_columns_has.
  - apply ensure_columns_rows.
  - apply add_missing_columns.
Qed.



End Run.

(** *** Concrete runs *)

Definition two_rows : frame :=
  workbook [row_po1 10 "生產中"; row_po1 12 "已報關"].

(** The loop on [two_rows], started on the table the tool creates. *)
Definition run_of_two_rows : table * tally :=
  Procure.upsert_rows no_date
    (ensure_columns (create_table_if_not_exists None)) (df_rows two_rows).

Lemma run_of_two_rows_result :
  Procure.convert_procuretrack_data no_date (Some two_rows) None =
  (true, Some run_of_two_rows.1, Some run_of_two_rows.2).
Proof. reflexivity. Qed.



(** X2 at work. *)
Lemma growth_of_two_rows :
  length (rows run_of_two_rows.1) = (0 + inserted_count run_of_two_rows.2)%nat.
Proof.
  apply (table_grows_by_inserted_count no_date two_rows None).
  exact run_of_two_rows_result.
Defined.

(** X3 at work on the table of ProcureTrack/app.py, which does not declare
    the pair unique: PO2/1 imported twice is one record. *)
Lemma legacy_keys_stay_distinct :
  ∃ t', (Procure.convert_procuretrack_data no_date
           (Some (workbook [row_po2; row_po2])) (Some legacy_table)).1.2
        = Some t' ∧
        length (rows t') = 2%nat ∧ NoDup (keys t').
Proof.
  set (t' := (Procure.upsert_rows no_date (ensure_columns legacy_table)
                [row_po2; row_po2]).1).
  assert (Hrun : (Procure.convert_procuretrack_data no_date
                    (Some (workbook [row_po2; row_po2]))
                    (Some legacy_table)).1.2 = Some t') by reflexivity.
  exists t'. split; [exact Hrun |]. split; [by vm_compute |].
  apply (run_creates_no_duplicate_key no_date
           (Some (workbook [row_po2; row_po2])) (Some legacy_table) t');
    [by_computation | exact Hrun].
Defined.




(** X7.  After the parenthesised groups are taken out of a delivery date,
    no opening parenthesis that is left is followed by a closing one: a
    second removal would find nothing. *)
Theorem remove_groups_leaves_no_group s :
  has_group (remove_groups false s) = false ∧
  remove_groups false (remove_groups false s) = remove_groups false s.
Proof.
  assert (Hg : ∀ b s, has_group (remove_groups b s) = false).
  { intros b s'. revert b. induction s' as [| a s' IH]; intros b; [by destruct b |].
    destruct b; simpl; [apply IH |].
    destruct (Ascii.eqb a "(" && has_close s') eqn:Hopen; [apply IH |].
    simpl. rewrite IH, orb_false_r.
    destruct (Ascii.eqb a "("); [| done]. simpl in *.
    destruct (has_close (remove_groups false s')) eqn:Hc; [| done].
    apply has_close_remove_groups in Hc. congruence. }
  split; [apply Hg |].
  assert (Hid : ∀ u, has_group u = false → remove_groups false u = u).
  { induction u as [| a u IH]; [done |]. simpl.
    intros [H1 H2]%orb_false_iff. rewrite H1. f_equal. by apply IH. }
  apply Hid, Hg.
Qed.

End ProcureRun.

(** ** The operator's side and the import together *)

Module AppFacts.
Import Py Sql Procure ProcureFacts App.

(** The goods status of a record is unset, empty or one of the fixed
    options; its remark has at most 300 characters. *)
Definition legal_status (v : sqlval) : bool :=
  bool_decide (v ∈ SNull :: SText "" :: (SText <$> STATUS_OPTIONS)).

Definition short_remark (v : sqlval) : bool :=
  match v with
  | SText s => (len s <=? 300)%nat
  | _ => true
  end.

Definition well_kept_row (r : gmap string sqlval) : bool :=
  legal_status (field r "goods_status") && short_remark (field r "remarks").

Definition well_kept (t : table) : bool := forallb well_kept_row (rows t).

Lemma add_missing_all cols l t :
  rows (foldl (add_missing cols) t l) = rows t ∧
  constraints (foldl (add_missing cols) t l) = constraints t ∧
  columns (foldl (add_missing cols) t l) =
    columns t ++ filter (λ c, c.1 ∉ cols) l.
Proof.
  revert t. induction l as [| c l IH]; intros t; simpl.
  - by rewrite app_nil_r.
  - destruct (IH (add_missing cols t c)) as (-> & -> & ->).
    unfold add_missing. rewrite filter_cons.
    case_bool_decide; destruct (decide _); try done; simpl.
    destruct c. by rewrite <- app_assoc.
Qed.

Lemma ensure_db_rows db : rows (ensure_db db) = rows (create_table_if_not_exists db).
Proof. apply add_missing_all. Qed.

Lemma ensure_db_has db c :
  c ∈ added_columns.*1 → c ∈ column_names (ensure_db db).
Proof.
  intros Hc. unfold column_names, ensure_db.
  set (t := create_table_if_not_exists db).
  destruct (add_missing_all (column_names t) added_columns t) as (_ & _ & ->).
  rewrite fmap_app. apply elem_of_app.
  destruct (decide (c ∈ column_names t)) as [Hin | Hnot]; [by left | right].
  apply list_elem_of_fmap in Hc as (ca & -> & Hca).
  apply list_elem_of_fmap. exists ca. split; [done |].
  by apply list_elem_of_filter.
Qed.

Lemma ensure_db_keeps db c :
  c ∈ column_names (create_table_if_not_exists db) →
  c ∈ column_names (ensure_db db).
Proof.
  intros Hc. unfold column_names, ensure_db.
  set (t := create_table_if_not_exists db).
  destruct (add_missing_all (column_names t) added_columns t) as (_ & _ & ->).
  rewrite fmap_app. apply elem_of_app. by left.
Qed.

Lemma add_missing_id cols t l :
  l.*1 ⊆ cols → foldl (add_missing cols) t l = t.
Proof.
  revert t. induction l as [| c l IH]; intros t Hl; [done |]. simpl.
  unfold add_missing at 2. rewrite bool_decide_eq_true_2.
  - apply IH. intros x Hx. apply Hl. by right.
  - apply Hl. by left.
Qed.

(** The possible results of a request: it fails and leaves the store as
    it was, or as [ensure_db] makes it; or it succeeds. *)
Lemma api_update_cases req db :
  ((api_update req db).1 ≠ Success ∧
   ((api_update req db).2 = db ∨ (api_update req db).2 = Some (ensure_db db))) ∨
  ∃ row_id fld,
    payload_id req = Some row_id ∧ payload_field req = Some fld ∧
    fld ∈ allowed_fields ∧
    (fld = "goods_status" → payload_value req ∈ Some <$> STATUS_OPTIONS) ∧
    (fld = "remarks" → short_remark (to_sql (payload_value req)) = true) ∧
    existsb (id_is (SInt row_id)) (rows (ensure_db db)) = true ∧
    has_column (ensure_db db) fld = true ∧
    api_update req db =
      (Success,
       Some (update_field (ensure_db db) row_id fld (to_sql (payload_value req)))).
Proof.
  unfold api_update.
  destruct (negb (logged_in req)); [left; split; [done | by left] |].
  destruct (negb (bool_decide (_ ∈ ALLOWED_DEPARTMENTS)));
    [left; split; [done | by left] |].
  destruct (payload_id req) as [row_id |]; [| left; split; [done | by left]].
  destruct (payload_field req) as [fld |]; [| left; split; [done | by left]].
  destruct (String.eqb fld ""); [left; split; [done | by left] |].
  destruct (bool_decide (fld ∈ allowed_fields)) eqn:Hallowed;
    [| left; split; [done | by left]].
  apply bool_decide_eq_true in Hallowed. cbn [negb].
  destruct (String.eqb fld "goods_status" && _) eqn:Hstatus;
    [left; split; [done | by left] |].
  destruct (String.eqb fld "remarks" && _) eqn:Hremark;
    [left; split; [done | by left] |].
  cbv zeta.
  destruct (has_column (ensure_db db) "id");
    [| left; split; [done | by right]].
  cbn [negb].
  destruct (existsb _ _) eqn:Hex; [| left; split; [done | by right]].
  cbn [negb].
  destruct (has_column (ensure_db db) fld) eqn:Hfld;
    [| left; split; [done | by right]].
  right. exists row_id, fld. repeat split; try done.
  - intros ->. simpl in Hstatus. apply negb_false_iff in Hstatus.
    by apply bool_decide_eq_true in Hstatus.
  - intros ->. simpl in Hremark.
    destruct (payload_value req) as [s |]; [| done]. simpl.
    destruct (String.eqb s "") eqn:Hs.
    + apply String.eqb_eq in Hs. by rewrite Hs.
    + simpl in Hremark. apply Nat.leb_le. apply Nat.ltb_ge in Hremark. lia.
Qed.



(** X9.  A request that succeeds has passed every test: its field is one of
    the five operator fields, a goods status is one of the fixed options, a
    remark has at most 300 characters, and a record with the id exists;
    afterwards every record with that id reads the value in that field,
    and the records with another id are as they were. *)
Theorem successful_update_is_read_back req db t' :
  api_update req db = (Success, Some t') →
  ∃ row_id fld,
    payload_id req = Some row_id ∧ payload_field req = Some fld ∧
    fld ∈ operator_fields ∧
    (fld = "goods_status" → ∃ s, payload_value req = Some s ∧ s ∈ STATUS_OPTIONS) ∧
    (fld = "remarks" → ∀ s, payload_value req = Some s → (len s ≤ 300)%nat) ∧
    (∃ i r, rows t' !! i = Some r ∧ field r "id" = SInt row_id) ∧
    ∀ i r', rows t' !! i = Some r' →
      if id_is (SInt row_id) r'
      then field r' fld = to_sql (payload_value req)
      else rows (ensure_db db) !! i = Some r'.
Proof.
  intros Hrun.
  destruct (api_update_cases req db)
    as [[Hne _] | (row_id & fld & Hid & Hf & Hfld & Hstatus & Hremark & Hex & _ & H)].
  - by rewrite Hrun in Hne.
  - rewrite H in Hrun. injection Hrun as <-.
    assert (Hne : fld ≠ "id").
    { intros ->. revert Hfld. apply (bool_decide_unpack _). by vm_compute. }
    exists row_id, fld. split; [done |]. split; [done |]. split.
    { revert Hfld. apply (Forall_forall (λ f, f ∈ operator_fields) allowed_fields).
      apply (bool_decide_unpack _). by vm_compute. }
    split.
    { intros Hs. apply Hstatus in Hs.
      apply list_elem_of_fmap in Hs as (s & Hs & Hin). by exists s. }
    split.
    { intros Hr s Hs. specialize (Hremark Hr). rewrite Hs in Hremark.
      by apply Nat.leb_le in Hremark. }
    split.
    { apply existsb_exists in Hex as (r & Hin & Hr).
      apply list_elem_of_In, list_elem_of_lookup in Hin as [i Hi].
      exists i. eexists. unfold update_field, with_rows. cbn [rows].
      rewrite list_lookup_fmap, Hi. cbn [fmap option_fmap option_map].
      split; [done |]. rewrite Hr. unfold field.
      rewrite lookup_insert_ne by done.
      unfold id_is in Hr. apply andb_true_iff in Hr as [_ Hr].
      by apply bool_decide_eq_true in Hr. }
    intros i r'. unfold update_field, with_rows. cbn [rows].
    rewrite list_lookup_fmap.
    destruct (rows (ensure_db db) !! i) as [r |] eqn:Hi; [| done].
    cbn [fmap option_fmap option_map]. intros [= <-].
    destruct (id_is (SInt row_id) r) eqn:Hr.
    + replace (id_is (SInt row_id) (<[fld:=to_sql (payload_value req)]> r))
        with true.
      * unfold field. by rewrite lookup_insert_eq.
      * symmetry. unfold id_is, field in *. by rewrite lookup_insert_ne.
    + by rewrite Hr.
Qed.

(** X10.  The two schema checks agree: after [ensure_db] the table declares
    [remarks] and every column the import tool would add, so the import's
    own check adds nothing; and [ensure_db] on its own result adds
    nothing. *)
Theorem schema_checks_compose db :
  ensure_columns (ensure_db db) = ensure_db db ∧
  ensure_db (Some (ensure_db db)) = ensure_db db ∧
  "remarks" ∈ column_names (ensure_db db) ∧
  rows (ensure_db db) = rows (create_table_if_not_exists db).
Proof.
  split; [| split; [| split]].
  - apply ensure_columns_id. intros c Hc. apply ensure_db_has.
    revert c Hc. apply Forall_forall, (bool_decide_unpack _). by vm_compute.
  - unfold ensure_db at 1. cbn [create_table_if_not_exists].
    apply add_missing_id. intros c Hc. by apply ensure_db_has.
  - apply ensure_db_has. apply (bool_decide_unpack _). by vm_compute.
  - apply ensure_db_rows.
Qed.

(** *** Imports and updates in any order *)

Section Interleaving.
Variable to_datetime : string → option (Z * Z * Z).

(** One event on the store: an import of some workbook, or a request to
    [/api/update]. *)
Inductive step : table → table → Prop :=
  | step_import src t t' b c :
      convert_procuretrack_data to_datetime src (Some t) = (b, Some t', c) →
      step t t'
  | step_update req t t' resp :
      api_update req (Some t) = (resp, Some t') →
      step t t'.

Lemma well_kept_spec t :
  well_kept t = true ↔ ∀ r, r ∈ rows t → well_kept_row r = true.
Proof.
  unfold well_kept. rewrite forallb_forall.
  split; intros H r Hr; apply H; by apply list_elem_of_In.
Qed.

Lemma upsert_row_well_kept t row :
  well_kept t = true → well_kept (upsert_row to_datetime t row).1 = true.
Proof.
  intros Hk.
  destruct (upsert_row_cases to_datetime t row)
    as [-> | [-> | [(v & _ & ->) | (_ & _ & ->)]]]; simpl; try done.
  - apply well_kept_spec. intros r' Hr'.
    unfold update_by_id, with_rows in Hr'. cbn [rows] in Hr'.
    apply list_elem_of_fmap in Hr' as (r & -> & Hr).
    pose proof (proj1 (well_kept_spec t) Hk r Hr) as Hrk.
    destruct (id_is v r); [| done].
    unfold well_kept_row, field in *.
    by rewrite !assign_lookup_other
      by (rewrite stored_labels; apply (bool_decide_unpack _); by vm_compute).
  - apply well_kept_spec. intros r' Hr'.
    unfold insert_row, with_rows in Hr'. cbn [rows] in Hr'.
    apply elem_of_app in Hr' as [Hr' | ->%list_elem_of_singleton].
    + by apply (proj1 (well_kept_spec t) Hk).
    + unfold well_kept_row, field.
      rewrite (inserted_row_lookup _ _ _ "goods_status" (SText ""))
        by in_list.
      rewrite stored_as_text.
      rewrite assign_lookup_other
        by (rewrite stored_labels; apply (bool_decide_unpack _); by vm_compute).
      by rewrite lookup_singleton_ne.
Qed.

Lemma upsert_rows_well_kept t rs :
  well_kept t = true → well_kept (upsert_rows to_datetime t rs).1 = true.
Proof.
  rewrite upsert_rows_table. revert t.
  induction rs as [| row rs IH]; intros t Hk; [done |].
  simpl. by apply IH, upsert_row_well_kept.
Qed.

Lemma step_well_kept t t' : step t t' → well_kept t = true → well_kept t' = true.
Proof.
  intros [src t1 t1' b c Hrun | req t1 t1' resp Hrun] Hk.
  - revert Hrun. unfold convert_procuretrack_data.
    destruct src as [df |]; [| by intros [= _ <- _]].
    destruct (negb _); [by intros [= _ <- _] |].
    destruct (upsert_rows _ _ _) as [t2 c2] eqn:Hloop. intros [= _ <- _].
    replace t2 with (upsert_rows to_datetime
      (ensure_columns (create_table_if_not_exists (Some t1))) (df_rows df)).1
      by by rewrite Hloop.
    apply upsert_rows_well_kept. unfold well_kept.
    by rewrite ensure_columns_rows.
  - assert (Hdb : well_kept (ensure_db (Some t1)) = true)
      by (unfold well_kept; by rewrite ensure_db_rows).
    destruct (api_update_cases req (Some t1))
      as [[_ [H | H]] | (row_id & fld & _ & _ & Hfld & Hstatus & Hremark & _ & _ & H)].
    + rewrite Hrun in H. simpl in H. by injection H as ->.
    + rewrite Hrun in H. simpl in H. by injection H as ->.
    + rewrite H in Hrun. injection Hrun as _ <-.
      apply well_kept_spec. intros r' Hr'.
      unfold update_field, with_rows in Hr'. cbn [rows] in Hr'.
      apply list_elem_of_fmap in Hr' as (r & -> & Hr).
      pose proof (proj1 (well_kept_spec _) Hdb r Hr) as Hrk.
      destruct (id_is _ r); [| done].
      unfold well_kept_row, field in *.
      apply andb_true_iff in Hrk as [Hs Hm]. apply andb_true_iff.
      destruct (decide (fld = "goods_status")) as [-> | Hn1].
      * rewrite lookup_insert_eq, lookup_insert_ne by done. split; [| done].
        specialize (Hstatus eq_refl).
        apply list_elem_of_fmap in Hstatus as (s & -> & Hin).
        unfold legal_status. apply bool_decide_eq_true. cbn [default to_sql].
        do 2 apply list_elem_of_further. apply list_elem_of_fmap. by exists s.
      * rewrite (lookup_insert_ne _ fld "goods_status") by done.
        split; [done |].
        destruct (decide (fld = "remarks")) as [-> | Hn2].
        -- rewrite lookup_insert_eq. simpl. by apply Hremark.
        -- by rewrite lookup_insert_ne.
Qed.

(** X11.  Under any sequence of imports and update requests, the goods
    status of every record stays unset, empty or one of the fixed options,
    and every remark stays within 300 characters. *)
Theorem store_stays_well_kept t t' :
  rtc step t t' → well_kept t = true → well_kept t' = true.
Proof.
  induction 1 as [| t1 t2 t3 Hstep _ IH]; [done |].
  intros Hk. by apply IH, (step_well_kept t1).
Qed.

End Interleaving.

(** *** Concrete requests *)

Definition remark_request : request :=
  Request true (Some "總經理室") (Some 1) (Some "remarks") (Some "call vendor").

Definition after_remark : table :=
  update_field (ensure_db (Some after_first_import)) 1 "remarks"
    (SText "call vendor").

Lemma remark_request_succeeds :
  api_update remark_request (Some after_first_import) = (Success, Some after_remark).
Proof. reflexivity. Qed.

(** X9 at work: the remark on record 1 is read back. *)
Lemma remark_is_read_back :
  ∃ i r, rows after_remark !! i = Some r ∧
         field r "id" = SInt 1 ∧
         field r "remarks" = SText "call vendor".
Proof.
  destruct (successful_update_is_read_back remark_request
              (Some after_first_import) after_remark remark_request_succeeds)
    as (row_id & fld & Hid & Hfld & _ & _ & _ & (i & r & Hr & Hrid) & Hread).
  injection Hid as <-. injection Hfld as <-.
  exists i, r. split; [exact Hr |]. split; [exact Hrid |].
  specialize (Hread i r Hr). unfold id_is in Hread.
  rewrite (bool_decide_eq_true_2 _ Hrid) in Hread. exact Hread.
Defined.

(** X11 at work: a first import, a remark, a second import. *)
Lemma remark_then_import_is_well_kept :
  well_kept
    (Procure.upsert_rows no_date (ensure_columns after_remark)
       [row_po1 12 "已報關"]).1 = true.
Proof.
  apply (store_stays_well_kept no_date after_first_import); [| by vm_compute].
  eapply rtc_l; [apply (step_update no_date remark_request _ _ Success),
                   remark_request_succeeds |].
  eapply rtc_l; [| apply rtc_refl].
  by apply (step_import no_date (Some (workbook [row_po1 12 "已報關"])) _ _ true
              (Some (Procure.upsert_rows no_date (ensure_columns after_remark)
                       [row_po1 12 "已報關"]).2)).
Defined.

End AppFacts.

(** ** The batch loader, run again *)

Module LoaderRuns.
Import Loader LoaderFacts.

Section Runs.
Context {row : Type}.
Implicit Types (df : list row) (conn : gmap string (list row)).

(** What the loader returns, in closed form. *)
Lemma loader_result df conn name k :
  (0 < k)%nat →
  insert_data_in_chunks df conn name k =
  Some (match df with
        | [] => delete name conn
        | _ => <[name := df]> (delete name conn)
        end,
        (λ j, take k (drop (j * k) df))%nat
          <$> seq 0 ((length df + k - 1) / k)%nat).
Proof.
  intros Hk. unfold insert_data_in_chunks, range_step.
  replace (k =? 0)%nat with false by (symmetry; apply Nat.eqb_neq; lia).
  rewrite loop_state by done. do 2 f_equal.
  destruct df as [| x df]; simpl length.
  - by rewrite Nat.div_small by lia.
  - set (n := S (length df)).
    pose proof (turns_cover n k Hk) as Hcover.
    destruct ((n + k - 1) / k)%nat as [| m] eqn:Hm; [unfold n in *; lia |].
    by rewrite take_ge by done.
Qed.

(** X12.  Loading a frame into a table that already holds it changes
    nothing: the loader replaces the table, it never appends to what was
    there, so a conversion run twice leaves what it left the first
    time. *)
Theorem reloading_changes_nothing df conn name k conn1 chunks :
  (0 < k)%nat →
  insert_data_in_chunks df conn name k = Some (conn1, chunks) →
  insert_data_in_chunks df conn1 name k = Some (conn1, chunks).
Proof.
  intros Hk. rewrite !loader_result by done. intros [= <- <-].
  do 2 f_equal. destruct df as [| x df].
  - apply delete_delete_eq.
  - by rewrite delete_insert_eq, delete_delete_eq.
Qed.


End Runs.

(** X12 at work: seven rows loaded twice. *)
Lemma seven_rows_loaded_twice :
  let conn1 : gmap string (list nat) := {["repair_data" := seq 0 7]} in
  insert_data_in_chunks (seq 0 7) conn1 "repair_data" 1000
  = Some (conn1, [seq 0 7]).
Proof.
  intros conn1.
  apply (reloading_changes_nothing (seq 0 7) ∅ "repair_data" 1000);
    [lia | reflexivity].
Defined.


End LoaderRuns.

(** ** The date normaliser on a whole frame *)

Module DatesFrame.
Import Py Dates DatesFacts.

Section Facts.
Variable to_datetime_format : string → string → option timestamp.
Variable to_datetime_any : string → option timestamp.

Abbreviation convert_datetime_column :=
  (convert_datetime_column to_datetime_format to_datetime_any).
Abbreviation convert_datetime_optimized :=
  (convert_datetime_optimized to_datetime_format to_datetime_any).
Abbreviation text_strategies :=
  (text_strategies to_datetime_format to_datetime_any).

(** The number of values of a column. *)
Definition size (s : series) : nat := length (cells s).

Lemma attempt_length test out :
  attempt test = Some out → length out = length test.
Proof. intros [_ ->]%attempt_Some. apply length_fmap. Qed.

Lemma try_formats_length fmts cleaned out :
  try_formats to_datetime_format fmts cleaned = Some out →
  length out = length cleaned.
Proof.
  induction fmts as [| fmt fmts IH]; [done |]. simpl.
  destruct (attempt _) as [o |] eqn:Ha; [| done].
  intros [= <-]. by rewrite (attempt_length _ _ Ha), length_fmap.
Qed.

Lemma text_strategies_length s : length (text_strategies s) = size s.
Proof.
  unfold Dates.text_strategies, size.
  destruct (try_formats _ _ _) as [out |] eqn:Ht.
  - by rewrite (try_formats_length _ _ _ Ht), length_fmap.
  - destruct (attempt _) as [out |] eqn:Ha.
    + by rewrite (attempt_length _ _ Ha), !length_fmap.
    + destruct s; simpl; by rewrite ?length_fmap.
Qed.

(** X14.  The normaliser keeps the number of values of a column: every
    strategy, and the fallback, return one value for each value read. *)
Theorem normaliser_keeps_column_length s :
  size (convert_datetime_column s) = size s.
Proof.
  unfold Dates.convert_datetime_column.
  destruct (non_null_count s =? 0)%nat; [done |].
  destruct s as [v | v | v].
  - unfold size. simpl. by rewrite !length_fmap.
  - destruct (existsb in_serial_range v).
    + destruct (attempt _) as [out |] eqn:Ha.
      * unfold size. simpl.
        by rewrite (attempt_length _ _ Ha), !length_fmap.
      * unfold size at 1. simpl. apply text_strategies_length.
    + unfold size at 1. simpl. apply text_strategies_length.
  - unfold size at 1. simpl. apply text_strategies_length.
Qed.

Lemma convert_step_lookup (df : gmap string series) col c :
  match df !! col with
  | Some s => <[col := convert_datetime_column s]> df
  | None => df
  end !! c =
  if bool_decide (c = col) then convert_datetime_column <$> df !! c else df !! c.
Proof.
  case_bool_decide as Hc.
  - subst c. destruct (df !! col) as [s |] eqn:Hs.
    + by rewrite lookup_insert_eq.
    + by rewrite Hs.
  - destruct (df !! col) as [s |]; [| done]. by rewrite lookup_insert_ne.
Qed.

(** X15.  On a frame, the normaliser rewrites the date columns the frame
    has, each once, and nothing else: a column that is not listed is
    untouched, a listed column that the frame lacks is not created, and
    the frame keeps its labels. *)
Theorem normaliser_rewrites_listed_columns df date_columns :
  NoDup date_columns →
  ∀ col,
    convert_datetime_optimized df date_columns !! col =
    if bool_decide (col ∈ date_columns)
    then convert_datetime_column <$> df !! col
    else df !! col.
Proof.
  unfold Dates.convert_datetime_optimized.
  revert df. induction date_columns as [| c cs IH]; intros df Hnd col; [done |].
  apply NoDup_cons in Hnd as [Hc Hnd]. simpl.
  rewrite IH by done. rewrite !convert_step_lookup.
  destruct (decide (col = c)) as [-> | Hne].
  - rewrite (bool_decide_eq_false_2 (c ∈ cs)) by done.
    rewrite (bool_decide_eq_true_2 (c = c)) by done.
    by rewrite (bool_decide_eq_true_2 (c ∈ c :: cs)) by left.
  - rewrite (bool_decide_eq_false_2 (col = c)) by done.
    destruct (decide (col ∈ cs)) as [Hin | Hnot].
    + rewrite (bool_decide_eq_true_2 (col ∈ cs)) by done.
      by rewrite (bool_decide_eq_true_2 (col ∈ c :: cs)) by by right.
    + rewrite (bool_decide_eq_false_2 (col ∈ cs)) by done.
      rewrite (bool_decide_eq_false_2 (col ∈ c :: cs)); [done |].
      by intros [? | ?]%elem_of_cons.
Qed.

End Facts.

(** X15 at work on the date columns of the sales conversion: the frame
    has 發貨日期 and 備註 and lacks 單據日期. *)
Lemma remark_column_is_untouched :
  let df : gmap string series :=
    {["發貨日期" := Objects [Txt "2020/01/16"]; "備註" := Objects [Txt "2020/01/16"]]} in
  let out := Dates.convert_datetime_optimized strptime (λ _, None) df
               ["發貨日期"; "單據日期"] in
  out !! "備註" = Some (Objects [Txt "2020/01/16"]) ∧
  out !! "單據日期" = None ∧
  out !! "發貨日期" = Some (Objects [Txt "2020-01-16 00:00:00"]).
Proof.
  intros df out. unfold out.
  rewrite !(normaliser_rewrites_listed_columns strptime (λ _, None) df
              ["發貨日期"; "單據日期"])
    by (apply (bool_decide_unpack _); by vm_compute).
  split; [reflexivity |]. split; [reflexivity |]. by vm_compute.
Defined.

End DatesFrame.

(** ** The text clean-up of phone and remark columns *)

Module CleanFacts.
Import Py Reconcile ReconcileFacts.

Fixpoint all_digits (s : string) : bool :=
  match s with
  | String a s' => is_digit a && all_digits s'
  | EmptyString => true
  end.

(** A hyphen that stands between two digits, the first of which may be
    the character before the text. *)
Fixpoint digit_hyphen_digit (after_digit : bool) (s : string) : bool :=
  match s with
  | String a s' =>
      (Ascii.eqb a "-" && after_digit && starts_with_digit s') ||
      digit_hyphen_digit (is_digit a) s'
  | EmptyString => false
  end.

Definition is_phone_label (c : string) : bool :=
  existsb (λ keyword, contains keyword c) phone_keywords.

Lemma digit_is_no_space a : is_digit a = true → is_space a = false.
Proof.
  unfold is_digit, is_space. intros [H1 H2]%andb_true_iff.
  apply Z.leb_le in H1, H2. apply orb_false_iff.
  split; apply andb_false_iff; right; apply Z.leb_gt; lia.
Qed.

Lemma digit_is_lower a : is_digit a = true → lower_ascii a = a.
Proof.
  unfold is_digit, lower_ascii. intros [H1 H2]%andb_true_iff.
  apply Z.leb_le in H1, H2.
  replace (65 <=? nat_of_ascii a)%nat with false; [done |].
  symmetry. apply Nat.leb_gt. lia.
Qed.

Lemma all_digits_digits_only s : all_digits (digits_only s) = true.
Proof.
  induction s as [| a s IH]; [done |]. simpl.
  destruct (is_digit a) eqn:Ha; [| done]. simpl. by rewrite Ha.
Qed.

Lemma digits_only_id d : all_digits d = true → digits_only d = d.
Proof.
  induction d as [| a d IH]; [done |]. simpl.
  intros [Ha Hd]%andb_true_iff. rewrite Ha. f_equal. by apply IH.
Qed.

Lemma lower_digits d : all_digits d = true → lower d = d.
Proof.
  induction d as [| a d IH]; [done |]. simpl.
  intros [Ha Hd]%andb_true_iff. by rewrite digit_is_lower, IH.
Qed.

Lemma digit_is_no_space2 a b : is_digit a = true → is_space2 a b = false.
Proof.
  unfold is_digit, is_space2. intros [H1 H2]%andb_true_iff.
  apply Z.leb_le in H1, H2. cbv zeta.
  replace (Z.of_nat (nat_of_ascii a) =? 194) with false; [done |].
  symmetry. apply Z.eqb_neq. lia.
Qed.

Lemma digit_is_no_space3 a b c : is_digit a = true → is_space3 a b c = false.
Proof.
  unfold is_digit, is_space3. intros [H1 H2]%andb_true_iff.
  apply Z.leb_le in H1, H2. cbv zeta.
  replace (Z.of_nat (nat_of_ascii a) =? 225) with false
    by (symmetry; apply Z.eqb_neq; lia).
  replace (Z.of_nat (nat_of_ascii a) =? 226) with false
    by (symmetry; apply Z.eqb_neq; lia).
  replace (Z.of_nat (nat_of_ascii a) =? 227) with false
    by (symmetry; apply Z.eqb_neq; lia).
  done.
Qed.

Lemma digit_starts_no_space a d :
  is_digit a = true → is_space_char (String a d) = false.
Proof.
  intros Ha. destruct d as [| b [| c [| e d]]]; cbn [is_space_char];
    [by apply digit_is_no_space | by apply digit_is_no_space2
    | by apply digit_is_no_space3 | done].
Qed.

Lemma rstrip_digits d : all_digits d = true → rstrip d = d.
Proof.
  induction d as [| a d IH]; [done |]. cbn [rstrip all_digits].
  intros [Ha Hd]%andb_true_iff. rewrite IH by done. cbv zeta.
  by rewrite digit_starts_no_space.
Qed.

Lemma strip_digits d : all_digits d = true → strip d = d.
Proof.
  intros Hd. unfold strip.
  replace (lstrip d) with d; [by apply rstrip_digits |].
  destruct d as [| a d]; [done |]. cbn [all_digits lstrip] in *.
  apply andb_true_iff in Hd as [Ha _]. rewrite digit_is_no_space by done.
  destruct d as [| b d]; [done |]. rewrite digit_is_no_space2 by done.
  destruct d as [| c d]; [done |]. by rewrite digit_is_no_space3.
Qed.

Lemma phone_of_digits d :
  all_digits d = true → normalize_phone_value (Txt d) = Txt d.
Proof.
  intros Hd. unfold normalize_phone_value. cbn [str].
  rewrite strip_digits, lower_digits, digits_only_id by done.
  rewrite bool_decide_eq_false_2; [done |].
  intros [-> | [-> | []%elem_of_nil]%elem_of_cons]%elem_of_cons; by vm_compute in Hd.
Qed.

(** X16.  A phone value is reduced to its digits, and the reduction is
    idempotent: for a value whose text is of ASCII characters, the result
    is a text of digits only, which a second reduction returns as it
    is. *)
Theorem phone_value_is_digits c :
  is_ascii (str c) = true →
  ∃ d, normalize_phone_value c = Txt d ∧
       all_digits d = true ∧
       normalize_phone_value (Txt d) = Txt d.
Proof.
  intros _.
  assert (H : ∃ d, normalize_phone_value c = Txt d ∧ all_digits d = true).
  { unfold normalize_phone_value. destruct c as [| s | z]; [by exists "" | |];
      (destruct (bool_decide _); [by exists "" |]);
      eexists; (split; [reflexivity | apply all_digits_digits_only]). }
  destruct H as (d & Hc & Hd). exists d. split; [done |]. split; [done |].
  by apply phone_of_digits.
Qed.

Lemma remove_digit_hyphens_head s :
  starts_with_digit (remove_digit_hyphens false s) = starts_with_digit s.
Proof. destruct s as [| a s]; [done |]. simpl. by rewrite andb_false_r. Qed.

Lemma digit_hyphen_digit_head b1 b2 s :
  starts_with_digit s = true →
  digit_hyphen_digit b1 s = digit_hyphen_digit b2 s.
Proof.
  destruct s as [| a s]; [done |]. simpl. intros Ha.
  replace (Ascii.eqb a "-") with false; [done |].
  symmetry. apply Ascii.eqb_neq. intros ->. by vm_compute in Ha.
Qed.

Lemma no_digit_hyphen_digit_left b s :
  digit_hyphen_digit b (remove_digit_hyphens b s) = false.
Proof.
  revert b. induction s as [| a s IH]; intros b; [done |]. simpl.
  destruct (Ascii.eqb a "-" && b && starts_with_digit s) eqn:Hcond.
  - apply andb_true_iff in Hcond as [[Ha Hb]%andb_true_iff Hs].
    rewrite (digit_hyphen_digit_head b false); [apply IH |].
    by rewrite remove_digit_hyphens_head.
  - simpl. rewrite IH, orb_false_r.
    destruct (Ascii.eqb a "-") eqn:Ha; [| done].
    destruct b; [| done]. simpl in *.
    apply Ascii.eqb_eq in Ha. subst a. cbn [is_digit nat_of_ascii].
    replace (is_digit "-") with false by by vm_compute.
    by rewrite remove_digit_hyphens_head.
Qed.

Lemma remove_digit_hyphens_id b u :
  digit_hyphen_digit b u = false → remove_digit_hyphens b u = u.
Proof.
  revert b. induction u as [| a u IH]; intros b; [done |]. simpl.
  intros [H1 H2]%orb_false_iff. rewrite H1. f_equal. by apply IH.
Qed.

(** X17.  After the clean-up of a remark no hyphen stands between two
    digits, and the removal is idempotent (a hyphen beside another hyphen
    or a letter stays): for a value whose text is of ASCII characters, the
    result is a text without such a hyphen, which a second removal leaves
    as it is. *)
Theorem remark_has_no_hyphen_between_digits c :
  is_ascii (str c) = true →
  ∃ d, _clean_value c = Txt d ∧
       digit_hyphen_digit false d = false ∧
       remove_digit_hyphens false d = d.
Proof.
  intros _.
  assert (H : ∃ d, _clean_value c = Txt d ∧ digit_hyphen_digit false d = false).
  { unfold _clean_value. destruct c as [| s | z]; [by exists "" | |];
      (destruct (bool_decide _); [by exists "" |]);
      eexists; (split; [reflexivity | apply no_digit_hyphen_digit_left]). }
  destruct H as (d & Hc & Hd). exists d. split; [done |]. split; [done |].
  by apply remove_digit_hyphens_id.
Qed.

(** X16 and X17 at work on a phone number and on a remark. *)
Lemma phone_number_is_reduced :
  normalize_phone_value (Txt " (02) 2345-6789 ") = Txt "0223456789" ∧
  normalize_phone_value (Txt "0223456789") = Txt "0223456789".
Proof.
  destruct (phone_value_is_digits (Txt " (02) 2345-6789 "))
    as (d & Hd & _ & Hid); [reflexivity |].
  assert (Hval : normalize_phone_value (Txt " (02) 2345-6789 ") = Txt "0223456789")
    by reflexivity.
  rewrite Hval in Hd. injection Hd as <-. split; [exact Hval | exact Hid].
Defined.

Lemma remark_hyphens_are_removed :
  _clean_value (Txt "tel 02-2345-6789 a-b 1--2") = Txt "tel 0223456789 a-b 1--2" ∧
  remove_digit_hyphens false "tel 0223456789 a-b 1--2" = "tel 0223456789 a-b 1--2".
Proof.
  destruct (remark_has_no_hyphen_between_digits (Txt "tel 02-2345-6789 a-b 1--2"))
    as (d & Hd & _ & Hid); [reflexivity |].
  assert (Hval : _clean_value (Txt "tel 02-2345-6789 a-b 1--2")
                 = Txt "tel 0223456789 a-b 1--2") by reflexivity.
  rewrite Hval in Hd. injection Hd as <-. split; [exact Hval | exact Hid].
Defined.

End CleanFacts.

(** ** The shape of the reconciled frames *)

Module ReconcileShape.
Import Py Reconcile ReconcileFacts CleanFacts.

Lemma mask_values_kept {A} (p : A → bool) (vals : list A) :
  Forall (λ v, p v = true) (mask_values (p <$> vals) vals).
Proof.
  induction vals as [| v vals IH]; [constructor |]. simpl.
  destruct (p v) eqn:Hv; [by constructor | done].
Qed.

Lemma select_rows_labels mask df : labels (select_rows mask df) = labels df.
Proof.
  unfold labels, select_rows. cbn [cols]. rewrite <- list_fmap_compose.
  by apply list_fmap_ext.
Qed.

Lemma normalize_phone_columns_labels df :
  labels (normalize_phone_columns df) = labels df.
Proof.
  unfold normalize_phone_columns. destruct (empty df); [done |].
  unfold labels. cbn [cols]. rewrite <- list_fmap_compose.
  apply list_fmap_ext. intros i [c vals] _. unfold compose. cbn [fst].
  by destruct (existsb _ _).
Qed.

Lemma normalize_phone_columns_other df c vals :
  is_phone_label c = false →
  labelled c df = [(c, vals)] →
  labelled c (normalize_phone_columns df) = [(c, vals)].
Proof.
  intros Hc Hl. unfold normalize_phone_columns.
  destruct (empty df); [done |].
  destruct df as [n l]. cbn [cols index_length].
  match goal with |- context [?f <$> l] => set (h := f) end.
  assert (Hh : ∀ kv, (h kv).1 = kv.1).
  { intros kv. unfold h. by destruct (existsb _ phone_keywords). }
  rewrite (labelled_fmap h c n n l Hh), Hl. cbn [fmap list_fmap].
  unfold h. cbn [fst]. fold (is_phone_label c). by rewrite Hc.
Qed.

(** X18.  Whatever the columns of the customer workbook, the frame loaded
    into [customer_basic] has exactly the eleven canonical columns, in the
    order of the mapping, and no record of it has an empty code, a missing
    code or one of the two header texts as its code. *)
Theorem customer_frame_shape df_customer :
  labels (customer_frame df_customer) = column_mapping.*1 ∧
  ∃ codes,
    labelled "客戶代碼" (customer_frame df_customer) = [("客戶代碼", codes)] ∧
    Forall (λ v, v ≠ Txt "" ∧ v ≠ Txt "客戶資料" ∧ v ≠ Txt "代碼" ∧ v ≠ NaN) codes.
Proof.
  unfold customer_frame.
  pose proof (customer_reconciled df_customer) as Hinv. revert Hinv.
  generalize (foldl (reconcile_target df_customer) (CFrame 0 []) column_mapping).
  intros F Hlab%reconciled_labels. cbv zeta.
  split; [by rewrite normalize_phone_columns_labels, select_rows_labels |].
  assert (Hnd : NoDup (cols F).*1).
  { change ((cols F).*1) with (labels F). rewrite Hlab.
    apply column_mapping_nodup. }
  assert (Hin : "客戶代碼" ∈ (cols F).*1).
  { change ((cols F).*1) with (labels F). rewrite Hlab.
    apply (bool_decide_unpack _). by vm_compute. }
  apply list_elem_of_fmap in Hin as ([c v] & Hc & Hin). simpl in Hc. subst c.
  destruct F as [k l]. cbn [cols] in *.
  pose proof (labelled_unique l k "客戶代碼" v Hnd Hin) as Hl.
  exists (mask_values (keep_code <$> v) v). split.
  - apply normalize_phone_columns_other; [by vm_compute |].
    unfold select_rows. cbn [cols].
    rewrite (labelled_fmap _ "客戶代碼" _ k) by done.
    unfold column. rewrite Hl. by cbn.
  - eapply Forall_impl; [apply mask_values_kept |].
    intros x Hx. unfold keep_code in Hx.
    rewrite !andb_true_iff, !bool_decide_eq_true in Hx. tauto.
Qed.

(** *** Inventory *)

Lemma labelled_labels c d : Forall (λ kv, kv.1 = c) (labelled c d).
Proof.
  unfold labelled. apply Forall_forall. intros kv Hkv.
  by apply list_elem_of_filter in Hkv as [? _].
Qed.

Lemma add_missing_present d col c :
  c ∈ labels d →
  c ∈ labels (add_missing d col) ∧
  labelled c (add_missing d col) = labelled c d.
Proof.
  intros Hc. unfold add_missing.
  destruct (bool_decide (col ∈ labels d)) eqn:Hb; [done |].
  apply bool_decide_eq_false in Hb. split.
  - unfold set_scalar, labels in *. cbn [cols].
    rewrite put_fresh by done. rewrite fmap_app. apply elem_of_app. by left.
  - assert (c ≠ col) as Hne by (by intros ->).
    pose proof (add_missing_other d col c Hne) as H. unfold add_missing in H.
    by rewrite bool_decide_eq_false_2 in H.
Qed.

Lemma add_all_missing_present req d c :
  c ∈ labels d → labelled c (foldl add_missing d req) = labelled c d.
Proof.
  revert d. induction req as [| x req IH]; intros d Hc; [done |]. simpl.
  destruct (add_missing_present d x c Hc) as [Hin Hsame].
  by rewrite IH.
Qed.

(** The frame [df_mapped] of [inventory_final], before the selection. *)
Definition renamed (df : cframe) : cframe :=
  CFrame (index_length df) ((λ kv, (rename_label kv.1, kv.2)) <$> cols df).

Definition completed (df : cframe) : cframe :=
  foldl add_missing (renamed df) required_columns.

Lemma inventory_final_unfold df :
  inventory_final df =
  CFrame (index_length df)
    (concat ((λ c, labelled c (completed df)) <$> required_columns)).
Proof.
  unfold inventory_final, completed, renamed. cbv zeta.
  by change (foldl _ ?d required_columns)
    with (foldl add_missing d required_columns).
Qed.

Lemma completed_labelled df c :
  c ∈ required_columns →
  labelled c (completed df) =
  if bool_decide (c ∈ labels (renamed df)) then labelled c (renamed df)
  else [(c, replicate (index_length df) (Txt ""))].
Proof.
  intros Hc. unfold completed. case_bool_decide as Hin.
  - by apply add_all_missing_present.
  - by rewrite add_all_missing_fresh by (apply required_columns_nodup || done).
Qed.

Lemma labelled_nonempty c d : c ∈ labels d → labelled c d ≠ [].
Proof.
  unfold labels, labelled. intros ([c' v] & Hc & Hin)%list_elem_of_fmap Hnil.
  simpl in Hc. subst c'.
  assert ((c, v) ∈ filter (λ kv : string * list cell, kv.1 = c) (cols d)) as H
    by by apply list_elem_of_filter.
  rewrite Hnil in H. by apply elem_of_nil in H.
Qed.

Lemma completed_nonempty df c :
  c ∈ required_columns → labelled c (completed df) ≠ [].
Proof.
  intros Hc. rewrite completed_labelled by done. case_bool_decide; [| done].
  by apply labelled_nonempty.
Qed.

Lemma labels_of_selection d req :
  (concat ((λ c, labelled c d) <$> req)).*1 =
  concat ((λ c, replicate (length (labelled c d)) c) <$> req).
Proof.
  induction req as [| c req IH]; [done |].
  rewrite !fmap_cons. cbn [concat]. rewrite fmap_app, IH. f_equal.
  pose proof (labelled_labels c d) as H. clear IH.
  induction H as [| kv l Hkv _ IHl]; [done |].
  rewrite fmap_cons, IHl, Hkv. done.
Qed.

Lemma nodup_selection (count : string → nat) req :
  NoDup (concat ((λ c, replicate (count c) c) <$> req)) →
  ∀ c, c ∈ req → (count c ≤ 1)%nat.
Proof.
  induction req as [| x req IH]; intros Hnd c Hc;
    [by apply elem_of_nil in Hc |].
  rewrite fmap_cons in Hnd. cbn [concat] in Hnd.
  apply NoDup_app in Hnd as (Hx & _ & Hrest).
  apply elem_of_cons in Hc as [-> | Hc]; [| by apply IH].
  destruct (count x) as [| [| n]]; [lia | lia |].
  simpl in Hx. apply NoDup_cons in Hx as [Hx _]. exfalso. apply Hx. left.
Qed.

Lemma selection_of_singletons (count : string → nat) req :
  (∀ c, c ∈ req → count c = 1%nat) →
  concat ((λ c, replicate (count c) c) <$> req) = req.
Proof.
  induction req as [| x req IH]; intros H; [done |].
  rewrite fmap_cons. cbn [concat]. rewrite (H x) by left. simpl. f_equal.
  apply IH. intros c Hc. apply H. by right.
Qed.

Lemma apply_column_labels c f df df' :
  apply_column c f df = Some df' →
  labels df' = labels df ∧ index_length df' = index_length df.
Proof.
  unfold apply_column. destruct (labelled c df) as [| kv [| ? ?]]; try done.
  - by intros [= <-].
  - intros [= <-]. split; [| done]. unfold labels. cbn [cols].
    rewrite <- list_fmap_compose. apply list_fmap_ext.
    intros i kv' _. unfold compose. by destruct (String.eqb _ _).
Qed.

Lemma filter_two {A} (P : A → Prop) `{∀ x, Decision (P x)} (l : list A) i j x y :
  (i < j)%nat → l !! i = Some x → l !! j = Some y → P x → P y →
  (2 ≤ length (filter P l))%nat.
Proof.
  intros Hij Hi Hj Hx Hy.
  rewrite <- (take_drop j l), filter_app, length_app.
  assert (1 ≤ length (filter P (take j l)))%nat.
  { assert (x ∈ filter P (take j l)) as Hin.
    { apply list_elem_of_filter. split; [done |].
      apply list_elem_of_lookup. exists i. by rewrite lookup_take_lt. }
    destruct (filter P (take j l)); [by apply elem_of_nil in Hin | simpl; lia]. }
  assert (1 ≤ length (filter P (drop j l)))%nat.
  { assert (y ∈ filter P (drop j l)) as Hin.
    { apply list_elem_of_filter. split; [done |].
      apply list_elem_of_lookup. exists 0%nat.
      by rewrite lookup_drop, Nat.add_0_r. }
    destruct (filter P (drop j l)); [by apply elem_of_nil in Hin | simpl; lia]. }
  lia.
Qed.

Lemma inventory_final_labels df :
  labels (inventory_final df) =
  concat ((λ c, replicate (length (labelled c (completed df))) c)
            <$> required_columns).
Proof.
  rewrite inventory_final_unfold. unfold labels. cbn [cols].
  apply labels_of_selection.
Qed.

Lemma inventory_table_labels df out :
  index_length df ≠ 0%nat →
  inventory_table df = Some out →
  labels out = labels (inventory_final df) ∧
  index_length out = index_length df ∧
  NoDup (labels (inventory_final df)).
Proof.
  intros Hn. unfold inventory_table.
  replace (index_length df =? 0)%nat with false
    by (symmetry; by apply Nat.eqb_neq).
  generalize (inventory_final_unfold df).
  generalize (inventory_final df). intros fin Hfin.
  destruct (apply_column "remark" _ _) as [d1 |] eqn:H1; [| done].
  destruct (apply_column "inventory_type" _ _) as [d2 |] eqn:H2; [| done].
  case_bool_decide as Hnd; [| done]. intros [= <-].
  apply apply_column_labels in H1 as [Hl1 Hi1], H2 as [Hl2 Hi2].
  rewrite Hl2, Hl1 in Hnd |- *. rewrite Hi2, Hi1.
  split; [done |]. split; [by rewrite Hfin | done].
Qed.

Lemma completed_one df :
  NoDup (labels (inventory_final df)) →
  ∀ c, c ∈ required_columns → length (labelled c (completed df)) = 1%nat.
Proof.
  rewrite inventory_final_labels. intros Hnd c Hc.
  pose proof (nodup_selection _ _ Hnd c Hc) as Hle. cbv beta in Hle.
  pose proof (completed_nonempty df c Hc) as Hne.
  destruct (labelled c (completed df)) as [| ? [| ? ?]];
    [done | done | cbn [length] in Hle; lia].
Qed.

Lemma renamed_at_most_one df c :
  c ∈ required_columns →
  length (labelled c (completed df)) = 1%nat →
  (length (labelled c (renamed df)) ≤ 1)%nat.
Proof.
  intros Hreq Hone. rewrite completed_labelled in Hone by done.
  case_bool_decide as Hin; [lia |].
  rewrite (labelled_none _ (index_length df) c Hin : labelled c (renamed df) = []).
  cbn [length]. lia.
Qed.

Lemma renamed_lookup df i a va :
  cols df !! i = Some (a, va) →
  cols (renamed df) !! i = Some (rename_label a, va).
Proof.
  intros Hi. unfold renamed. cbn [cols]. by rewrite list_lookup_fmap, Hi.
Qed.

(** X19.  When the inventory conversion loads a workbook with rows, the
    table has exactly the twelve required columns, in their order, and as
    many rows as the workbook; and this happens only when no two columns
    of the workbook are renamed to the same required column: a workbook in
    which two labels fall under one rule makes the conversion fail. *)
Theorem inventory_table_shape df out :
  index_length df ≠ 0%nat →
  inventory_table df = Some out →
  labels out = required_columns ∧
  index_length out = index_length df ∧
  ∀ i j a b,
    labels df !! i = Some a → labels df !! j = Some b →
    rename_label a ∈ required_columns →
    rename_label a = rename_label b →
    i = j.
Proof.
  intros Hn Hrun.
  destruct (inventory_table_labels df out Hn Hrun) as (Hl & Hi & Hnd).
  pose proof (completed_one df Hnd) as Hone.
  split; [| split; [done |]].
  - rewrite Hl, inventory_final_labels. by apply selection_of_singletons.
  - intros i j a b Hai Hbj Hreq Hsame.
    pose proof (renamed_at_most_one df _ Hreq (Hone _ Hreq)) as Hlen.
    unfold labels in Hai, Hbj. rewrite list_lookup_fmap in Hai, Hbj.
    destruct (cols df !! i) as [[a' va] |] eqn:Hci; [| done].
    destruct (cols df !! j) as [[b' vb] |] eqn:Hcj; [| done].
    cbn in Hai, Hbj. injection Hai as ->. injection Hbj as ->.
    apply renamed_lookup in Hci, Hcj. rewrite <- Hsame in Hcj.
    unfold labelled in Hlen.
    destruct (Nat.lt_total i j) as [Hlt | [Heq | Hgt]]; [| done |]; exfalso.
    + pose proof (filter_two (λ kv : string * list cell, kv.1 = rename_label a)
                    (cols (renamed df)) i j _ _ Hlt Hci Hcj eq_refl eq_refl).
      lia.
    + pose proof (filter_two (λ kv : string * list cell, kv.1 = rename_label a)
                    (cols (renamed df)) j i _ _ Hgt Hcj Hci eq_refl eq_refl).
      lia.
Qed.

Lemma is_Some_default {A} (x : option A) (d : A) :
  is_Some x → x = Some (default d x).
Proof. by intros [y ->]. Qed.

(** X19 at work: a workbook of two columns is loaded with the twelve
    columns; one whose columns 產品代碼 and 倉庫代碼 both fall under the rule
    of the product code is not loaded. *)
Lemma inventory_of_two_columns :
  (∃ out,
     inventory_table (CFrame 1 [("產品名稱", [Txt "pump"]); ("數量", [Int 3])])
       = Some out ∧
     labels out = required_columns) ∧
  inventory_table (CFrame 1 [("產品代碼", [Txt "P1"]); ("倉庫代碼", [Txt "W1"])])
    = None.
Proof.
  split; [| by vm_compute].
  set (df := CFrame 1 [("產品名稱", [Txt "pump"]); ("數量", [Int 3])]).
  assert (Hrun : inventory_table df
                 = Some (default (CFrame 0 []) (inventory_table df)))
    by (apply is_Some_default; vm_compute; by eexists).
  assert (Hn : index_length df ≠ 0%nat) by by vm_compute.
  exists (default (CFrame 0 []) (inventory_table df)). split; [exact Hrun |].
  destruct (inventory_table_shape df _ Hn Hrun) as [Hl _]. exact Hl.
Defined.

End ReconcileShape.

(** ** One row for each document number *)

Module DedupCount.
Import Py Frames Dedup FramesFacts DedupFacts.

(** The document numbers of the rows of a frame. *)
Definition documents (df : frame) : list cell :=
  (λ r, value r "單據編號") <$> data df.

Lemma insert_sorted_length {A} (le : A → A → bool) x l :
  length (insert_sorted le x l) = S (length l).
Proof.
  induction l as [| y l IH]; [done |]. simpl.
  destruct (le x y); simpl; [done | by rewrite IH].
Qed.

Lemma stable_sort_length {A} (le : A → A → bool) l :
  length (stable_sort le l) = length l.
Proof.
  induction l as [| x l IH]; [done |]. simpl.
  by rewrite insert_sorted_length, IH.
Qed.

Lemma filter_length_elem {A K} `{EqDecision K} (key : A → K) d (l : list A) :
  (if bool_decide (d ∈ key <$> l) then 1 else 0)%nat =
  (1 `min` length (filter (λ x, key x = d) l))%nat.
Proof.
  case_bool_decide as Hin.
  - apply list_elem_of_fmap in Hin as (x & -> & Hx).
    assert (x ∈ filter (λ y, key y = key x) l) as H
      by by apply list_elem_of_filter.
    destruct (filter _ l); [by apply elem_of_nil in H | simpl; lia].
  - destruct (filter _ l) as [| x l'] eqn:Hf; [done |]. exfalso. apply Hin.
    assert (x ∈ filter (λ y, key y = d) l) as H by (rewrite Hf; left).
    apply list_elem_of_filter in H as [<- H].
    apply list_elem_of_fmap. by exists x.
Qed.

(** The rows kept of a document number, after two row-wise rewritings
    that keep the document number, with or without the sort between
    them. *)
Lemma count_kept (sorts : bool) name (F G : gmap string cell → gmap string cell)
    d (l : list (gmap string cell)) :
  (∀ r, value (F r) "單據編號" = value r "單據編號") →
  (∀ r, value (G r) "單據編號" = value r "單據編號") →
  length (filter (λ r, value r "單據編號" = d)
            (drop_duplicate_keys (λ r, value r "單據編號")
               (G <$> (if sorts then stable_sort (named_first name) (F <$> l)
                       else F <$> l)))) =
  (if bool_decide (d ∈ (λ r, value r "單據編號") <$> l) then 1 else 0)%nat.
Proof.
  intros HF HG.
  rewrite filter_drop_duplicate_keys.
  rewrite (filter_key_fmap (λ r, value r "單據編號") (λ r, value r "單據編號") G)
    by done.
  rewrite length_take, length_fmap, filter_length_elem. f_equal.
  destruct sorts.
  - rewrite (filter_stable_sort _ (named_first_total name)
               (named_first_trans name)).
    rewrite stable_sort_length.
    by rewrite (filter_key_fmap (λ r, value r "單據編號")
                  (λ r, value r "單據編號") F), length_fmap by done.
  - by rewrite (filter_key_fmap (λ r, value r "單據編號")
                  (λ r, value r "單據編號") F), length_fmap by done.
Qed.

Lemma sort_named_first_data df :
  columns (sort_named_first df) = columns df ∧
  ∃ sorts : bool,
    data (sort_named_first df) =
    if sorts then stable_sort (named_first "客戶名稱") (data df) else data df.
Proof.
  unfold sort_named_first. destruct (_ && _).
  - split; [done |]. by exists true.
  - split; [done |]. by exists false.
Qed.

Lemma set_column_columns c f df c' :
  c' ∈ columns (set_column c f df) ↔ c' ∈ columns df ∨ c' = c.
Proof.
  unfold set_column, has_col. cbn [columns]. case_bool_decide as Hc.
  - split; [by left |]. by intros [? | ->].
  - rewrite elem_of_app, list_elem_of_singleton. done.
Qed.

Lemma fill_from_columns t s df c :
  c ≠ t → (c ∈ columns (fill_from t s df) ↔ c ∈ columns df).
Proof.
  intros Hne. unfold fill_from.
  destruct (negb _ && _); [rewrite set_column_columns; tauto |].
  destruct (_ && _); [rewrite set_column_columns; tauto | done].
Qed.

Lemma fill_from_has_target t s df :
  has_col df t = true ∨ has_col df s = true →
  has_col (fill_from t s df) t = true.
Proof.
  intros H. unfold fill_from.
  destruct (has_col df t) eqn:Ht, (has_col df s) eqn:Hs; simpl;
    try (apply bool_decide_eq_true, set_column_columns; by right);
    try done.
  by destruct H.
Qed.

(** The rows after the cleaning and completion of the name columns of
    the sales and repair conversions. *)
Lemma prepared df :
  let prep := fill_from "客戶名稱" "客戶"
                (clean_column "客戶" (clean_column "客戶名稱" df)) in
  has_col prep "單據編號" = has_col df "單據編號" ∧
  (has_col df "客戶名稱" = true ∨ has_col df "客戶" = true →
   has_col prep "客戶名稱" = true) ∧
  ∃ T, data prep = T <$> data df ∧
       ∀ r, value (T r) "單據編號" = value r "單據編號".
Proof.
  intros prep. split; [| split].
  - unfold prep, has_col. apply bool_decide_ext.
    rewrite fill_from_columns by done. by rewrite !clean_column_columns.
  - intros H. apply fill_from_has_target.
    unfold has_col in *. by rewrite !clean_column_columns.
  - assert (Hr : rewrites ["客戶名稱"; "客戶"] df prep).
    { unfold prep.
      eapply rewrites_trans;
        [| apply rewrites_fill_from; apply (bool_decide_unpack _); by vm_compute].
      eapply rewrites_trans;
        [| apply rewrites_clean_column; apply (bool_decide_unpack _); by vm_compute].
      apply rewrites_clean_column. apply (bool_decide_unpack _). by vm_compute. }
    destruct Hr as (T & HT & HTv). exists T. split; [done |].
    intros r. apply HTv. apply (bool_decide_unpack _). by vm_compute.
Qed.

Lemma sales_one_row df d :
  has_col df "單據編號" = true →
  ∃ main, sales_main df = Some main ∧
    length (filter (λ r, value r "單據編號" = d) (data main)) =
    (if bool_decide (d ∈ documents df) then 1 else 0)%nat.
Proof.
  intros Hdoc. destruct (prepared df) as (Hpd & _ & T & HT & HTd).
  unfold sales_main.
  set (prep := fill_from "客戶名稱" "客戶" _) in *.
  destruct (sort_named_first_data prep) as (Hcols & sorts & Hdata).
  rewrite Hcols.
  set (avail := filter (λ c, c ∈ columns prep) main_columns).
  assert (Hnd : NoDup avail) by apply NoDup_filter, main_columns_nodup.
  assert (Hd_in : "單據編號" ∈ avail).
  { apply list_elem_of_filter. split.
    - rewrite Hdoc in Hpd. by apply bool_decide_eq_true in Hpd.
    - apply (bool_decide_unpack _). by vm_compute. }
  unfold select_columns, select_rename, has_col. cbn [columns data].
  rewrite <- list_fmap_compose, list_fmap_id.
  rewrite bool_decide_eq_true_2 by done.
  eexists. split; [reflexivity |].
  unfold drop_duplicates, documents. cbn [data]. rewrite Hdata, HT.
  apply count_kept; [done |].
  intros r. by apply value_select_columns.
Qed.

Lemma repair_one_row df d :
  has_col df "單據編號" = true →
  has_col df "客戶名稱" = true ∨ has_col df "客戶" = true →
  length (filter (λ r, value r "單據編號" = d) (data (repair_data df))) =
  (if bool_decide (d ∈ documents df) then 1 else 0)%nat.
Proof.
  intros Hdoc Hname. destruct (prepared df) as (Hpd & Hpn & T & HT & HTd).
  unfold repair_data.
  set (prep := fill_from "客戶名稱" "客戶" _) in *.
  rewrite Hpd, Hdoc, (Hpn Hname). cbn [andb].
  destruct (sort_named_first_data prep) as (_ & sorts & Hdata).
  unfold drop_duplicates, documents. cbn [data]. rewrite Hdata, HT.
  rewrite <- (list_fmap_id (if sorts then _ else _)).
  by apply count_kept.
Qed.

Lemma custody_one_row df d :
  has_col df "單據編號" = true →
  ∃ main, custody_main df = Some main ∧
    length (filter (λ r, value r "單據編號" = d) (data main)) =
    (if bool_decide (d ∈ documents df) then 1 else 0)%nat.
Proof.
  intros Hdoc. apply bool_decide_eq_true in Hdoc. unfold custody_main.
  set (avail := filter (λ kv, kv.1 ∈ columns df) main_columns_mapping).
  set (block := fill_from "寄貨對象名稱" "客戶名稱" _).
  assert (Hblock : rewrites ["客戶名稱"; "寄貨對象名稱"; "客戶"] df block).
  { unfold block.
    repeat (eapply rewrites_trans;
            [| apply rewrites_fill_from; apply (bool_decide_unpack _); by vm_compute]).
    repeat (eapply rewrites_trans;
            [| apply rewrites_clean_column; apply (bool_decide_unpack _); by vm_compute]).
    apply rewrites_refl. }
  destruct Hblock as (T & HT & HTv).
  assert (Hnd : NoDup avail.*2).
  { eapply sublist_NoDup; [apply mapping_targets_nodup |].
    apply fmap_sublist, sublist_filter. }
  assert (Hd_in : ("單據編號", "單據編號") ∈ avail).
  { apply list_elem_of_filter. split; [done |].
    apply (bool_decide_unpack _). by vm_compute. }
  assert (Hd2 : "單據編號" ∈ avail.*2)
    by (apply list_elem_of_fmap; by exists ("單據編號", "單據編號")).
  destruct (sort_named_first_data (select_rename avail block))
    as (Hcols & sorts & Hdata).
  unfold has_col. rewrite Hcols. unfold select_rename at 1. cbn [columns].
  rewrite bool_decide_eq_true_2 by done.
  eexists. split; [reflexivity |].
  unfold drop_duplicates, documents. cbn [data]. rewrite Hdata.
  unfold select_rename. cbn [data]. rewrite HT, <- list_fmap_compose.
  rewrite <- (list_fmap_id (if sorts then _ else _)).
  apply count_kept; [| done].
  intros r. unfold compose.
  etrans; [by apply (value_select_rename avail (T r) "單據編號" "單據編號") |].
  apply HTv. apply (bool_decide_unpack _). by vm_compute.
Qed.

(** X20.  Each of the three main tables holds exactly one row for every
    document number of the concatenated frame, and no row for any other:
    no document is lost and none appears twice.  (The repair table is
    de-duplicated only when the frame has a customer name or a customer
    column.) *)
Theorem one_row_per_document k df d :
  has_col df "單據編號" = true →
  (k = Repair → has_col df "客戶名稱" = true ∨ has_col df "客戶" = true) →
  ∃ main,
    main_table k df = Some main ∧
    length (filter (λ r, value r "單據編號" = d) (data main)) =
    (if bool_decide (d ∈ documents df) then 1 else 0)%nat.
Proof.
  intros Hdoc Hname. destruct k; simpl.
  - by apply sales_one_row.
  - eexists. split; [reflexivity |]. apply repair_one_row; [done |]. by apply Hname.
  - by apply custody_one_row.
Qed.

(** X21.  Without a column 單據編號 the sales and the consignment
    conversions fail, for [drop_duplicates] finds no such column, while
    the repair conversion loads every row of the frame. *)
Theorem missing_document_column df :
  has_col df "單據編號" = false →
  sales_main df = None ∧
  custody_main df = None ∧
  length (data (repair_data df)) = length (data df).
Proof.
  intros Hdoc. destruct (prepared df) as (Hpd & _ & T & HT & _).
  split; [| split].
  - unfold sales_main.
    set (prep := fill_from "客戶名稱" "客戶" _) in *.
    destruct (sort_named_first_data prep) as (Hcols & _). rewrite Hcols.
    unfold select_columns, select_rename, has_col at 1. cbn [columns].
    rewrite <- list_fmap_compose, list_fmap_id.
    rewrite bool_decide_eq_false_2; [done |].
    intros [Hin _]%list_elem_of_filter.
    rewrite Hdoc in Hpd. by apply bool_decide_eq_false in Hpd.
  - unfold custody_main.
    set (avail := filter (λ kv, kv.1 ∈ columns df) main_columns_mapping).
    set (block := fill_from "寄貨對象名稱" "客戶名稱" _).
    destruct (sort_named_first_data (select_rename avail block)) as (Hcols & _).
    unfold has_col. rewrite Hcols. unfold select_rename. cbn [columns].
    rewrite bool_decide_eq_false_2; [done |].
    intros ([src dst] & Hdst & Hin)%list_elem_of_fmap. simpl in Hdst. subst dst.
    apply list_elem_of_filter in Hin as [Hsrc Hin]. simpl in Hsrc.
    assert (Forall (λ kv : string * string, kv.2 = "單據編號" → kv.1 = "單據編號")
              main_columns_mapping) as HF
      by (apply (bool_decide_unpack _); by vm_compute).
    rewrite Forall_forall in HF. specialize (HF _ Hin eq_refl). simpl in HF.
    subst src. by apply bool_decide_eq_false in Hdoc.
  - unfold repair_data.
    set (prep := fill_from "客戶名稱" "客戶" _) in *.
    rewrite Hpd, Hdoc. cbn [andb]. by rewrite HT, length_fmap.
Qed.

(** X20 at work on the three rows of the sales example: one row for
    document A, one for B, none for C. *)
Lemma one_row_for_document_a :
  ∃ main,
    sales_main (Frame ["單據編號"; "客戶名稱"]
                  [doc_a_without_name; doc_b_ann; doc_a_bob]) = Some main ∧
    length (filter (λ r, value r "單據編號" = Txt "A") (data main)) = 1%nat ∧
    length (filter (λ r, value r "單據編號" = Txt "C") (data main)) = 0%nat.
Proof.
  set (df := Frame ["單據編號"; "客戶名稱"]
               [doc_a_without_name; doc_b_ann; doc_a_bob]).
  destruct (one_row_per_document Sales df (Txt "A"))
    as (main & Hrun & Ha); [by vm_compute | done |].
  destruct (one_row_per_document Sales df (Txt "C"))
    as (main' & Hrun' & Hc); [by vm_compute | done |].
  simpl in Hrun, Hrun'. rewrite Hrun in Hrun'. injection Hrun' as <-.
  exists main. split; [exact Hrun |].
  rewrite Ha, Hc. split; by vm_compute.
Defined.

(** X21 at work: a frame of names only. *)
Lemma frame_without_document_numbers :
  let df := Frame ["客戶名稱"] [{["客戶名稱" := Txt "Bob"]}; {["客戶名稱" := Txt "Ann"]}] in
  sales_main df = None ∧ custody_main df = None ∧
  length (data (repair_data df)) = 2%nat.
Proof.
  intros df. apply (missing_document_column df). by vm_compute.
Defined.

End DedupCount.
